(** * ollama-js: the streaming pipeline, the blob upload and the client facade

    A shallow embedding of [src/utils.ts], [src/browser.ts] and [src/index.ts].
    Built-ins of the host platform that the sources call but do not define
    ([JSON.parse], [URL], [fetch], the [path], [os], [fs] and [crypto] modules)
    are fields of the classes [Json], [Host], [Index.NodeFs] and
    [Browser.Globals]; everything else follows the TypeScript text.

    Conventions.
    - A byte is a [Z] in [0, 255]; a [Uint8Array] chunk is a [list Z].
    - Text decoded from the network is a list of Unicode code points ([Z]);
      host names, header values, error messages and Modelfile text are [string].
    - An operation that may throw returns a [Completion].
    - A generator is the trace it produces when pulled: what it yields, in
      order, and how its body ends.  The consuming loop reads the trace from
      the left, so whatever lies behind the point where the consumer stops is
      never run. *)

From Stdlib Require Import ZArith String Ascii List Bool Lia.
From Stdlib Require Import Numbers.DecimalString.
From stdpp Require Import base option list strings gmap.

Local Open Scope Z_scope.

(* ===================================================================== *)
(** * Part I: definitions                                                 *)
(* ===================================================================== *)

(** ** Thrown values and completions *)

(** What a [throw] (or a rejected promise) carries.  [JsErr] is an instance of
    [Error] with its [name], [message] and, for [ResponseError], the
    [status_code]; [NonErr] is any other thrown value. *)
Inductive Thrown :=
| JsErr (name : string) (message : string) (status_code : option Z)
| NonErr (repr : string).

Definition Error (message : string) : Thrown := JsErr "Error" message None.
Definition ResponseError (error : string) (status_code : Z) : Thrown :=
  JsErr "ResponseError" error (Some status_code).
Definition TypeError (message : string) : Thrown := JsErr "TypeError" message None.
(** The [DOMException] an aborted signal raises in a pending transport read. *)
Definition AbortError : Thrown := JsErr "AbortError" "This operation was aborted" None.

(** [e instanceof Error]. *)
Definition instanceof_Error (e : Thrown) : bool :=
  match e with JsErr _ _ _ => true | NonErr _ => false end.

(** [e.message], the empty string standing for [undefined]. *)
Definition message_of (e : Thrown) : string :=
  match e with JsErr _ m _ => m | NonErr _ => "" end.

Inductive Completion (A : Type) :=
| Normal (a : A)
| Throw (e : Thrown).
Arguments Normal {A} a.
Arguments Throw {A} e.

(** [await] and sequencing: a thrown value skips the rest. *)
#[global] Instance completion_bind : MBind Completion :=
  fun A B k c => match c with Normal a => k a | Throw e => Throw e end.
#[global] Instance completion_ret : MRet Completion := @Normal.

(** ** Strings *)

Module Str.

Definition chars (s : string) : list ascii := list_ascii_of_string s.
Definition of_chars (l : list ascii) : string := string_of_list_ascii l.

(** [s.startsWith(p)] *)
Fixpoint startsWith (p s : string) : bool :=
  match p, s with
  | EmptyString, _ => true
  | String a p', String b s' => if Ascii.eqb a b then startsWith p' s' else false
  | String _ _, EmptyString => false
  end.

(** [s.includes(p)] *)
Fixpoint includes (p s : string) : bool :=
  startsWith p s ||
  match s with
  | EmptyString => false
  | String _ s' => includes p s'
  end.

(** [s.endsWith(p)] *)
Definition endsWith (p s : string) : bool :=
  startsWith (of_chars (rev (chars p))) (of_chars (rev (chars s))).

(** [s.slice(1)] *)
Definition slice1 (s : string) : string :=
  match s with EmptyString => EmptyString | String _ s' => s' end.

(** [s.slice(0, -1)] *)
Definition slice0m1 (s : string) : string := of_chars (removelast (chars s)).

(** The pieces of [s.split(sep)] for a separator of one character. *)
Fixpoint split_chars {A} `{EqDecision A} (sep : A) (s : list A) : list (list A) :=
  match s with
  | [] => [[]]
  | c :: r =>
    if decide (c = sep) then [] :: split_chars sep r
    else match split_chars sep r with
         | [] => [[c]]
         | seg :: segs => (c :: seg) :: segs
         end
  end.

Definition split (sep : ascii) (s : string) : list string :=
  of_chars <$> split_chars sep (chars s).

(** [s.split(sep, limit)]: the first [limit] pieces, the rest is dropped. *)
Definition split_limit (sep : ascii) (limit : nat) (s : string) : list string :=
  take limit (split sep s).

(** [parts.join(sep)] *)
Fixpoint join (sep : string) (parts : list string) : string :=
  match parts with
  | [] => EmptyString
  | [p] => p
  | p :: rest => p +:+ sep +:+ join sep rest
  end.

(** The white space and line terminators among the ASCII characters; [trim]
    strips these, and a few characters beyond ASCII that the Modelfiles of
    the statements below do not contain. *)
Definition is_space (c : ascii) : bool :=
  let n := nat_of_ascii c in
  ((9 <=? n) && (n <=? 13))%nat || (n =? 32)%nat.

Fixpoint trimStart (s : string) : string :=
  match s with
  | String c s' => if is_space c then trimStart s' else s
  | EmptyString => EmptyString
  end.

(** [s.trim()] *)
Definition trim (s : string) : string :=
  of_chars (rev (chars (trimStart (of_chars (rev (chars (trimStart s))))))).

Definition upper (c : ascii) : ascii :=
  let n := nat_of_ascii c in
  if ((97 <=? n) && (n <=? 122))%nat then ascii_of_nat (n - 32) else c.

(** [s.toUpperCase()] on the letters a-z; no other character is mapped onto a
    letter of the keywords compared against. *)
Fixpoint toUpperCase (s : string) : string :=
  match s with
  | EmptyString => EmptyString
  | String c s' => String (upper c) (toUpperCase s')
  end.

(** Template-literal rendering of a number. *)
Definition of_Z (z : Z) : string := NilZero.string_of_int (Z.to_int z).

End Str.

(** ** Text decoded from the network *)

Abbreviation text := (list Z) (only parsing).
Abbreviation chunk := (list Z) (only parsing).
Definition NL : Z := 10.
Definition REPLACEMENT : Z := 0xFFFD.

Module Utf8.

(** The state of the platform's UTF-8 decoder between two bytes: no sequence
    open, or [needed] continuation bytes still due for code point [cp], the
    next one within [lower, upper]. *)
Inductive State :=
| Start
| Need (needed : nat) (cp lower upper : Z).

(** A byte met with no sequence open. *)
Definition lead (b : Z) : State * list Z :=
  if b <=? 0x7F then (Start, [b])
  else if (0xC2 <=? b) && (b <=? 0xDF) then
    (Need 1 (Z.land b 0x1F) 0x80 0xBF, [])
  else if (0xE0 <=? b) && (b <=? 0xEF) then
    (Need 2 (Z.land b 0xF)
          (if b =? 0xE0 then 0xA0 else 0x80) (if b =? 0xED then 0x9F else 0xBF), [])
  else if (0xF0 <=? b) && (b <=? 0xF4) then
    (Need 3 (Z.land b 0x7)
          (if b =? 0xF0 then 0x90 else 0x80) (if b =? 0xF4 then 0x8F else 0xBF), [])
  else (Start, [REPLACEMENT]).

(** The bytes [bs] run through the decoder from state [st]; at the end of
    the input an open sequence is flushed as one replacement character. *)
Fixpoint run (st : State) (bs : list Z) : text :=
  match bs with
  | [] => match st with Start => [] | Need _ _ _ _ => [REPLACEMENT] end
  | b :: rest =>
    match st with
    | Start => let '(st', out) := lead b in out ++ run st' rest
    | Need n cp lo hi =>
      if (lo <=? b) && (b <=? hi) then
        let cp' := Z.lor (Z.shiftl cp 6) (Z.land b 0x3F) in
        match n with
        | S (S n') => run (Need (S n') cp' 0x80 0xBF) rest
        | _ => cp' :: run Start rest
        end
      else let '(st', out) := lead b in REPLACEMENT :: out ++ run st' rest
    end
  end.

(** A leading byte order mark is not part of the text. *)
Definition strip_bom (bs : list Z) : list Z :=
  match bs with
  | a :: b :: c :: rest =>
    if (a =? 0xEF) && (b =? 0xBB) && (c =? 0xBF) then rest else bs
  | _ => bs
  end.

(** [new TextDecoder('utf-8').decode(chunk)]: one call without the [stream]
    option decodes [chunk] on its own, from a fresh decoder, and flushes. *)
Definition decode (c : chunk) : text := run Start (strip_bom c).

(** The state the decoder is left in by [bs], before any flush. *)
Fixpoint state_after (st : State) (bs : list Z) : State :=
  match bs with
  | [] => st
  | b :: rest =>
    match st with
    | Start => state_after (fst (lead b)) rest
    | Need n cp lo hi =>
      if (lo <=? b) && (b <=? hi) then
        match n with
        | S (S n') =>
          state_after (Need (S n') (Z.lor (Z.shiftl cp 6) (Z.land b 0x3F)) 0x80 0xBF) rest
        | _ => state_after Start rest
        end
      else state_after (fst (lead b)) rest
    end
  end.

(** [bs] ends between two characters. *)
Definition complete (bs : list Z) : Prop := state_after Start bs = Start.

(** A chunk that ends between two characters and does not open with a byte
    order mark. *)
Definition whole_characters (c : chunk) : Prop := complete c /\ strip_bom c = c.

End Utf8.

(** ** JSON values, as far as the sources look into them *)

(** The parsed values of type [V] and what the library does with one:
    [JSON.parse], the test ['error' in message] ([None] when the operator
    throws because the value is not an object, with the [TypeError] it
    throws), the text of [new Error(message.error)], and the test
    [message.done || message.status === 'success']. *)
Class Json (V : Type) := {
  JSON_parse : text -> option V;
  error_in : V -> option bool;
  in_operator_error : V -> Thrown;
  error_message : V -> string;
  done_or_success : V -> bool;
}.

(** ** utils.ts: the line-delimited JSON decoder *)

(** A [ReadableStream<Uint8Array>] seen through its reader: the results of
    the successive calls of [reader.read()]. *)
Inductive ReadableStream :=
| Closed
| Errored (e : Thrown)
| Enqueued (c : chunk) (rest : ReadableStream).

Fixpoint stream_of (chunks : list chunk) : ReadableStream :=
  match chunks with
  | [] => Closed
  | c :: rest => Enqueued c (stream_of rest)
  end.

(** The reader that delivers [chunks] and then goes on as [rest]. *)
Fixpoint stream_then (chunks : list chunk) (rest : ReadableStream) : ReadableStream :=
  match chunks with
  | [] => rest
  | c :: cs => Enqueued c (stream_then cs rest)
  end.

(** What a generator does between two suspensions, besides ending. *)
Inductive Emit (V : Type) :=
| Yielded (v : V)
| Warned (part : text).
Arguments Yielded {V} v.
Arguments Warned {V} part.

(** How a generator's body ends. *)
Inductive Ending :=
| Returned
| Threw (e : Thrown).

Definition Trace (V : Type) : Type := list (Emit V) * Ending.

Definition yields {V} (t : list (Emit V)) : list V :=
  omap (fun e => match e with Yielded v => Some v | Warned _ => None end) t.

Definition warnings {V} (t : list (Emit V)) : list text :=
  omap (fun e => match e with Warned p => Some p | Yielded _ => None end) t.

(** [buffer.split('\n')] *)
Definition lines (buffer : text) : list text := Str.split_chars NL buffer.

(** [parts.pop() ?? ''] together with what is left in [parts]. *)
Definition pop (parts : list text) : list text * text :=
  (removelast parts, List.last parts []).

Definition non_empty (p : text) : bool :=
  match p with [] => false | _ => true end.

(** The text that stands open at the end of a stream: nothing when the text
    is closed by a newline. *)
Definition residue (whole : text) : list text :=
  filter (fun p => non_empty p = true) [List.last (lines whole) []].

Section ParseJSON.
Context {V : Type} `{Json V}.

(** [try { yield JSON.parse(part) } catch { console.warn('invalid json: ', part) }] *)
Definition try_parse (part : text) : Emit V :=
  match JSON_parse part with
  | Some v => Yielded v
  | None => Warned part
  end.

(** The [while (true)] loop of [parseJSON] from the top of an iteration, with
    [buffer] as it stands and [reader] still to be read, followed by the
    loop over what is left in the buffer. *)
Fixpoint parseJSON_loop (buffer : text) (reader : ReadableStream) : Trace V :=
  match reader with
  | Errored e => ([], Threw e)
  | Closed => (try_parse <$> filter (fun p => non_empty p = true) (lines buffer), Returned)
  | Enqueued c rest =>
    let '(parts, buffer') := pop (lines (buffer ++ Utf8.decode c)) in
    let '(emits, ending) := parseJSON_loop buffer' rest in
    ((try_parse <$> parts) ++ emits, ending)
  end.

(** [parseJSON(itr)] *)
Definition parseJSON (itr : ReadableStream) : Trace V := parseJSON_loop [] itr.

(** A [parseJSON] generator between two pulls: suspended inside the first
    [for] loop with [parts] still to parse, or inside the last one, or done. *)
Inductive Decoder :=
| Reading (parts : list text) (buffer : text) (reader : ReadableStream)
| Flushing (parts : list text)
| Finished.

(** What the generator goes on to do when pulled to the end. *)
Definition Decoder_trace (d : Decoder) : Trace V :=
  match d with
  | Reading parts buffer reader =>
    let '(emits, ending) := parseJSON_loop buffer reader in
    ((try_parse <$> parts) ++ emits, ending)
  | Flushing parts => (try_parse <$> parts, Returned)
  | Finished => ([], Returned)
  end.

(** The candidates handed to [JSON.parse], in order. *)
Fixpoint candidates (buffer : text) (reader : ReadableStream) : list text :=
  match reader with
  | Errored _ => []
  | Closed => filter (fun p => non_empty p = true) (lines buffer)
  | Enqueued c rest =>
    let '(parts, buffer') := pop (lines (buffer ++ Utf8.decode c)) in
    parts ++ candidates buffer' rest
  end.

End ParseJSON.

(** ** utils.ts: AbortableAsyncIterator *)

(** How a consumer's [for await] over the iterator ends. *)
Inductive Outcome :=
| Completed
| Raised (e : Thrown).

(** One run of [AbortableAsyncIterator[Symbol.asyncIterator]] pulled until it
    ends: the messages taken from [itr], the messages yielded, the number of
    calls of [doneCallback], whether [itr] reported the end of its data, and
    how the run ended. *)
Record Run (V : Type) := {
  pulled : list V;
  yielded : list V;
  callbacks : nat;
  inner_ended : bool;
  outcome : Outcome;
}.
Arguments pulled {V} _.
Arguments yielded {V} _.
Arguments callbacks {V} _.
Arguments inner_ended {V} _.
Arguments outcome {V} _.

Definition no_completion : Thrown :=
  Error "Did not receive done or success response in stream.".

Section AbortableAsyncIterator.
Context {V : Type} `{Json V}.

Definition took (m : V) (r : Run V) : Run V :=
  {| pulled := m :: pulled r; yielded := m :: yielded r; callbacks := callbacks r;
     inner_ended := inner_ended r; outcome := outcome r |}.

(** The body of the [for await] loop from the point where [itr.next()] is
    called, [itr] going on to do [emits] and then end as [ending].  The
    consumer pulls until the generator ends, so the statements behind
    [yield message] run at its next pull. *)
Fixpoint iterate_loop (emits : list (Emit V)) (ending : Ending) : Run V :=
  match emits with
  | [] =>
    match ending with
    | Returned =>
      (* the loop is left: [throw new Error('Did not receive ...')] *)
      {| pulled := []; yielded := []; callbacks := 0; inner_ended := true;
         outcome := Raised no_completion |}
    | Threw e =>
      (* [itr.next()] rejects *)
      {| pulled := []; yielded := []; callbacks := 0; inner_ended := false;
         outcome := Raised e |}
    end
  | Warned _ :: rest => iterate_loop rest ending
  | Yielded message :: rest =>
    match error_in message with
    | None =>
      (* ['error' in message] throws *)
      {| pulled := [message]; yielded := []; callbacks := 0; inner_ended := false;
         outcome := Raised (in_operator_error message) |}
    | Some true =>
      (* [throw new Error(message.error)] *)
      {| pulled := [message]; yielded := []; callbacks := 0; inner_ended := false;
         outcome := Raised (Error (error_message message)) |}
    | Some false =>
      (* [yield message] *)
      if done_or_success message then
        (* [this.doneCallback(); return] *)
        {| pulled := [message]; yielded := [message]; callbacks := 1;
           inner_ended := false; outcome := Completed |}
      else took message (iterate_loop rest ending)
    end
  end.

(** The generator from its first pull. *)
Definition iterate (itr : Trace V) : Run V := iterate_loop (fst itr) (snd itr).

(** The generator suspended at [yield message], pulled on. *)
Definition resume (message : V) (itr : Trace V) : Run V :=
  if done_or_success message then
    {| pulled := []; yielded := []; callbacks := 1; inner_ended := false;
       outcome := Completed |}
  else iterate itr.

End AbortableAsyncIterator.

(** ** The host platform *)

(** The fields of a [URL] object that [formatHost] reads. *)
Record URL := {
  protocol : string;
  hostname : string;
  port : string;
  pathname : string;
}.

(** Built-ins and surroundings the sources rely on: the [URL] constructor
    (it throws on a string that is no URL), the rendered client identifier
    [`ollama-js/${version} (${getPlatform()})`], [JSON.stringify] of a plain
    record, [os.homedir], [path.join], [path.resolve], the hex SHA-256 of a
    byte string, whether [ReadableStream] is defined, [fs.promises.access]
    and the chunks (or the error) [fs.createReadStream] delivers. *)
Class Host := {
  URL_new : string -> Completion URL;
  user_agent : string;
  JSON_stringify : list (string * string) -> string;
  homedir : string;
  path_join : string -> string -> string;
  path_resolve : string -> string -> string;
  sha256_hex : list Z -> string;
  has_ReadableStream : bool;
  fs_access : string -> bool;
  fs_read : string -> Completion (list chunk);
}.

(** ** utils.ts: requests and responses *)

(** A value of a headers object: a string, or (where a caller nests one
    object inside another) an object of strings. *)
Inductive HeaderValue :=
| HStr (s : string)
| HObj (o : gmap string string).

(** A [ReadableStream] some code built and fills: the chunks enqueued on its
    controller and whether the controller was closed. *)
Record SourceStream := {
  enqueued : list chunk;
  closed : bool;
}.

(** The [data] argument of [post]. *)
Inductive PostData :=
| DUndefined
| DRecord (fields : list (string * string))
| DStream (s : SourceStream).

(** The [body] of a request as [fetch] receives it. *)
Inductive Body :=
| BUndefined
| BText (s : string)
| BStream (s : SourceStream).

(** The [options] object handed to [fetch]. *)
Record RequestInit := {
  method : option string;
  body : Body;
  signal : option nat;
  headers : gmap string HeaderValue;
}.

(** A [Response], as far as the library reads it.  [json_error] is
    [(await response.json()).error]: [None] when it is missing or falsy,
    otherwise the text an [Error] made of it has as message (a string is its
    own text, an empty array has the empty one), and a throw when reading it
    throws (the body is no JSON, or is [null]); [json] is
    [await response.json()] as a value. *)
Record Response (V : Type) := {
  status : Z;
  statusText : string;
  content_type : option string;
  json_error : Completion (option string);
  text_body : Completion string;
  json : Completion V;
  stream_body : option ReadableStream;
}.
Arguments status {V} _.
Arguments statusText {V} _.
Arguments content_type {V} _.
Arguments json_error {V} _.
Arguments text_body {V} _.
Arguments json {V} _.
Arguments stream_body {V} _.

(** [response.ok] *)
Definition ok {V} (r : Response V) : bool := (200 <=? status r) && (status r <=? 299).

(** The transport: a rejected promise is a [Throw]. *)
Definition Fetch (V : Type) : Type := string -> RequestInit -> Completion (Response V).

(** A computation that issues requests: the calls of [fetch] it made, in
    order, and its completion. *)
Definition IO (A : Type) : Type := (list (string * RequestInit) * Completion A)%type.

#[global] Instance io_bind : MBind IO :=
  fun A B k m =>
    match m with
    | (calls, Normal a) => let '(calls', r) := k a in (calls ++ calls', r)
    | (calls, Throw e) => (calls, Throw e)
    end.
#[global] Instance io_ret : MRet IO := fun A a => ([], Normal a).

Definition lift {A} (c : Completion A) : IO A := ([], c).
Definition requests {A} (m : IO A) : list (string * RequestInit) := fst m.
Definition result {A} (m : IO A) : Completion A := snd m.

Module Utils.
Section Requests.
Context {V : Type} `{Host}.

(** [a || b] on strings. *)
Definition or_else (a b : string) : string :=
  match a with EmptyString => b | _ => a end.

(** [checkOk(response)] *)
Definition checkOk (response : Response V) : Completion unit :=
  if ok response then Normal tt
  else
    let message := "Error " +:+ Str.of_Z (status response) +:+ ": " +:+ statusText response in
    let message :=
      if match content_type response with
         | Some ct => Str.includes "application/json" ct
         | None => false
         end
      then match json_error response with
           | Normal (Some e) => e
           | Normal None => message
           | Throw _ => message
           end
      else match text_body response with
           | Normal t => or_else t message
           | Throw _ => message
           end in
    Throw (ResponseError message (status response)).

Definition defaultHeaders : gmap string HeaderValue :=
  <["Content-Type" := HStr "application/json"]>
  (<["Accept" := HStr "application/json"]>
  (<["User-Agent" := HStr user_agent]> ∅)).

(** [fetchWithHeaders(fetch, url, options)]: [with_headers] is [options]
    once its [headers] are replaced; the spread puts the caller's entries
    over the defaults, key by key. *)
Definition with_headers (method : option string) (body : Body) (signal : option nat)
    (headers : option (gmap string HeaderValue)) : RequestInit :=
  {| method := method; body := body; signal := signal;
     headers := default ∅ headers ∪ defaultHeaders |}.

Definition fetchWithHeaders (fetch : Fetch V) (url : string)
    (method : option string) (body : Body) (signal : option nat)
    (headers : option (gmap string HeaderValue)) : IO (Response V) :=
  let options := with_headers method body signal headers in
  ([(url, options)], fetch url options).

(** [get(fetch, host, headers)] *)
Definition get (fetch : Fetch V) (host : string)
    (headers : option (gmap string HeaderValue)) : IO (Response V) :=
  response ← fetchWithHeaders fetch host None BUndefined None headers;
  _ ← lift (checkOk response);
  mret response.

(** [head(fetch, host, headers)] *)
Definition head (fetch : Fetch V) (host : string)
    (headers : option (gmap string HeaderValue)) : IO (Response V) :=
  response ← fetchWithHeaders fetch host (Some "HEAD") BUndefined None headers;
  _ ← lift (checkOk response);
  mret response.

(** [isRecord(input)]: not [null], of type ['object'], no array. *)
Definition isRecord (data : PostData) : bool :=
  match data with
  | DUndefined => false
  | DRecord _ => true
  | DStream _ => true
  end.

(** [JSON.stringify(data)] where [isRecord(data)] holds; a stream object has
    no enumerable property of its own, so it is serialised as an empty
    object. *)
Definition stringify (data : PostData) : string :=
  match data with
  | DRecord fields => JSON_stringify fields
  | DStream _ => "{}"
  | DUndefined => "undefined"
  end.

(** [isRecord(data) ? JSON.stringify(data) : data] *)
Definition formattedData (data : PostData) : Body :=
  if isRecord data then BText (stringify data)
  else match data with
       | DStream s => BStream s
       | _ => BUndefined
       end.

(** [post(fetch, host, data, options)] *)
Definition post (fetch : Fetch V) (host : string) (data : PostData)
    (signal : option nat) (headers : option (gmap string HeaderValue)) : IO (Response V) :=
  response ← fetchWithHeaders fetch host (Some "POST") (formattedData data) signal headers;
  _ ← lift (checkOk response);
  mret response.

(** [del(fetch, host, data, headers)] *)
Definition del (fetch : Fetch V) (host : string) (data : list (string * string))
    (headers : option (gmap string HeaderValue)) : IO (Response V) :=
  response ← fetchWithHeaders fetch host (Some "DELETE") (BText (JSON_stringify data)) None headers;
  _ ← lift (checkOk response);
  mret response.

(** [`${url.protocol}//${url.hostname}:${port}${url.pathname}`] *)
Definition template (url : URL) (port : string) : string :=
  protocol url +:+ "//" +:+ hostname url +:+ ":" +:+ port +:+ pathname url.

(** [if (s.endsWith('/')) s = s.slice(0, -1)] *)
Definition drop_slash (s : string) : string :=
  if Str.endsWith "/" s then Str.slice0m1 s else s.

(** The port [formatHost] puts in when the [URL] has none: a fixed one, or
    the one of the scheme. *)
Definition port_or (fallback : string) (url : URL) : string :=
  if String.eqb (port url) "" then fallback else port url.

Definition scheme_port (url : URL) : string :=
  if String.eqb (protocol url) "https:" then "443" else "80".

Definition slash : ascii := ascii_of_nat 47.

(** [formatHost(host)] *)
Definition formatHost (host : string) : Completion string :=
  if String.eqb host "" then Normal "http://127.0.0.1:1646"
  else
    let isExplicitProtocol := Str.includes "://" host in
    let '(host, isExplicitProtocol) :=
      if Str.startsWith ":" host then ("http://127.0.0.1" +:+ host, true)
      else (host, isExplicitProtocol) in
    let host := if negb isExplicitProtocol then "http://" +:+ host else host in
    url ← URL_new host;
    let port :=
      if String.eqb (port url) "" then
        if negb isExplicitProtocol then "11434"
        else if String.eqb (protocol url) "https:" then "443" else "80"
      else port url in
    let formattedHost := template url port in
    Normal (drop_slash formattedHost).

End Requests.

Section Verbs.
Context {V : Type} `{Host}.

(** What each of [get], [head], [post] and [del] comes to once its options
    are put together: one call of [fetch], then [checkOk] on the response. *)
Definition checked (fetch : Fetch V) (url : string) (options : RequestInit)
    : IO (Response V) :=
  ([(url, options)],
   match fetch url options with
   | Normal response =>
     match checkOk response with
     | Normal _ => Normal response
     | Throw e => Throw e
     end
   | Throw e => Throw e
   end).

(** [{ ...defaultHeaders, ...headers }[key]] *)
Definition spread (headers : option (gmap string HeaderValue)) (key : string)
    : option HeaderValue :=
  match default ∅ headers !! key with
  | Some value => Some value
  | None => defaultHeaders !! key
  end.

End Verbs.
End Utils.

(** ** Base64 *)

(** [btoa] on a string of characters below 256, which is also
    [Buffer.toString('base64')] on the bytes: three bytes make four digits,
    and a last group of one or two bytes is padded. *)
Module Base64.

Definition alphabet : list ascii :=
  Str.chars "ABCDEFGHIJKLMNOPQRSTUVWXYZabcdefghijklmnopqrstuvwxyz0123456789+/".

Definition pad : ascii := ascii_of_nat 61.

Definition digit (n : Z) : ascii := nth (Z.to_nat n) alphabet pad.

Fixpoint encode (bytes : list Z) : list ascii :=
  match bytes with
  | [] => []
  | [a] => [digit (a / 4); digit (a mod 4 * 16); pad; pad]
  | [a; b] => [digit (a / 4); digit (a mod 4 * 16 + b / 16); digit (b mod 16 * 4); pad]
  | a :: b :: c :: rest =>
    digit (a / 4) :: digit (a mod 4 * 16 + b / 16) :: digit (b mod 16 * 4 + c / 64)
    :: digit (c mod 64) :: encode rest
  end.

Definition btoa (bytes : list Z) : string := Str.of_chars (encode bytes).

(** The reading of a padded Base64 text back into bytes, against which the
    encoding is checked. *)
Definition value (c : ascii) : option Z :=
  (fun found => Z.of_nat (fst found)) <$> list_find (fun d => d = c) alphabet.

Fixpoint decode (digits : list ascii) : option (list Z) :=
  match digits with
  | [] => Some []
  | c0 :: c1 :: c2 :: c3 :: rest =>
    s0 ← value c0;
    s1 ← value c1;
    if decide (c2 = pad) then
      if decide (c3 = pad /\ rest = []) then Some [s0 * 4 + s1 / 16] else None
    else
      s2 ← value c2;
      if decide (c3 = pad) then
        if decide (rest = []) then Some [s0 * 4 + s1 / 16; s1 mod 16 * 16 + s2 / 4] else None
      else
        s3 ← value c3;
        bytes ← decode rest;
        Some (s0 * 4 + s1 / 16 :: s1 mod 16 * 16 + s2 / 4 :: s2 mod 4 * 64 + s3 :: bytes)
  | _ => None
  end.

Definition atob (s : string) : option (list Z) := decode (Str.chars s).

End Base64.

(** An image as a caller passes it: bytes (a [Uint8Array] or a [Buffer]) or
    a string. *)
Inductive Image :=
| ImageBytes (bytes : list Z)
| ImageString (s : string).

(** ** browser.ts: the client *)

(** The configuration a client keeps: [host] and [apiKey] (which may be left
    undefined). *)
Record Config := {
  host : string;
  apiKey : option string;
}.

(** [`Bearer ${this.config.apiKey}`] *)
Definition bearer (config : Config) : string :=
  "Bearer " +:+ default "undefined" (apiKey config).

(** [{ 'Authorization': `Bearer ${this.config.apiKey}` }] *)
Definition authorization (config : Config) : gmap string HeaderValue :=
  {["Authorization" := HStr (bearer config)]}.

(** [{ headers: { 'Authorization': `Bearer ${this.config.apiKey}` } }], the
    object [createBlob] passes as third argument of [head]. *)
Definition nested_authorization (config : Config) : gmap string HeaderValue :=
  {["headers" := HObj {["Authorization" := bearer config]}]}.

(** An [AbortableAsyncIterator] object on the heap: whether its
    [abortController] has been triggered, and its [itr], the [parseJSON]
    generator over the response body. *)
Record Iterator := {
  aborted : bool;
  itr : Decoder;
}.

(** The client: its configuration, the array [ongoingStreamedRequests] of
    references to iterator objects, and the objects themselves, which the
    callers of the streaming operations hold as well. *)
Record Ollama := {
  config : Config;
  ongoingStreamedRequests : list nat;
  heap : gmap nat Iterator;
}.

(** [{ status: 'success' }] *)
Record StatusResponse := { status_field : string }.

Module Browser.
Section Client.
Context {V : Type} `{Json V} `{Host}.

(** The transport's side of cancellation, which is the platform's and not
    the library's: once the signal that went into the request is aborted, a
    body that is still open is put into the errored state, so that its reader
    rejects with an [AbortError] and delivers nothing more; a body that has
    ended, or failed, before is left as it is. *)
Definition cut (d : Decoder) : Decoder :=
  match d with
  | Reading parts buffer (Enqueued _ _) => Reading parts buffer (Errored AbortError)
  | _ => d
  end.

(** [AbortableAsyncIterator.abort()] *)
Definition Iterator_abort (it : Iterator) : Iterator :=
  {| aborted := true; itr := cut (itr it) |}.

(** [Ollama.abort()] *)
Definition abort (c : Ollama) : Ollama :=
  {| config := config c;
     ongoingStreamedRequests := [];
     heap := foldl (fun h request => alter Iterator_abort request h)
                   (heap c) (ongoingStreamedRequests c) |}.

(** [array.indexOf(x)], [None] standing for -1. *)
Fixpoint indexOf (x : nat) (l : list nat) : option nat :=
  match l with
  | [] => None
  | y :: rest => if decide (y = x) then Some 0%nat else S <$> indexOf x rest
  end.

(** The [doneCallback] of the iterator [self], as [processStreamableRequest]
    builds it. *)
Definition doneCallback (self : nat) (c : Ollama) : Ollama :=
  match indexOf self (ongoingStreamedRequests c) with
  | Some i =>
    {| config := config c;
       ongoingStreamedRequests := delete i (ongoingStreamedRequests c);
       heap := heap c |}
  | None => c
  end.

(** The registry holds each iterator once, and only iterators that exist. *)
Definition registry_ok (c : Ollama) : Prop :=
  NoDup (ongoingStreamedRequests c)
  /\ forall request, request ∈ ongoingStreamedRequests c -> is_Some (heap c !! request).

(** What [processStreamableRequest] hands back: a reference to a new
    iterator, or the parsed body of the response. *)
Inductive Streamable :=
| Streamed (iterator : nat)
| Buffered (v : V).

(** A boolean among the values of a record, which are given as strings. *)
Definition of_bool (b : bool) : string := if b then "true" else "false".

(** [request[key] = value] on an object given by its properties in order,
    the value of a property possibly [undefined]: a property that is there
    keeps its place, a new one comes last. *)
Definition assign (key value : string) (request : list (string * option string))
    : list (string * option string) :=
  if bool_decide (key ∈ request.*1) then
    (fun property => if String.eqb property.1 key then (key, Some value) else property)
      <$> request
  else request ++ [(key, Some value)].

(** The properties [JSON.stringify] writes, in order: those whose value is
    not [undefined]. *)
Definition defined (request : list (string * option string)) : list (string * string) :=
  omap (fun property => (fun value => (property.1, value)) <$> property.2) request.

(** [processStreamableRequest(endpoint, request)], [stream] being
    [request.stream] as the caller left it. *)
Definition processStreamableRequest (fetch : Fetch V) (c : Ollama)
    (endpoint : string) (stream : option bool) (request : list (string * option string))
    : IO (Ollama * Streamable) :=
  let stream := default false stream in
  (* [request.stream = request.stream ?? false] *)
  let request := defined (assign "stream" (of_bool stream) request) in
  let host := host (config c) +:+ "/api/" +:+ endpoint in
  let headers := authorization (config c) in
  if stream then
    let abortController := fresh (dom (heap c)) in
    response ← Utils.post fetch host (DRecord request) (Some abortController) (Some headers);
    match stream_body response with
    | None => lift (Throw (Error "Missing body"))
    | Some body =>
      let abortableAsyncIterator := abortController in
      mret ({| config := config c;
               ongoingStreamedRequests := ongoingStreamedRequests c ++ [abortableAsyncIterator];
               heap := <[abortableAsyncIterator :=
                           {| aborted := false; itr := Reading [] [] body |}]> (heap c) |},
            Streamed abortableAsyncIterator)
    end
  else
    response ← Utils.post fetch host (DRecord request) None (Some headers);
    v ← lift (json response);
    mret (c, Buffered v).

(** The one request [processStreamableRequest] sends. *)
Definition streamable_request (c : Ollama) (stream : option bool)
    (request : list (string * option string)) : RequestInit :=
  Utils.with_headers (Some "POST")
    (BText (JSON_stringify (defined (assign "stream" (of_bool (default false stream)) request))))
    (if default false stream then Some (fresh (dom (heap c))) else None)
    (Some (authorization (config c))).

(** A consumer's [for await] over the iterator [self], run to its end: the
    run, and the client after it. *)
Definition consume (self : nat) (c : Ollama) : option (Run V * Ollama) :=
  it ← heap c !! self;
  let r := iterate (Decoder_trace (itr it)) in
  let c' := Nat.iter (callbacks r) (doneCallback self) c in
  Some (r, {| config := config c';
              ongoingStreamedRequests := ongoingStreamedRequests c';
              heap := <[self := {| aborted := aborted it; itr := Finished |}]> (heap c') |}).

(** [Ollama.delete(request)] *)
Definition delete (fetch : Fetch V) (c : Ollama) (model : string) : IO StatusResponse :=
  _ ← Utils.del fetch (host (config c) +:+ "/api/delete") [("name", model)]
        (Some (authorization (config c)));
  mret {| status_field := "success" |}.

(** [Ollama.copy(request)] *)
Definition copy (fetch : Fetch V) (c : Ollama) (request : list (string * string))
    : IO StatusResponse :=
  _ ← Utils.post fetch (host (config c) +:+ "/api/copy") (DRecord request) None
        (Some (authorization (config c)));
  mret {| status_field := "success" |}.

(** The one request [delete] sends, and the one [copy] sends. *)
Definition delete_request (c : Ollama) (model : string) : RequestInit :=
  Utils.with_headers (Some "DELETE") (BText (JSON_stringify [("name", model)])) None
    (Some (authorization (config c))).

Definition copy_request (c : Ollama) (request : list (string * string)) : RequestInit :=
  Utils.with_headers (Some "POST") (BText (JSON_stringify request)) None
    (Some (authorization (config c))).

(** [Ollama.list()] *)
Definition list_models (fetch : Fetch V) (c : Ollama) : IO V :=
  response ← Utils.get fetch (host (config c) +:+ "/api/tags") (Some (authorization (config c)));
  lift (json response).

(** [Ollama.show(request)] *)
Definition show (fetch : Fetch V) (c : Ollama) (request : list (string * string)) : IO V :=
  response ← Utils.post fetch (host (config c) +:+ "/api/show") (DRecord request) None
               (Some (authorization (config c)));
  lift (json response).

End Client.

Section Facade.
Context {V : Type} `{Json V} `{Host}.

(** [iterator.abort()] on the iterator [self] a caller holds: the object is
    the one the registry refers to. *)
Definition abort_iterator (self : nat) (c : Ollama) : Ollama :=
  {| config := config c;
     ongoingStreamedRequests := ongoingStreamedRequests c;
     heap := alter Iterator_abort self (heap c) |}.

(** [Ollama.encodeImage(image)] *)
Definition encodeImage (image : Image) : string :=
  match image with
  | ImageBytes uint8Array => Base64.btoa uint8Array
  | ImageString s => s
  end.

(** [Ollama.create(request)] *)
Definition create (fetch : Fetch V) (c : Ollama) (model : string) (stream : option bool)
    (modelfile quantize : option string) : IO (Ollama * Streamable) :=
  processStreamableRequest fetch c "create" stream
    [("name", Some model); ("stream", of_bool <$> stream);
     ("modelfile", modelfile); ("quantize", quantize)].

(** [Ollama.pull(request)] *)
Definition pull (fetch : Fetch V) (c : Ollama) (model : string) (stream : option bool)
    (insecure : option bool) : IO (Ollama * Streamable) :=
  processStreamableRequest fetch c "pull" stream
    [("name", Some model); ("stream", of_bool <$> stream);
     ("insecure", of_bool <$> insecure)].

(** [Ollama.push(request)] *)
Definition push (fetch : Fetch V) (c : Ollama) (model : string) (stream : option bool)
    (insecure : option bool) : IO (Ollama * Streamable) :=
  processStreamableRequest fetch c "push" stream
    [("name", Some model); ("stream", of_bool <$> stream);
     ("insecure", of_bool <$> insecure)].

(** [Ollama.embed(request)] *)
Definition embed (fetch : Fetch V) (c : Ollama) (request : list (string * string)) : IO V :=
  response ← Utils.post fetch (host (config c) +:+ "/api/embed") (DRecord request) None
               (Some (authorization (config c)));
  lift (json response).

(** [Ollama.embeddings(request)] *)
Definition embeddings (fetch : Fetch V) (c : Ollama) (request : list (string * string))
    : IO V :=
  response ← Utils.post fetch (host (config c) +:+ "/api/embeddings") (DRecord request) None
               (Some (authorization (config c)));
  lift (json response).

(** [Ollama.ps()] *)
Definition ps (fetch : Fetch V) (c : Ollama) : IO V :=
  response ← Utils.get fetch (host (config c) +:+ "/api/ps") (Some (authorization (config c)));
  lift (json response).

End Facade.

(** The [config] argument of the constructor, every field of which may be
    left out; [given_proxy] is whether [config.proxy] is truthy. *)
Record PartialConfig (V : Type) := {
  given_host : option string;
  given_proxy : bool;
  given_apiKey : option string;
  given_fetch : option (Fetch V);
}.
Arguments given_host {V} _.
Arguments given_proxy {V} _.
Arguments given_apiKey {V} _.
Arguments given_fetch {V} _.

(** Where [getFetch] looks for a transport: [window.fetch], [global.fetch]
    (either may be missing) and [require('node-fetch')], which may throw. *)
Class Globals (V : Type) := {
  window_fetch : option (Fetch V);
  global_fetch : option (Fetch V);
  require_node_fetch : Completion (Fetch V);
}.

Section Construction.
Context {V : Type} `{Host} `{Globals V}.

(** [Ollama.getFetch()] *)
Definition getFetch : Completion (Fetch V) :=
  match window_fetch with
  | Some fetch => Normal fetch
  | None =>
    match global_fetch with
    | Some fetch => Normal fetch
    | None =>
      match require_node_fetch with
      | Normal fetch => Normal fetch
      | Throw _ =>
        Throw (Error "Fetch is not available. Please provide a fetch implementation in the config.")
      end
    end
  end.

(** [new Ollama(config)]: the client and its [fetch]. *)
Definition new (config : option (PartialConfig V)) : Completion (Ollama * Fetch V) :=
  let spread := default "" (config ≫= given_host) in
  host ← (if negb (from_option given_proxy false config)
          then Utils.formatHost (default "http://127.0.0.1:11434" (config ≫= given_host))
          else Normal spread);
  fetch ← match config ≫= given_fetch with
          | Some fetch => Normal fetch
          | None => getFetch
          end;
  Normal ({| config := {| host := host; apiKey := config ≫= given_apiKey |};
             ongoingStreamedRequests := [];
             heap := ∅ |}, fetch).

End Construction.
End Browser.

(** ** index.ts: the blob upload and the Modelfile rewriter *)

(** A file stream made by [createReadStream]: still holding the chunks it
    will emit, or past its ['end'] event. *)
Inductive FileStream :=
| Fresh (chunks : list chunk)
| Ended.

(** Putting ['data'] and ['end'] listeners on a file stream: the chunks they
    receive, whether they see ['end'], and the stream afterwards.  A stream
    emits each event once, to the listeners it has at that moment. *)
Definition listen (fileStream : FileStream) : list chunk * bool * FileStream :=
  match fileStream with
  | Fresh chunks => (chunks, true, Ended)
  | Ended => ([], false, Ended)
  end.

(** [new ReadableStream({ start(controller) { fileStream.on(...) } })]: the
    stream is fed by the listeners its [start] puts on [fileStream]. *)
Definition wrap (fileStream : FileStream) : SourceStream :=
  let '(data, ended, _) := listen fileStream in
  {| enqueued := data; closed := ended |}.

Module Index.
Section Node.
Context {V : Type} `{Host}.

(** [resolvePath(inputPath, mfDir)] *)
Definition resolvePath (inputPath mfDir : string) : string :=
  if Str.startsWith "~" inputPath then path_join homedir (Str.slice1 inputPath)
  else path_resolve mfDir inputPath.

(** [fileExists(path)] *)
Definition fileExists (path : string) : bool := fs_access path.

Definition blob_url (c : Ollama) (digest : string) : string :=
  host (config c) +:+ "/api/blobs/" +:+ digest.

(** The [catch] clause of [createBlob] around the probe. *)
Definition on_probe_failure (fetch : Fetch V) (c : Ollama) (digest : string)
    (fileStream : FileStream) (e : Thrown) : IO unit :=
  if instanceof_Error e && Str.includes "404" (message_of e) then
    let readableStream := wrap fileStream in
    _ ← Utils.post fetch (blob_url c digest) (DStream readableStream) None
          (Some (<["Content-Type" := HStr "application/octet-stream"]>
                   (authorization (config c))));
    mret tt
  else lift (Throw e).

(** [createBlob(path)] *)
Definition createBlob (fetch : Fetch V) (c : Ollama) (path : string) : IO string :=
  if negb has_ReadableStream then
    lift (Throw (Error "Streaming uploads are not supported in this environment."))
  else
    match fs_read path with
    | Throw e => lift (Throw e)
    | Normal chunks =>
      let fileStream := Fresh chunks in
      (* the promise around the hash: its listeners see every event *)
      let '(data, _, fileStream) := listen fileStream in
      let sha256sum := sha256_hex (concat data) in
      let digest := "sha256:" +:+ sha256sum in
      match Utils.head fetch (blob_url c digest) (Some (nested_authorization (config c))) with
      | (calls, Normal _) => (calls, Normal digest)
      | (calls, Throw e) =>
        let '(calls', r) := on_probe_failure fetch c digest fileStream e in
        (calls ++ calls', match r with Normal _ => Normal digest | Throw e' => Throw e' end)
      end
    end.

(** The requests [createBlob] builds, by name: the digest of a file's
    chunks, the probe, and the upload as [post] hands it to [fetch]. *)
Definition blob_digest (chunks : list chunk) : string :=
  "sha256:" +:+ sha256_hex (concat chunks).

Definition probe_request (c : Ollama) : RequestInit :=
  Utils.with_headers (Some "HEAD") BUndefined None (Some (nested_authorization (config c))).

Definition upload_request (c : Ollama) : RequestInit :=
  Utils.with_headers (Some "POST") (BText "{}") None
    (Some (<["Content-Type" := HStr "application/octet-stream"]> (authorization (config c)))).

(** [['FROM', 'ADAPTER'].includes(command.toUpperCase())] *)
Definition is_directive (command : string) : bool :=
  let u := Str.toUpperCase command in
  String.eqb u "FROM" || String.eqb u "ADAPTER".

Definition space : ascii := ascii_of_nat 32.
Definition newline : ascii := ascii_of_nat 10.

(** One turn of the loop of [parseModelfile]: what is pushed onto [out]. *)
Definition rewrite_line (fetch : Fetch V) (c : Ollama) (mfDir line : string) : IO string :=
  let parts := Str.split_limit space 2 line in
  let command := List.nth 0 parts "" in
  let args := parts !! 1%nat in
  if is_directive command then
    match args with
    | None => lift (Throw (TypeError "Cannot read properties of undefined (reading 'trim')"))
    | Some args =>
      let path := resolvePath (Str.trim args) mfDir in
      if fileExists path then
        digest ← createBlob fetch c path;
        mret (command +:+ " @" +:+ digest)
      else mret (command +:+ " " +:+ args)
    end
  else mret line.

Fixpoint rewrite_lines (fetch : Fetch V) (c : Ollama) (mfDir : string)
    (lines : list string) : IO (list string) :=
  match lines with
  | [] => mret []
  | line :: rest =>
    o ← rewrite_line fetch c mfDir line;
    out ← rewrite_lines fetch c mfDir rest;
    mret (o :: out)
  end.

(** [parseModelfile(modelfile, mfDir)] *)
Definition parseModelfile (fetch : Fetch V) (c : Ollama) (modelfile mfDir : string)
    : IO string :=
  out ← rewrite_lines fetch c mfDir (Str.split newline modelfile);
  mret (Str.join (String newline EmptyString) out).

End Node.

(** The requests of [index.ts] to the file system and the process that
    [createBlob] does without: [fs.existsSync], [fs.promises.readFile] with
    and without an encoding, [path.resolve] of one path, [path.dirname] and
    [process.cwd()]. *)
Class NodeFs := {
  fs_existsSync : string -> bool;
  fs_readFile : string -> Completion (list Z);
  fs_readFile_utf8 : string -> Completion string;
  resolve : string -> string;
  dirname : string -> string;
  process_cwd : string;
}.

Section NodeClient.
Context {V : Type} `{Json V} `{Host} `{NodeFs}.

(** [Ollama.encodeImage(image)] of [index.ts]; what the [try] block throws
    is dropped. *)
Definition encodeImage (image : Image) : Completion string :=
  match image with
  | ImageBytes bytes => Normal (Base64.btoa bytes)
  | ImageString image =>
    if fs_existsSync image then
      match fs_readFile (resolve image) with
      | Normal fileBuffer => Normal (Base64.btoa fileBuffer)
      | Throw _ => Normal image
      end
    else Normal image
  end.

(** The fields of a [CreateRequest]. *)
Record CreateRequest := {
  model : string;
  path : option string;
  modelfile : option string;
  quantize : option string;
  stream : option bool;
}.

(** Whether a string that may be [undefined] is truthy. *)
Definition given (s : option string) : option string :=
  match s with
  | Some EmptyString => None
  | _ => s
  end.

(** [Ollama.create(request)] of [index.ts] *)
Definition create (fetch : Fetch V) (c : Ollama) (request : CreateRequest)
    : IO (Ollama * Browser.Streamable) :=
  modelfileContent ←
    match given (path request) with
    | Some path =>
      modelfileContent ← lift (fs_readFile_utf8 path);
      parseModelfile fetch c modelfileContent (dirname path)
    | None =>
      match given (modelfile request) with
      | Some modelfile => parseModelfile fetch c modelfile process_cwd
      | None => lift (Throw (Error "Must provide either path or modelfile to create a model"))
      end
    end;
  Browser.create fetch c (model request) (stream request) (Some modelfileContent)
    (quantize request).

End NodeClient.
End Index.

(** ** A concrete platform for the examples *)

(** SHA-256, for the digests of the examples. *)
Module Sha256.

Definition w32 (x : Z) : Z := x mod 2 ^ 32.
Definition rotr (n x : Z) : Z := w32 (Z.lor (Z.shiftr x n) (Z.shiftl x (32 - n))).
Definition xor3 (a b c : Z) : Z := Z.lxor a (Z.lxor b c).
Definition Ch (x y z : Z) : Z := Z.lxor (Z.land x y) (Z.land (Z.lxor x 0xFFFFFFFF) z).
Definition Maj (x y z : Z) : Z := xor3 (Z.land x y) (Z.land x z) (Z.land y z).
Definition Sigma0 (x : Z) : Z := xor3 (rotr 2 x) (rotr 13 x) (rotr 22 x).
Definition Sigma1 (x : Z) : Z := xor3 (rotr 6 x) (rotr 11 x) (rotr 25 x).
Definition sigma0 (x : Z) : Z := xor3 (rotr 7 x) (rotr 18 x) (Z.shiftr x 3).
Definition sigma1 (x : Z) : Z := xor3 (rotr 17 x) (rotr 19 x) (Z.shiftr x 10).

Definition primes : list Z :=
  [2; 3; 5; 7; 11; 13; 17; 19; 23; 29; 31; 37; 41; 43; 47; 53; 59; 61; 67; 71; 73; 79;
   83; 89; 97; 101; 103; 107; 109; 113; 127; 131; 137; 139; 149; 151; 157; 163; 167;
   173; 179; 181; 191; 193; 197; 199; 211; 223; 227; 229; 233; 239; 241; 251; 257; 263;
   269; 271; 277; 281; 283; 293; 307; 311].

(** The integer cube root, bit by bit. *)
Definition cbrt (n : Z) : Z :=
  foldl (fun r b => let r' := r + 2 ^ b in if r' * r' * r' <=? n then r' else r)
        0 (Z.of_nat <$> rev (seq 0 40)).

(** The fractional bits of the cube roots of the primes. *)
Definition K : list Z := (fun p => w32 (cbrt (p * 2 ^ 96))) <$> primes.
(** The fractional bits of the square roots of the first eight primes. *)
Definition H0 : list Z := (fun p => w32 (Z.sqrt (p * 2 ^ 64))) <$> take 8 primes.

Definition be (n : nat) (x : Z) : list Z :=
  (fun i => Z.land (Z.shiftr x (8 * Z.of_nat i)) 0xFF) <$> rev (seq 0 n).

Definition pad (msg : list Z) : list Z :=
  let l := Z.of_nat (length msg) in
  msg ++ [0x80] ++ replicate (Z.to_nat ((55 - l) mod 64)) 0 ++ be 8 (8 * l).

Definition word (bs : list Z) : Z := foldl (fun acc b => acc * 256 + b) 0 bs.

Fixpoint words (n : nat) (bs : list Z) : list Z :=
  match n with
  | O => []
  | S n => word (take 4 bs) :: words n (drop 4 bs)
  end.

(** The message schedule, newest word first. *)
Definition extend (w : list Z) : list Z :=
  w32 (sigma1 (w !!! 1%nat) + w !!! 6%nat + sigma0 (w !!! 14%nat) + w !!! 15%nat) :: w.

Definition schedule (block : list Z) : list Z :=
  rev (Nat.iter 48 extend (rev (words 16 block))).

Definition round (s : list Z) (kw : Z * Z) : list Z :=
  match s with
  | [a; b; c; d; e; f; g; h] =>
    let t1 := h + Sigma1 e + Ch e f g + fst kw + snd kw in
    let t2 := Sigma0 a + Maj a b c in
    [w32 (t1 + t2); a; b; c; w32 (d + t1); e; f; g]
  | _ => s
  end.

Definition compress (h : list Z) (block : list Z) : list Z :=
  zip_with (fun x y => w32 (x + y)) h (foldl round h (zip K (schedule block))).

Fixpoint blocks (n : nat) (bs : list Z) : list (list Z) :=
  match n with
  | O => []
  | S n => take 64 bs :: blocks n (drop 64 bs)
  end.

Definition digest (msg : list Z) : list Z :=
  let p := pad msg in
  foldl compress H0 (blocks (length p / 64) p) ≫= be 4.

Definition hex_digit (n : Z) : ascii :=
  ascii_of_nat (Z.to_nat (if n <? 10 then 48 + n else 87 + n)).

Definition hex (msg : list Z) : string :=
  string_of_list_ascii (digest msg ≫= fun b => [hex_digit (b / 16); hex_digit (b mod 16)]).

End Sha256.

Module Sample.

(** The one-byte characters of [s] as code points. *)
Definition codes (s : string) : text :=
  (fun c => Z.of_nat (nat_of_ascii c)) <$> Str.chars s.

(** JSON text written with single quotes in place of double ones. *)
Definition js (s : string) : text :=
  (fun c => if c =? 39 then 34 else c) <$> codes s.

(** The UTF-8 bytes of one code point. *)
Definition encode1 (c : Z) : list Z :=
  if c <? 0x80 then [c]
  else if c <? 0x800 then [Z.lor 0xC0 (Z.shiftr c 6); Z.lor 0x80 (Z.land c 0x3F)]
  else if c <? 0x10000 then
    [Z.lor 0xE0 (Z.shiftr c 12); Z.lor 0x80 (Z.land (Z.shiftr c 6) 0x3F);
     Z.lor 0x80 (Z.land c 0x3F)]
  else
    [Z.lor 0xF0 (Z.shiftr c 18); Z.lor 0x80 (Z.land (Z.shiftr c 12) 0x3F);
     Z.lor 0x80 (Z.land (Z.shiftr c 6) 0x3F); Z.lor 0x80 (Z.land c 0x3F)].

(** A text as a [string] of UTF-8 bytes. *)
Definition to_string (t : text) : string :=
  Str.of_chars ((fun b => ascii_of_nat (Z.to_nat b)) <$> (t ≫= encode1)).

(** The fragment of JSON the examples are written in: a string without
    escapes, [true], [false], [null], or an object whose members are such
    values, with no white space.  On this fragment [parse] is [JSON.parse]. *)
Inductive Scalar :=
| SNull
| SBool (b : bool)
| SString (s : text).

#[global] Instance Scalar_eq_dec : EqDecision Scalar.
Proof. solve_decision. Defined.

Inductive JsonValue :=
| JScalar (s : Scalar)
| JObject (members : list (text * Scalar)).

(** The characters up to the closing quote, and what follows it. *)
Fixpoint string_body (t : text) : option (text * text) :=
  match t with
  | [] => None
  | c :: r =>
    if c =? 34 then Some ([], r)
    else if (c =? 92) || (c <? 32) then None
    else '(s, rest) ← string_body r; Some (c :: s, rest)
  end.

Definition scalar (t : text) : option (Scalar * text) :=
  match t with
  | 34 :: r => '(s, rest) ← string_body r; Some (SString s, rest)
  | 116 :: 114 :: 117 :: 101 :: r => Some (SBool true, r)
  | 102 :: 97 :: 108 :: 115 :: 101 :: r => Some (SBool false, r)
  | 110 :: 117 :: 108 :: 108 :: r => Some (SNull, r)
  | _ => None
  end.

Fixpoint members (fuel : nat) (t : text) : option (list (text * Scalar)) :=
  match fuel with
  | O => None
  | S fuel =>
    match t with
    | 34 :: r =>
      '(k, r1) ← string_body r;
      match r1 with
      | 58 :: r2 =>
        '(v, r3) ← scalar r2;
        match r3 with
        | [125] => Some [(k, v)]
        | 44 :: r4 => ms ← members fuel r4; Some ((k, v) :: ms)
        | _ => None
        end
      | _ => None
      end
    | _ => None
    end
  end.

Definition parse (t : text) : option JsonValue :=
  match t with
  | [123; 125] => Some (JObject [])
  | 123 :: r => JObject <$> members (length t) r
  | _ => match scalar t with
         | Some (s, []) => Some (JScalar s)
         | _ => None
         end
  end.

(** [object[key]], the last member of that name standing. *)
Fixpoint member (key : text) (ms : list (text * Scalar)) : option Scalar :=
  match ms with
  | [] => None
  | (k, v) :: rest =>
    match member key rest with
    | Some v' => Some v'
    | None => if decide (k = key) then Some v else None
    end
  end.

Definition field (key : string) (v : JsonValue) : option Scalar :=
  match v with
  | JObject ms => member (codes key) ms
  | JScalar _ => None
  end.

Definition truthy (v : option Scalar) : bool :=
  match v with
  | Some (SBool b) => b
  | Some (SString s) => non_empty s
  | _ => false
  end.

(** [String(v)] *)
Definition render (v : option Scalar) : string :=
  match v with
  | Some (SString s) => to_string s
  | Some (SBool true) => "true"
  | Some (SBool false) => "false"
  | Some SNull => "null"
  | None => ""
  end.

#[global] Instance json_fragment : Json JsonValue := {|
  JSON_parse := parse;
  error_in v :=
    match v with
    | JObject _ => Some (bool_decide (is_Some (field "error" v)))
    | JScalar _ => None
    end;
  in_operator_error _ := TypeError "Cannot use 'in' operator to search for 'error'";
  error_message v := render (field "error" v);
  done_or_success v :=
    truthy (field "done" v)
    || bool_decide (field "status" v = Some (SString (codes "success")));
|}.

(** The [URL] constructor on strings of the shape
    [scheme://host[:port][/path]] with scheme [http] or [https], a host of
    letters, digits, dots and hyphens (a dotted quad when numeric) and a path
    of unreserved characters without dot segments.  Inside this shape the
    fields are those the platform computes: scheme and host in lower case,
    the scheme's default port left out, an empty path read as [/].  Outside
    it the model throws, whatever the platform does. *)
Definition lower (c : ascii) : ascii :=
  let n := nat_of_ascii c in
  if ((65 <=? n) && (n <=? 90))%nat then ascii_of_nat (n + 32) else c.

Definition is_digit (c : ascii) : bool :=
  let n := nat_of_ascii c in ((48 <=? n) && (n <=? 57))%nat.

Definition is_lower_alpha (c : ascii) : bool :=
  let n := nat_of_ascii c in ((97 <=? n) && (n <=? 122))%nat.

Definition dot : ascii := ascii_of_nat 46.
Definition hyphen : ascii := ascii_of_nat 45.
Definition slash : ascii := ascii_of_nat 47.
Definition colon : ascii := ascii_of_nat 58.

Definition number (ds : list ascii) : Z :=
  foldl (fun n d => 10 * n + (Z.of_nat (nat_of_ascii d) - 48)) 0 ds.

Definition canonical_number (ds : list ascii) : bool :=
  forallb is_digit ds &&
  match ds with
  | [] => false
  | [_] => true
  | d :: _ => negb (nat_of_ascii d =? 48)%nat
  end.

Definition label_ok (l : list ascii) : bool :=
  match l with [] => false | _ => true end
  && forallb (fun c => is_lower_alpha c || is_digit c || Ascii.eqb c hyphen) l.

Definition host_ok (h : list ascii) : bool :=
  let labels := Str.split_chars dot h in
  forallb label_ok labels &&
  match List.last labels [] with
  | d :: _ =>
    if is_digit d then
      (length labels =? 4)%nat
      && forallb (fun l => canonical_number l && (number l <=? 255)) labels
    else true
  | [] => false
  end.

Definition path_ok (p : list ascii) : bool :=
  forallb (fun c => is_lower_alpha (lower c) || is_digit c
                    || Ascii.eqb c slash || Ascii.eqb c dot || Ascii.eqb c hyphen
                    || (nat_of_ascii c =? 95)%nat || (nat_of_ascii c =? 126)%nat) p
  && forallb (fun seg => negb (bool_decide (seg = [dot]) || bool_decide (seg = [dot; dot])))
             (Str.split_chars slash p).

Fixpoint until_slash (cs : list ascii) : list ascii * list ascii :=
  match cs with
  | [] => ([], [])
  | c :: r =>
    if Ascii.eqb c slash then ([], cs)
    else let '(a, b) := until_slash r in (c :: a, b)
  end.

Definition invalid_URL : Completion URL := Throw (TypeError "Invalid URL").

Definition basic_URL (s : string) : Completion URL :=
  let cs := Str.chars s in
  match Str.split_chars colon cs with
  | scheme :: _ :: _ =>
    let rest := drop (S (length scheme)) cs in
    let scheme := Str.of_chars (lower <$> scheme) in
    if String.eqb scheme "http" || String.eqb scheme "https" then
      match rest with
      | s1 :: s2 :: rest =>
        if Ascii.eqb s1 slash && Ascii.eqb s2 slash then
          let '(authority, path) := until_slash rest in
          match Str.split_chars colon authority with
          | [h] | [h; []] =>
            let h := lower <$> h in
            if host_ok h && path_ok path then
              Normal {| protocol := scheme +:+ ":"; hostname := Str.of_chars h; port := "";
                        pathname := match path with [] => "/" | _ => Str.of_chars path end |}
            else invalid_URL
          | [h; p] =>
            let h := lower <$> h in
            if host_ok h && path_ok path && forallb is_digit p && (number p <=? 65535) then
              let default := if String.eqb scheme "http" then 80 else 443 in
              Normal {| protocol := scheme +:+ ":"; hostname := Str.of_chars h;
                        port := if number p =? default then "" else Str.of_Z (number p);
                        pathname := match path with [] => "/" | _ => Str.of_chars path end |}
            else invalid_URL
          | _ => invalid_URL
          end
        else invalid_URL
      | _ => invalid_URL
      end
    else invalid_URL
  | _ => invalid_URL
  end.

Definition quoted (s : string) : string :=
  String (ascii_of_nat 34) s +:+ String (ascii_of_nat 34) EmptyString.

(** A file system with one file, and a platform around it. *)
Definition model_bin : list chunk := [[1; 2; 3]; [4; 5]].

#[global] Instance platform : Host := {|
  URL_new := basic_URL;
  user_agent := "ollama-js/0.0.1 (x64 linux Node.js/v20.11.0)";
  JSON_stringify fields :=
    "{" +:+ Str.join "," ((fun kv => quoted (fst kv) +:+ ":" +:+ quoted (snd kv)) <$> fields)
    +:+ "}";
  homedir := "/home/user";
  path_join a b := if Str.startsWith "/" b then a +:+ b else a +:+ "/" +:+ b;
  path_resolve base p :=
    if Str.startsWith "/" p then p
    else if String.eqb p "" then base
    else if Str.startsWith "./" p then base +:+ Str.slice1 p
    else base +:+ "/" +:+ p;
  sha256_hex := Sha256.hex;
  has_ReadableStream := true;
  fs_access p := String.eqb p "/models/model.bin" || String.eqb p "/models";
  fs_read p :=
    if String.eqb p "/models/model.bin" then Normal model_bin
    else if String.eqb p "/models" then
      Throw (Error "EISDIR: illegal operation on a directory, read")
    else Throw (Error "ENOENT: no such file or directory");
|}.

(** A server that has no blob yet and a transport to it: the probe of a blob
    is answered by 404, an upload by 201, a pull by a stream of progress
    messages, everything else by 200 with a body the client does not read. *)
Definition reply (status : Z) (statusText : string) (stream : option ReadableStream)
    : Response JsonValue :=
  {| status := status; statusText := statusText; content_type := None;
     json_error := Throw (JsErr "SyntaxError" "Unexpected end of JSON input" None);
     text_body := Normal "";
     json := Normal (JObject [(codes "models", SNull)]);
     stream_body := stream |}.

Definition pull_stream : ReadableStream :=
  stream_of [js "{'status':'pulling manifest'}" ++ [10] ++ js "{'status':'suc";
             js "cess'}" ++ [10]].

Definition fetch : Fetch JsonValue :=
  fun url options =>
    if Str.includes "/api/blobs/" url then
      if bool_decide (method options = Some "HEAD") then Normal (reply 404 "Not Found" None)
      else Normal (reply 201 "Created" None)
    else if Str.includes "/api/pull" url then Normal (reply 200 "OK" (Some pull_stream))
    else Normal (reply 200 "OK" None).

(** A transport to a server that is down, with the messages of [node-fetch]. *)
Definition offline : Fetch JsonValue :=
  fun url _ =>
    Throw (JsErr "FetchError"
                 ("request to " +:+ url +:+ " failed, reason: connect ECONNREFUSED 127.0.0.1:4040")
                 None).

Definition client (address : string) : Ollama :=
  {| config := {| host := address; apiKey := Some "secret" |};
     ongoingStreamedRequests := [];
     heap := ∅ |}.

(** A client in the middle of two pulls: the first has read one chunk and
    handed out its first message, the second has not been iterated yet. *)
Definition busy : Ollama :=
  {| config := {| host := "http://127.0.0.1:11434"; apiKey := Some "secret" |};
     ongoingStreamedRequests := [0%nat; 1%nat];
     heap := {[ 0%nat := {| aborted := false;
                            itr := Reading [js "{'status':'verifying'}"] (js "{'status':'suc")
                                           (stream_of [js "cess'}" ++ [10]]) |};
                1%nat := {| aborted := false; itr := Reading [] [] pull_stream |} ]} |}.


(** A server that knows no model: every request is answered by 404 with a
    JSON body that names the error. *)
Definition not_found : Response JsonValue :=
  {| status := 404; statusText := "Not Found";
     content_type := Some "application/json; charset=utf-8";
     json_error := Normal (Some "model 'llama2' not found");
     text_body := Normal "{'error':'model \'llama2\' not found'}";
     json := Normal (JObject [(codes "error", SString (codes "model 'llama2' not found"))]);
     stream_body := None |}.

Definition unknown_model : Fetch JsonValue := fun _ _ => Normal not_found.


(** A server that holds every blob: a probe is answered by 200. *)
Definition stocked : Fetch JsonValue := fun _ _ => Normal (reply 200 "OK" None).

(** A server whose probe fails with 500. *)
Definition broken : Fetch JsonValue :=
  fun _ _ => Normal (reply 500 "Internal Server Error" None).

(** Two Modelfiles: one in order, one whose second line is a directive
    without argument. *)
Definition nl : string := String (ascii_of_nat 10) EmptyString.

Definition modelfile : string :=
  "# base" +:+ nl +:+ "FROM ./model.bin" +:+ nl +:+ "PARAMETER temperature 1".

Definition plain_modelfile : string :=
  "# a model" +:+ nl +:+ nl +:+ "PARAMETER temperature 1" +:+ nl +:+ "SYSTEM from now on".

Definition faulty_modelfile : string :=
  "FROM ./model.bin" +:+ nl +:+ "ADAPTER" +:+ nl +:+ "FROM ./model.bin".

(** The rest of the file system: one Modelfile beside the model. *)
#[global] Instance files : Index.NodeFs := {|
  Index.fs_existsSync p := fs_access p;
  Index.fs_readFile p :=
    if String.eqb p "/models/model.bin" then Normal (concat model_bin)
    else Throw (Error "ENOENT: no such file or directory");
  Index.fs_readFile_utf8 p :=
    if String.eqb p "/models/Modelfile" then Normal "FROM ./model.bin"
    else Throw (Error "ENOENT: no such file or directory");
  Index.resolve p := path_resolve "/models" p;
  Index.dirname p :=
    Str.of_chars (concat (removelast ((fun seg => slash :: seg)
                                        <$> drop 1 (Str.split_chars slash (Str.chars p)))));
  Index.process_cwd := "/models";
|}.

(** A Node.js process without [window], with a [fetch] of its own. *)
#[global] Instance node : Browser.Globals JsonValue := {|
  Browser.window_fetch := None;
  Browser.global_fetch := Some fetch;
  Browser.require_node_fetch := Throw (Error "Cannot find module 'node-fetch'");
|}.


(** A client whose one pull has read a chunk of two lines and handed out the
    first: the line that says the pull is done is decoded and waits to be
    parsed, and the body is still open. *)
Definition finishing : Ollama :=
  {| config := {| host := "http://127.0.0.1:11434"; apiKey := Some "secret" |};
     ongoingStreamedRequests := [0%nat];
     heap := {[ 0%nat := {| aborted := false;
                            itr := Reading [js "{'status':'success'}"] []
                                           (stream_of [js "{'status':'late'}" ++ [10]]) |} ]} |}.

End Sample.

(* ===================================================================== *)
(** * Part II: properties                                                 *)
(* ===================================================================== *)

(** Closes a goal [x ∉ l] over a list given in full. *)
Ltac absent :=
  let Hin := fresh "Hin" in
  intros Hin; vm_compute in Hin;
  repeat (apply elem_of_cons in Hin as [Hin|Hin]; [discriminate Hin|]);
  exact (proj1 (elem_of_nil _) Hin).

(** ** Splitting text into lines *)

Section Lines.
Context {A : Type} `{EqDecision A}.
Implicit Types (sep : A) (a b : list A).

Lemma split_chars_nonempty sep a : Str.split_chars sep a <> [].
Proof.
  destruct a as [|c a]; simpl; [discriminate|].
  destruct (decide (c = sep)); [discriminate|].
  destruct (Str.split_chars sep a); discriminate.
Qed.

Lemma split_chars_no_sep sep a : sep ∉ a -> Str.split_chars sep a = [a].
Proof.
  induction a as [|c a IH]; intros Hn; simpl; [reflexivity|].
  apply not_elem_of_cons in Hn as [Hc Ha].
  destruct (decide (c = sep)); [congruence|].
  rewrite IH by assumption. reflexivity.
Qed.

Lemma split_chars_pieces sep a p : p ∈ Str.split_chars sep a -> sep ∉ p.
Proof.
  revert p. induction a as [|c a IH]; simpl; intros p Hp.
  - apply list_elem_of_singleton in Hp as ->. apply not_elem_of_nil.
  - destruct (decide (c = sep)) as [->|Hne].
    + apply elem_of_cons in Hp as [->|Hp]; [apply not_elem_of_nil | by apply IH].
    + destruct (Str.split_chars sep a) as [|seg segs] eqn:E.
      * apply list_elem_of_singleton in Hp as ->.
        apply not_elem_of_cons; split; [congruence | apply not_elem_of_nil].
      * apply elem_of_cons in Hp as [->|Hp].
        -- apply not_elem_of_cons; split; [congruence|]. apply IH. left.
        -- apply IH. by right.
Qed.

Lemma removelast_cons_nonempty (x : list A) (l : list (list A)) :
  l <> [] -> removelast (x :: l) = x :: removelast l.
Proof. destruct l; [congruence | reflexivity]. Qed.

Lemma last_app_nonempty (d : list A) (l l' : list (list A)) :
  l' <> [] -> List.last (l ++ l') d = List.last l' d.
Proof.
  intros Hne. destruct l' as [|x l'] using rev_ind; [congruence|].
  rewrite app_assoc, !last_last. reflexivity.
Qed.

Lemma last_cons_nonempty (x d : list A) (l : list (list A)) :
  l <> [] -> List.last (x :: l) d = List.last l d.
Proof. destruct l; [congruence | reflexivity]. Qed.

(** Splitting a concatenation: the pieces closed inside [a], then the pieces
    of what [a] leaves open followed by [b]. *)
Lemma split_chars_app sep a b :
  Str.split_chars sep (a ++ b) =
  removelast (Str.split_chars sep a)
  ++ Str.split_chars sep (List.last (Str.split_chars sep a) [] ++ b).
Proof.
  induction a as [|c a IH]; [reflexivity|].
  pose proof (split_chars_nonempty sep a) as Hne.
  cbn [app Str.split_chars]. destruct (decide (c = sep)) as [->|Hc].
  - rewrite removelast_cons_nonempty, last_cons_nonempty by assumption.
    rewrite IH. reflexivity.
  - rewrite IH. destruct (Str.split_chars sep a) as [|s [|s' l]]; [congruence| |].
    + cbn [removelast List.last app Str.split_chars].
      destruct (decide (c = sep)); [congruence|]. reflexivity.
    + reflexivity.
Qed.

Lemma last_split_chars_no_sep sep a : sep ∉ List.last (Str.split_chars sep a) [].
Proof.
  apply split_chars_pieces with (a := a).
  pose proof (split_chars_nonempty sep a) as Hne.
  destruct (Str.split_chars sep a) as [|x l] using rev_ind; [congruence|].
  rewrite last_last. apply elem_of_app. right. left.
Qed.

Lemma split_chars_closed sep a : sep ∉ a -> Str.split_chars sep (a ++ [sep]) = [a; []].
Proof.
  induction a as [|c a IH]; intros Hn; cbn [app Str.split_chars].
  - destruct (decide (sep = sep)); [reflexivity | congruence].
  - apply not_elem_of_cons in Hn as [Hc Ha].
    destruct (decide (c = sep)); [congruence|]. rewrite IH by assumption. reflexivity.
Qed.

(** A text closed by a separator splits into the pieces before it and one
    empty piece. *)
Lemma split_chars_terminated sep a :
  Str.split_chars sep (a ++ [sep]) = Str.split_chars sep a ++ [[]].
Proof.
  rewrite split_chars_app, split_chars_closed by apply last_split_chars_no_sep.
  rewrite (app_removelast_last [] (split_chars_nonempty sep a)) at 3.
  rewrite <- app_assoc. reflexivity.
Qed.

End Lines.

(** ** The decoder (claim C1) *)

Section DecoderFacts.
Context {V : Type} `{Json V}.

Lemma yields_try_parse (parts : list text) :
  yields (try_parse <$> parts) = omap JSON_parse parts.
Proof.
  induction parts as [|p parts IH]; [reflexivity|].
  unfold yields in *. cbn. unfold try_parse at 1.
  destruct (JSON_parse p); cbn; rewrite IH; reflexivity.
Qed.

Lemma warnings_try_parse (parts : list text) :
  warnings (try_parse <$> parts) = filter (fun p => JSON_parse p = None) parts.
Proof.
  induction parts as [|p parts IH]; [reflexivity|].
  unfold warnings in *. cbn. unfold try_parse at 1.
  destruct (JSON_parse p) eqn:E; cbn; rewrite IH; case_decide; done.
Qed.

(** The trace of the generator is the parse of the candidates, one by one,
    and the generator ends as the stream does. *)
Lemma parseJSON_loop_candidates buffer reader :
  fst (parseJSON_loop buffer reader) = try_parse <$> candidates buffer reader.
Proof.
  revert buffer. induction reader as [|e|c rest IH]; intros buffer; cbn; try reflexivity.
  specialize (IH (List.last (lines (buffer ++ Utf8.decode c)) [])).
  destruct (parseJSON_loop _ rest) as [emits ending].
  cbn in *. rewrite IH, fmap_app. reflexivity.
Qed.

Lemma parseJSON_loop_returns buffer chunks :
  snd (parseJSON_loop buffer (stream_of chunks)) = Returned.
Proof.
  revert buffer. induction chunks as [|c chunks IH]; intros buffer; cbn; [reflexivity|].
  specialize (IH (List.last (lines (buffer ++ Utf8.decode c)) [])).
  destruct (parseJSON_loop _ (stream_of chunks)). assumption.
Qed.


(** Wherever the chunk boundaries fall, the candidates are the lines of the
    decoded chunks put end to end: every line closed by a newline, then the
    text left open if there is some. *)
Lemma candidates_lines chunks buffer :
  NL ∉ buffer ->
  candidates buffer (stream_of chunks) =
  let whole := buffer ++ concat (Utf8.decode <$> chunks) in
  removelast (lines whole) ++ residue whole.
Proof.
  revert buffer. induction chunks as [|c chunks IH]; intros buffer Hb; cbn.
  - rewrite app_nil_r. unfold residue, lines.
    rewrite split_chars_no_sep by assumption. reflexivity.
  - unfold pop. rewrite IH by apply last_split_chars_no_sep. cbn zeta.
    rewrite (app_assoc buffer). unfold residue, lines.
    rewrite (split_chars_app NL (buffer ++ Utf8.decode c)).
    rewrite removelast_app by apply split_chars_nonempty.
    rewrite last_app_nonempty by apply split_chars_nonempty.
    rewrite <- app_assoc. reflexivity.
Qed.

(** Chunk boundaries do not show in the decoded text: the generator parses
    the lines of the decoded chunks put end to end, and ends when the stream
    does. *)
Theorem parseJSON_chunk_boundaries chunks :
  let whole := concat (Utf8.decode <$> chunks) in
  parseJSON (stream_of chunks)
  = (try_parse <$> (removelast (lines whole) ++ residue whole), Returned).
Proof.
  cbn zeta. unfold parseJSON.
  rewrite (surjective_pairing (parseJSON_loop [] (stream_of chunks))).
  rewrite parseJSON_loop_candidates, parseJSON_loop_returns.
  rewrite candidates_lines by apply not_elem_of_nil. reflexivity.
Qed.

(** When the decoded text is [N + B] lines, each closed by a newline, the
    generator yields the parse of each line that parses, in line order, and
    logs each of the others. *)
Theorem parseJSON_terminated_lines chunks (body : text) :
  concat (Utf8.decode <$> chunks) = body ++ [NL] ->
  let trace := fst (parseJSON (stream_of chunks)) in
  yields trace = omap JSON_parse (lines body)
  /\ warnings trace = filter (fun p => JSON_parse p = None) (lines body)
  /\ snd (parseJSON (stream_of chunks)) = Returned.
Proof.
  intros Hw. cbn zeta. rewrite parseJSON_chunk_boundaries. cbn [fst snd].
  rewrite Hw. unfold residue, lines. rewrite split_chars_terminated.
  rewrite removelast_last, last_last. cbn. rewrite app_nil_r.
  rewrite yields_try_parse, warnings_try_parse. auto.
Qed.

End DecoderFacts.

(** ** Decoding chunk by chunk *)

Section Utf8Facts.
Import Utf8.

Lemma run_app (st : State) (a b : list Z) :
  state_after st a = Start -> run st (a ++ b) = run st a ++ run Start b.
Proof.
  revert st. induction a as [|x a IH]; intros st Hs; cbn in *.
  - subst st. reflexivity.
  - destruct st as [|n cp lo hi].
    + destruct (lead x) as [st' out]; cbn in *.
      rewrite IH by assumption. apply app_assoc.
    + destruct ((lo <=? x) && (x <=? hi)).
      * destruct n as [|[|n]]; cbn; rewrite IH by assumption; reflexivity.
      * destruct (lead x) as [st' out]; cbn in *.
        rewrite IH by assumption. cbn. rewrite app_assoc. reflexivity.
Qed.

Lemma state_after_app (st : State) (a b : list Z) :
  state_after st (a ++ b) = state_after (state_after st a) b.
Proof.
  revert st. induction a as [|x a IH]; intros st; cbn; [reflexivity|].
  destruct st as [|n cp lo hi]; [apply IH|].
  destruct ((lo <=? x) && (x <=? hi)); [destruct n as [|[|n]]|]; apply IH.
Qed.


Lemma whole_characters_no_bom (c rest : list Z) :
  Utf8.whole_characters c -> strip_bom rest = rest -> strip_bom (c ++ rest) = c ++ rest.
Proof.
  intros [Hc Hb] Hr. destruct c as [|x [|y [|z c]]]; cbn [app]; [assumption|..].
  - destruct rest as [|y [|z rest]]; try reflexivity. cbn.
    destruct (x =? 0xEF) eqn:E; [|reflexivity].
    apply Z.eqb_eq in E. subst x. discriminate Hc.
  - destruct rest as [|z rest]; [reflexivity|]. cbn.
    destruct (x =? 0xEF) eqn:E; [|reflexivity].
    destruct (y =? 0xBB) eqn:E'; [|reflexivity].
    apply Z.eqb_eq in E, E'. subst x y. discriminate Hc.
  - cbn in *. destruct ((x =? 0xEF) && (y =? 0xBB) && (z =? 0xBF)); [|reflexivity].
    exfalso. apply (f_equal length) in Hb. cbn in Hb. lia.
Qed.

Lemma whole_characters_concat (chunks : list chunk) :
  Forall Utf8.whole_characters chunks ->
  strip_bom (concat chunks) = concat chunks
  /\ state_after Start (concat chunks) = Start
  /\ run Start (concat chunks) = concat (decode <$> chunks).
Proof.
  induction 1 as [|c chunks Hc _ (IH1 & IH2 & IH3)]; cbn; [auto|].
  split; [by apply whole_characters_no_bom|]. destruct Hc as [Hc Hb].
  split; [by rewrite state_after_app, Hc|].
  rewrite run_app, IH3 by assumption. unfold decode at 2. rewrite Hb. reflexivity.
Qed.

(** Chunks that each hold whole characters decode, one by one, to the text
    of the whole stream. *)
Lemma decode_whole_characters (chunks : list chunk) :
  Forall Utf8.whole_characters chunks ->
  concat (decode <$> chunks) = decode (concat chunks).
Proof.
  intros Hc. destruct (whole_characters_concat chunks Hc) as (H1 & _ & H3).
  unfold decode at 2. rewrite H1, H3. reflexivity.
Qed.

End Utf8Facts.

(** X2.  Where every chunk ends between two characters and none opens
    with the byte order mark [EF BB BF], the generator yields what the lines
    of the whole stream parse to, and warns of the lines that do not parse,
    wherever the boundaries fall within or between lines. *)
Theorem parseJSON_whole_character_chunks {V : Type} `{Json V}
    (chunks : list chunk) (body : text) :
  Forall Utf8.complete chunks ->
  Forall (fun c => Utf8.strip_bom c = c) chunks ->
  Utf8.decode (concat chunks) = body ++ [NL] ->
  yields (fst (parseJSON (stream_of chunks))) = omap JSON_parse (lines body)
  /\ warnings (fst (parseJSON (stream_of chunks)))
     = filter (fun p => JSON_parse p = None) (lines body).
Proof.
  intros Hc Hb Hw.
  assert (Hwhole : Forall Utf8.whole_characters chunks).
  { clear Hw. induction Hc as [|c chunks Hc _ IH]; [constructor|].
    apply Forall_cons in Hb as [Hb Hbs]. constructor; [by split|by apply IH]. }
  rewrite <- decode_whole_characters in Hw by assumption.
  destruct (parseJSON_terminated_lines chunks body Hw) as (Hy & Hl & _). auto.
Qed.

Lemma parseJSON_whole_character_chunks_witness :
  yields (fst (parseJSON (stream_of
    [Sample.js "{'a':'b'}" ++ [10] ++ Sample.js "{'do"; Sample.js "ne':true}" ++ [10]])))
  = omap JSON_parse (lines (Sample.js "{'a':'b'}" ++ [10] ++ Sample.js "{'done':true}")).
Proof.
  refine (proj1 (parseJSON_whole_character_chunks
    [Sample.js "{'a':'b'}" ++ [10] ++ Sample.js "{'do"; Sample.js "ne':true}" ++ [10]]
    (Sample.js "{'a':'b'}" ++ [10] ++ Sample.js "{'done':true}") _ _ _)).
  - repeat constructor.
  - repeat constructor.
  - reflexivity.
Defined.

(** C1, at a boundary inside a character.  The stream is the one line
    ["é"] closed by a newline, the two bytes of [é] falling into different
    chunks: the line parses to the string [é], and the decoder yields a
    string of two replacement characters instead. *)
Theorem parseJSON_split_character :
  let chunks := [[34; 0xC3]; [0xA9; 34; 10]] in
  Utf8.decode (concat chunks) = [34; 0xE9; 34] ++ [NL]
  /\ omap JSON_parse (lines [34; 0xE9; 34]) = [Sample.JScalar (Sample.SString [0xE9])]
  /\ candidates [] (stream_of chunks) = [[34; REPLACEMENT; REPLACEMENT; 34]]
  /\ yields (fst (parseJSON (stream_of chunks)))
     = [Sample.JScalar (Sample.SString [REPLACEMENT; REPLACEMENT])].
Proof. repeat split; reflexivity. Qed.

(** ** The abortable iterator (claims C3 and C4) *)

Section IteratorFacts.
Context {V : Type} `{Json V}.
Implicit Types (emits : list (Emit V)) (ending : Ending) (m : V).

(** The messages a run takes from [itr] are the first ones [itr] yields. *)
Lemma pulled_prefix emits ending :
  pulled (iterate_loop emits ending) `prefix_of` yields emits.
Proof.
  induction emits as [|[message|part] emits IH]; cbn.
  - destruct ending; apply prefix_nil.
  - unfold yields in *. cbn.
    destruct (error_in message) as [[|]|]; cbn;
      try (apply prefix_cons, prefix_nil).
    destruct (done_or_success message); cbn; [apply prefix_cons, prefix_nil|].
    apply prefix_cons, IH.
  - apply IH.
Qed.

(** A run that sees the end of [itr] yielded every message it took, none of
    them carrying an error or a completion signal, and raises the error of a
    stream without completion. *)
Lemma iterate_loop_inner_ended emits ending :
  inner_ended (iterate_loop emits ending) = true ->
  outcome (iterate_loop emits ending) = Raised no_completion
  /\ callbacks (iterate_loop emits ending) = 0%nat
  /\ yielded (iterate_loop emits ending) = pulled (iterate_loop emits ending)
  /\ ending = Returned.
Proof.
  induction emits as [|[message|part] emits IH]; cbn.
  - destruct ending; cbn; [auto | discriminate].
  - destruct (error_in message) as [[|]|]; cbn; try discriminate.
    destruct (done_or_success message); cbn; [discriminate|].
    intros Hend. destruct (IH Hend) as (Ho & Hc & Hy & He).
    rewrite Hy. auto.
  - apply IH.
Qed.


(** A message with an error field, once taken from [itr], is the last one
    taken; it is not yielded, and the run raises its text. *)
Lemma iterate_loop_error emits ending m :
  m ∈ pulled (iterate_loop emits ending) ->
  error_in m = Some true ->
  outcome (iterate_loop emits ending) = Raised (Error (error_message m))
  /\ pulled (iterate_loop emits ending) = yielded (iterate_loop emits ending) ++ [m]
  /\ callbacks (iterate_loop emits ending) = 0%nat.
Proof.
  induction emits as [|[message|part] emits IH]; cbn.
  - destruct ending; cbn; intros Hm; by apply elem_of_nil in Hm.
  - destruct (error_in message) as [[|]|] eqn:He; cbn.
    + intros ->%list_elem_of_singleton _. auto.
    + destruct (done_or_success message); cbn.
      * intros ->%list_elem_of_singleton Hm. congruence.
      * intros [->|Hin]%elem_of_cons Hm; [congruence|].
        destruct (IH Hin Hm) as (Ho & Hp & Hc). rewrite Hp. auto.
    + intros ->%list_elem_of_singleton Hm. congruence.
  - apply IH.
Qed.

(** The whole picture for a stream of messages without error field that
    ends regularly: the run yields the messages up to the first one that
    carries the completion signal and ends normally behind it, or yields
    them all and raises the error of a stream without completion. *)
Lemma iterate_payloads (ms : list V) :
  Forall (fun m => error_in m = Some false) ms ->
  let r := iterate (Yielded <$> ms, Returned) in
  match list_find (fun m => done_or_success m = true) ms with
  | Some (i, _) =>
    yielded r = take (S i) ms /\ outcome r = Completed /\ callbacks r = 1%nat
  | None =>
    yielded r = ms /\ outcome r = Raised no_completion /\ callbacks r = 0%nat
  end.
Proof.
  cbn zeta. unfold iterate. cbn [fst snd].
  induction 1 as [|m ms Hm _ IH]; cbn; [auto|].
  rewrite Hm. case_decide as Hd.
  - rewrite Hd. cbn. rewrite take_0. auto.
  - apply not_true_is_false in Hd. rewrite Hd.
    destruct (list_find _ ms) as [[i m']|]; cbn in *.
    + destruct IH as (Hy & Ho & Hc). rewrite Hy. auto.
    + destruct IH as (Hy & Ho & Hc). rewrite Hy. auto.
Qed.

(** A loop suspended at a message without completion signal goes on as a
    loop that starts where the decoder stands. *)
Lemma resume_iterate m (itr : Trace V) :
  done_or_success m = false -> resume m itr = iterate itr.
Proof. intros Hd. unfold resume. rewrite Hd. reflexivity. Qed.

End IteratorFacts.

(** C4.  When the decoder hands the iterator a message with an [error]
    field, the run raises an error with that message's text; the message is
    the last one taken from the decoder, and what was yielded is what came
    before it. *)
Theorem error_message_stops_stream {V : Type} `{Json V} (itr : Trace V) (m : V) :
  let r := iterate itr in
  m ∈ pulled r ->
  error_in m = Some true ->
  outcome r = Raised (Error (error_message m))
  /\ pulled r = yielded r ++ [m]
  /\ pulled r `prefix_of` yields (fst itr).
Proof.
  cbn zeta. unfold iterate. intros Hin He.
  destruct (iterate_loop_error _ _ m Hin He) as (Ho & Hp & _).
  split; [assumption|]. split; [assumption|]. apply pulled_prefix.
Qed.

Lemma error_message_stops_stream_witness :
  outcome (iterate (parseJSON (stream_of
    [Sample.js "{'status':'pulling'}" ++ [10] ++ Sample.js "{'error':'pull failed'}" ++ [10]
     ++ Sample.js "{'status':'success'}" ++ [10]])))
  = Raised (Error "pull failed").
Proof.
  refine (proj1 (error_message_stops_stream
    (parseJSON (stream_of
      [Sample.js "{'status':'pulling'}" ++ [10] ++ Sample.js "{'error':'pull failed'}" ++ [10]
       ++ Sample.js "{'status':'success'}" ++ [10]]))
    (Sample.JObject [(Sample.codes "error", Sample.SString (Sample.codes "pull failed"))])
    _ _)).
  - apply elem_of_cons. right. apply elem_of_cons. left. reflexivity.
  - reflexivity.
Defined.

(** ** The registry of streamed requests (claims C3 and C7) *)

Section RegistryFacts.
Context {V : Type} `{Json V}.
Implicit Types (c : Ollama) (self request : nat) (it : Iterator).

(** The callback has run exactly when the run ended normally. *)
Lemma callbacks_outcome (emits : list (Emit V)) ending :
  callbacks (iterate_loop emits ending)
  = match outcome (iterate_loop emits ending) with Completed => 1%nat | Raised _ => 0%nat end.
Proof.
  induction emits as [|[message|part] emits IH]; cbn.
  - destruct ending; reflexivity.
  - destruct (error_in message) as [[|]|]; cbn; try reflexivity.
    destruct (done_or_success message); cbn; [reflexivity | apply IH].
  - apply IH.
Qed.

Lemma filter_others (x : nat) (l : list nat) :
  x ∉ l -> filter (fun y => y <> x) l = l.
Proof.
  induction l as [|y l IH]; intros Hx; [reflexivity|].
  apply not_elem_of_cons in Hx as [Hxy Hl].
  rewrite filter_cons_True, IH by auto. reflexivity.
Qed.

Lemma splice_indexOf (x : nat) (l : list nat) :
  NoDup l ->
  match Browser.indexOf x l with Some i => delete i l | None => l end
  = filter (fun y => y <> x) l.
Proof.
  induction 1 as [|y l Hy Hl IH]; [reflexivity|].
  cbn [Browser.indexOf]. destruct (decide (y = x)) as [->|Hne].
  - rewrite filter_cons_False by auto.
    symmetry. by apply filter_others.
  - rewrite filter_cons_True, <- IH by assumption.
    destruct (Browser.indexOf x l) as [i|]; reflexivity.
Qed.

(** The callback takes the iterator out of the registry and leaves the
    other entries as they are. *)
Lemma doneCallback_removes self c :
  NoDup (ongoingStreamedRequests c) ->
  ongoingStreamedRequests (Browser.doneCallback self c)
  = filter (fun y => y <> self) (ongoingStreamedRequests c).
Proof.
  intros Hn. unfold Browser.doneCallback.
  rewrite <- (splice_indexOf self _ Hn).
  destruct (Browser.indexOf self (ongoingStreamedRequests c)); reflexivity.
Qed.

(** A run that ends normally leaves the registry without the iterator; a run
    that raises leaves the registry as it was. *)
Lemma consume_registry self c (r : Run V) c' :
  NoDup (ongoingStreamedRequests c) ->
  Browser.consume self c = Some (r, c') ->
  ongoingStreamedRequests c'
  = match outcome r with
    | Completed => filter (fun y => y <> self) (ongoingStreamedRequests c)
    | Raised _ => ongoingStreamedRequests c
    end.
Proof.
  intros Hn. unfold Browser.consume.
  destruct (heap c !! self) as [it|]; cbn; [|discriminate].
  intros [= <- <-]. cbn. unfold iterate. rewrite callbacks_outcome.
  destruct (outcome _); cbn; [by apply doneCallback_removes | reflexivity].
Qed.

Lemma cut_idempotent (d : Decoder) : Browser.cut (Browser.cut d) = Browser.cut d.
Proof. destruct d as [parts buffer [| |]| |]; reflexivity. Qed.

Lemma Iterator_abort_idempotent it :
  Browser.Iterator_abort (Browser.Iterator_abort it) = Browser.Iterator_abort it.
Proof. unfold Browser.Iterator_abort. cbn. by rewrite cut_idempotent. Qed.

(** The loop of [abort] over the registry, seen from one heap cell. *)
Lemma abort_loop_lookup (l : list nat) (h : gmap nat Iterator) (i : nat) :
  foldl (fun h request => alter Browser.Iterator_abort request h) h l !! i
  = if decide (i ∈ l) then Browser.Iterator_abort <$> h !! i else h !! i.
Proof.
  revert h. induction l as [|a l IH]; intros h; cbn.
  - rewrite decide_False by apply not_elem_of_nil. reflexivity.
  - rewrite IH, lookup_alter.
    destruct (decide (i ∈ l)) as [Hl|Hl], (decide (a = i)) as [->|Ha].
    + rewrite decide_True by left. destruct (h !! i); cbn; [|reflexivity].
      by rewrite Iterator_abort_idempotent.
    + rewrite decide_True by (by right). reflexivity.
    + rewrite decide_True by left. reflexivity.
    + rewrite decide_False; [reflexivity|].
      intros [->|?]%elem_of_cons; contradiction.
Qed.

(** A run never closes silently: it ends normally only behind a message that
    carries the completion signal. *)
Lemma iterate_loop_never_silent (emits : list (Emit V)) ending :
  outcome (iterate_loop emits ending) = Completed ->
  exists m, last (yielded (iterate_loop emits ending)) = Some m /\ done_or_success m = true.
Proof.
  induction emits as [|[message|part] emits IH]; cbn.
  - destruct ending; discriminate.
  - destruct (error_in message) as [[|]|]; cbn; try discriminate.
    destruct (done_or_success message) eqn:Hd; cbn; [eauto|].
    intros Ho. destruct (IH Ho) as (m & Hl & Hm). exists m. split; [|assumption].
    rewrite last_cons, Hl. reflexivity.
  - apply IH.
Qed.

(** Over a transport that has been cut, a run takes nothing from the network:
    it raises the abort error, unless one of the messages decoded before the
    cut ends it first, by its error or by its completion signal. *)
Lemma iterate_loop_threw (emits : list (Emit V)) (e : Thrown) :
  let r := iterate_loop emits (Threw e) in
  inner_ended r = false
  /\ (outcome r = Raised e
      \/ exists m, last (pulled r) = Some m
                   /\ (error_in m <> Some false \/ done_or_success m = true)).
Proof.
  cbn zeta. split.
  - destruct (inner_ended _) eqn:E; [|reflexivity].
    apply iterate_loop_inner_ended in E as (_ & _ & _ & E). discriminate.
  - induction emits as [|[message|part] emits IH]; cbn; [by left| |assumption].
    destruct (error_in message) as [[|]|] eqn:He; cbn.
    + right. exists message. split; [reflexivity|]. left. congruence.
    + destruct (done_or_success message) eqn:Hd; cbn.
      * right. exists message. auto.
      * destruct IH as [IH|(m & Hl & Hm)]; [by left|].
        right. exists m. split; [|assumption]. rewrite last_cons, Hl. reflexivity.
    + right. exists message. split; [reflexivity|]. left. congruence.
Qed.

(** The registry of a new client is in order, and the streaming operations
    keep it so: a streamed request adds one new iterator, not yet aborted and
    not yet read, behind the ones registered. *)
Lemma registry_ok_new (config : Config) :
  Browser.registry_ok {| config := config; ongoingStreamedRequests := []; heap := ∅ |}.
Proof. split; [constructor | intros request Hin; by apply elem_of_nil in Hin]. Qed.

Lemma processStreamableRequest_registers `{Host} (fetch : Fetch V) c endpoint
    (fields : list (string * option string)) c' i :
  Browser.registry_ok c ->
  result (Browser.processStreamableRequest fetch c endpoint (Some true) fields)
  = Normal (c', Browser.Streamed i) ->
  Browser.registry_ok c'
  /\ ongoingStreamedRequests c' = ongoingStreamedRequests c ++ [i]
  /\ heap c !! i = None
  /\ (exists response body,
        fetch (host (config c) +:+ "/api/" +:+ endpoint)
              (Browser.streamable_request c (Some true) fields) = Normal response
        /\ ok response = true
        /\ stream_body response = Some body
        /\ signal (Browser.streamable_request c (Some true) fields) = Some i
        /\ heap c' !! i = Some {| aborted := false; itr := Reading [] [] body |})
  /\ (forall j, j <> i -> heap c' !! j = heap c !! j).
Proof.
  intros [Hnd Hreg]. unfold Browser.processStreamableRequest, Utils.post, Utils.fetchWithHeaders.
  cbn. fold (Browser.streamable_request c (Some true) fields).
  destruct (fetch _ _) as [response|e] eqn:Ef; cbn; [|discriminate].
  unfold Utils.checkOk. destruct (ok response) eqn:Hok; cbn; [|discriminate].
  destruct (stream_body response) as [body|] eqn:Eb; cbn; [|discriminate].
  intros [= <- <-]. cbn.
  assert (Hfresh : heap c !! fresh (dom (heap c)) = None)
    by (apply not_elem_of_dom, is_fresh).
  split; [split|]; cbn [heap ongoingStreamedRequests].
  - apply NoDup_app. split; [assumption|]. split; [|apply NoDup_singleton].
    intros x Hx ->%list_elem_of_singleton. destruct (Hreg _ Hx) as [it Hit]. congruence.
  - intros x [Hx| ->%list_elem_of_singleton]%elem_of_app.
    + destruct (decide (x = fresh (dom (heap c)))) as [->|Hne].
      * rewrite lookup_insert_eq. eauto.
      * rewrite lookup_insert_ne by congruence. by apply Hreg.
    + rewrite lookup_insert_eq. eauto.
  - split; [reflexivity|]. split; [assumption|]. split.
    + exists response, body. split; [reflexivity|]. split; [exact Hok|].
      split; [exact Eb|]. split; [reflexivity|]. apply lookup_insert_eq.
    + intros j Hj. by rewrite lookup_insert_ne by congruence.
Qed.

Lemma abort_registry_ok c : Browser.registry_ok (Browser.abort c).
Proof. split; [constructor | intros request Hin; by apply elem_of_nil in Hin]. Qed.

Lemma doneCallback_registry_ok self c :
  Browser.registry_ok c -> Browser.registry_ok (Browser.doneCallback self c).
Proof.
  intros [Hnd Hreg]. split.
  - rewrite doneCallback_removes by assumption. by apply NoDup_filter.
  - intros request. rewrite doneCallback_removes by assumption.
    intros [_ Hin]%list_elem_of_filter.
    unfold Browser.doneCallback. destruct (Browser.indexOf self _); by apply Hreg.
Qed.

End RegistryFacts.



(** C7, amended.  The client's [abort] triggers the abort controller of
    every registered iterator and leaves the registry empty.  An iterator
    whose response body is still open takes nothing more from the transport:
    iterating it further hands out at most the messages of the lines decoded
    before, and then raises the abort error, unless one of those messages
    ends the run first, by its [error] field or by its completion signal;
    an iterator whose body has ended or failed before, or which is not
    reading any more, goes on as if nothing had happened.  No run ends
    normally except behind a message that carries the completion signal. *)
Theorem abort_cancels_every_stream {V : Type} `{Json V}
    (c : Ollama) (request : nat) (it : Iterator) :
  request ∈ ongoingStreamedRequests c ->
  heap c !! request = Some it ->
  ongoingStreamedRequests (Browser.abort c) = []
  /\ (exists it', heap (Browser.abort c) !! request = Some it'
        /\ aborted it' = true
        /\ it' = Browser.Iterator_abort it
        /\ let r : Run V := iterate (Decoder_trace (itr it')) in
           (outcome r = Completed ->
            exists m, last (yielded r) = Some m /\ done_or_success m = true)
           /\ (forall parts buffer chunk rest,
               itr it = Reading parts buffer (Enqueued chunk rest) ->
               inner_ended r = false
               /\ pulled r `prefix_of` omap JSON_parse parts
               /\ (outcome r = Raised AbortError
                   \/ exists m, last (pulled r) = Some m
                        /\ (error_in m <> Some false \/ done_or_success m = true)))
           /\ ((forall parts buffer chunk rest,
                  itr it <> Reading parts buffer (Enqueued chunk rest)) ->
               itr it' = itr it)).
Proof.
  intros Hin Hit. split; [reflexivity|].
  exists (Browser.Iterator_abort it). split.
  { unfold Browser.abort. cbn. rewrite abort_loop_lookup, decide_True, Hit by assumption.
    reflexivity. }
  split; [reflexivity|]. split; [reflexivity|]. cbn zeta. split; [|split].
  - apply iterate_loop_never_silent.
  - intros parts buffer chunk rest Hr. unfold Browser.Iterator_abort. cbn [itr]. rewrite Hr.
    unfold iterate. cbn. rewrite app_nil_r.
    destruct (iterate_loop_threw (try_parse <$> parts) AbortError) as [He Ho].
    split; [assumption|]. split; [|assumption].
    rewrite <- yields_try_parse. apply pulled_prefix.
  - intros Hclosed. unfold Browser.Iterator_abort. cbn [itr].
    destruct (itr it) as [parts buffer [| |chunk rest]| |]; try reflexivity.
    by destruct (Hclosed parts buffer chunk rest).
Qed.

Lemma abort_cancels_every_stream_witness :
  ongoingStreamedRequests (Browser.abort Sample.busy) = []
  /\ (aborted <$> heap (Browser.abort Sample.busy) !! 0%nat) = Some true
  /\ (aborted <$> heap (Browser.abort Sample.busy) !! 1%nat) = Some true
  /\ (outcome <$> (iterate (V := Sample.JsonValue) <$>
        (Decoder_trace <$> (itr <$> heap (Browser.abort Sample.busy) !! 1%nat))))
     = Some (Raised AbortError).
Proof.
  destruct (abort_cancels_every_stream (V := Sample.JsonValue) Sample.busy 0%nat
              {| aborted := false;
                 itr := Reading [Sample.js "{'status':'verifying'}"] (Sample.js "{'status':'suc")
                                (stream_of [Sample.js "cess'}" ++ [10]]) |})
    as (Hr & it0 & H0 & Ha0 & _); [by left | reflexivity |].
  destruct (abort_cancels_every_stream (V := Sample.JsonValue) Sample.busy 1%nat
              {| aborted := false; itr := Reading [] [] Sample.pull_stream |})
    as (_ & it1 & H1 & Ha1 & Hi1 & _); [right; by left | reflexivity |].
  rewrite Hr, H0, H1. cbn. rewrite Ha0, Ha1, Hi1. auto.
Defined.

(** C7, as stated, fails: a registered iterator that holds the decoded line
    of the completion signal when [abort] is called, its body still open,
    hands that message out afterwards and ends normally.  Its run is the run
    it would have had without [abort]: no failure, and nothing cut short. *)
Lemma abort_then_normal_completion :
  ongoingStreamedRequests Sample.finishing = [0%nat]
  /\ (aborted <$> heap (Browser.abort Sample.finishing) !! 0%nat) = Some true
  /\ (iterate (V := Sample.JsonValue) <$>
        (Decoder_trace <$> (itr <$> heap (Browser.abort Sample.finishing) !! 0%nat)))
     = Some {| pulled := [Sample.JObject [(Sample.codes "status",
                                           Sample.SString (Sample.codes "success"))]];
               yielded := [Sample.JObject [(Sample.codes "status",
                                            Sample.SString (Sample.codes "success"))]];
               callbacks := 1; inner_ended := false; outcome := Completed |}
  /\ (iterate (V := Sample.JsonValue) <$>
        (Decoder_trace <$> (itr <$> heap (Browser.abort Sample.finishing) !! 0%nat)))
     = (iterate (V := Sample.JsonValue) <$>
        (Decoder_trace <$> (itr <$> heap Sample.finishing !! 0%nat)))
  /\ ~ (forall (c : Ollama) (request : nat) (it it' : Iterator),
          request ∈ ongoingStreamedRequests c ->
          heap c !! request = Some it ->
          heap (Browser.abort c) !! request = Some it' ->
          (exists e, outcome (iterate (V := Sample.JsonValue) (Decoder_trace (itr it')))
                     = Raised e)
          \/ (length (yielded (iterate (V := Sample.JsonValue) (Decoder_trace (itr it'))))
              < length (yielded (iterate (V := Sample.JsonValue) (Decoder_trace (itr it)))))%nat).
Proof.
  repeat (split; [vm_compute; reflexivity|]).
  intros Hall.
  destruct (Hall Sample.finishing 0%nat
              {| aborted := false;
                 itr := Reading [Sample.js "{'status':'success'}"] []
                                (stream_of [Sample.js "{'status':'late'}" ++ [10]]) |}
              (Browser.Iterator_abort
                 {| aborted := false;
                    itr := Reading [Sample.js "{'status':'success'}"] []
                                   (stream_of [Sample.js "{'status':'late'}" ++ [10]]) |}))
    as [[e He]|Hlt].
  - cbn. by left.
  - reflexivity.
  - vm_compute. reflexivity.
  - vm_compute in He. discriminate He.
  - vm_compute in Hlt. lia.
Qed.

(** ** The blob upload (claims C2, C5 and C9) *)

Section BlobFacts.
Context {V : Type} `{Host}.
Variables (fetch : Fetch V) (c : Ollama) (path : string) (chunks : list chunk).
Hypothesis streams : has_ReadableStream = true.
Hypothesis readable : fs_read path = Normal chunks.

Let digest : string := Index.blob_digest chunks.
Let url : string := Index.blob_url c digest.
Let probe : RequestInit := Index.probe_request c.
Let upload : RequestInit := Index.upload_request c.

Lemma createBlob_after_probe :
  Index.createBlob fetch c path =
  match fetch url probe with
  | Normal r =>
    match Utils.checkOk r with
    | Normal _ => ([(url, probe)], Normal digest)
    | Throw e =>
      let '(calls, r') := Index.on_probe_failure fetch c digest Ended e in
      ((url, probe) :: calls, match r' with Normal _ => Normal digest | Throw e' => Throw e' end)
    end
  | Throw e =>
    let '(calls, r') := Index.on_probe_failure fetch c digest Ended e in
    ((url, probe) :: calls, match r' with Normal _ => Normal digest | Throw e' => Throw e' end)
  end.
Proof.
  unfold Index.createBlob. rewrite streams, readable.
  unfold url, probe, digest, Index.probe_request, Index.blob_digest.
  unfold Utils.head, Utils.fetchWithHeaders. cbn.
  destruct (fetch _ _) as [r|e]; cbn.
  - destruct (Utils.checkOk r) as [[]|e]; cbn; [reflexivity|].
    destruct (Index.on_probe_failure _ _ _ _ _) as [calls r']. reflexivity.
  - destruct (Index.on_probe_failure _ _ _ _ _) as [calls r']. reflexivity.
Qed.

(** The probe is the first request, whatever comes of it. *)
Lemma createBlob_probe_first :
  exists rest, requests (Index.createBlob fetch c path) = (url, probe) :: rest.
Proof.
  rewrite createBlob_after_probe. destruct (fetch url probe) as [r|e].
  - destruct (Utils.checkOk r) as [[]|e]; [by eexists|].
    destruct (Index.on_probe_failure _ _ _ _ _) as [calls r']. by eexists.
  - destruct (Index.on_probe_failure _ _ _ _ _) as [calls r']. by eexists.
Qed.

(** A failure whose message contains [404] sends the upload. *)
Lemma on_probe_failure_uploads (e : Thrown) :
  instanceof_Error e = true ->
  Str.includes "404" (message_of e) = true ->
  Index.on_probe_failure fetch c digest Ended e =
  ([(url, upload)],
   match fetch url upload with
   | Normal r => match Utils.checkOk r with Normal _ => Normal tt | Throw e' => Throw e' end
   | Throw e' => Throw e'
   end).
Proof.
  intros Hi Hm. unfold Index.on_probe_failure. rewrite Hi, Hm.
  unfold url, upload, Index.upload_request, Utils.post, Utils.fetchWithHeaders. cbn.
  destruct (fetch _ _) as [r|e']; cbn; [|reflexivity].
  destruct (Utils.checkOk r) as [[]|e']; reflexivity.
Qed.

(** Any other failure is thrown on, and nothing is sent. *)
Lemma on_probe_failure_propagates (e : Thrown) :
  instanceof_Error e && Str.includes "404" (message_of e) = false ->
  Index.on_probe_failure fetch c digest Ended e = ([], Throw e).
Proof. intros Hm. unfold Index.on_probe_failure. rewrite Hm. reflexivity. Qed.

(** The message [checkOk] gives a response without a body. *)
Lemma checkOk_bodiless (r : Response V) :
  ok r = false -> content_type r = None -> text_body r = Normal "" ->
  Utils.checkOk r
  = Throw (ResponseError ("Error " +:+ Str.of_Z (status r) +:+ ": " +:+ statusText r) (status r)).
Proof.
  intros Hok Hct Htx. unfold Utils.checkOk. rewrite Hok, Hct, Htx. reflexivity.
Qed.

(** C2, on the code.  When the probe is answered by 404, the upload that
    follows is a POST with content type [application/octet-stream] whose body
    is the two characters [{}]: the stream meant to carry the file is built
    on a file stream that has emitted all its events, so it holds no chunk
    and is never closed, and [post] serialises it as an empty record.  The
    digest returned is the one of the file's bytes. *)
Theorem createBlob_upload_body (r : Response V) :
  fetch url probe = Normal r ->
  status r = 404 -> content_type r = None -> text_body r = Normal "" ->
  requests (Index.createBlob fetch c path) = [(url, probe); (url, upload)]
  /\ method upload = Some "POST"
  /\ body upload = BText "{}"
  /\ headers upload !! "Content-Type" = Some (HStr "application/octet-stream")
  /\ wrap Ended = {| enqueued := []; closed := false |}
  /\ (forall s, Utils.formattedData (DStream s) = BText "{}")
  /\ (forall r', fetch url upload = Normal r' -> ok r' = true ->
      result (Index.createBlob fetch c path) = Normal (Index.blob_digest chunks)).
Proof.
  intros Hf Hs Hct Htx.
  assert (Hok : ok r = false) by (unfold ok; rewrite Hs; reflexivity).
  rewrite createBlob_after_probe, Hf, (checkOk_bodiless r Hok Hct Htx), Hs.
  rewrite on_probe_failure_uploads by reflexivity.
  split; [reflexivity|]. split; [reflexivity|]. split; [reflexivity|].
  split; [unfold upload, Index.upload_request, Utils.with_headers; cbn; by simplify_map_eq|].
  split; [reflexivity|]. split; [reflexivity|].
  intros r' Hu Hok'. cbn. rewrite Hu. unfold Utils.checkOk. rewrite Hok'. reflexivity.
Qed.

(** C5, on the code.  What sends the upload is the text of the failure, not
    its HTTP status: a probe that fails without any response, by an error
    whose message contains [404], is followed by the POST, and the error
    thrown on is the upload's, if any. *)
Theorem createBlob_uploads_on_message (e : Thrown) :
  fetch url probe = Throw e ->
  instanceof_Error e = true ->
  Str.includes "404" (message_of e) = true ->
  requests (Index.createBlob fetch c path) = [(url, probe); (url, upload)]
  /\ method upload = Some "POST"
  /\ result (Index.createBlob fetch c path)
     = match fetch url upload with
       | Normal r' =>
         match Utils.checkOk r' with
         | Normal _ => Normal (Index.blob_digest chunks)
         | Throw e' => Throw e'
         end
       | Throw e' => Throw e'
       end.
Proof.
  intros Hf Hi Hm. rewrite createBlob_after_probe, Hf.
  rewrite on_probe_failure_uploads by assumption.
  split; [reflexivity|]. split; [reflexivity|]. cbn.
  destruct (fetch url upload) as [r'|e']; [|reflexivity].
  destruct (Utils.checkOk r') as [[]|e']; reflexivity.
Qed.

(** What holds of the claim: a failure of the probe whose message does not
    contain [404] is thrown on unchanged, and only the probe was sent. *)
Lemma createBlob_propagates (e : Thrown) :
  fetch url probe = Throw e ->
  instanceof_Error e && Str.includes "404" (message_of e) = false ->
  Index.createBlob fetch c path = ([(url, probe)], Throw e).
Proof.
  intros Hf Hm. rewrite createBlob_after_probe, Hf.
  rewrite on_probe_failure_propagates by assumption. reflexivity.
Qed.

(** A response of any status other than 2xx whose body's text contains [404]
    sends the upload as well. *)
Lemma createBlob_uploads_on_body (r : Response V) (t : string) :
  fetch url probe = Normal r ->
  ok r = false -> content_type r = None -> text_body r = Normal t ->
  t <> "" -> Str.includes "404" t = true ->
  requests (Index.createBlob fetch c path) = [(url, probe); (url, upload)].
Proof.
  intros Hf Hok Hct Htx Ht Hm. rewrite createBlob_after_probe, Hf.
  unfold Utils.checkOk. rewrite Hok, Hct, Htx.
  assert (Utils.or_else t ("Error " +:+ Str.of_Z (status r) +:+ ": " +:+ statusText r) = t)
    as -> by (destruct t; [congruence | reflexivity]).
  rewrite on_probe_failure_uploads by (first [reflexivity | exact Hm]). reflexivity.
Qed.

(** C9, on the code.  The probe [createBlob] sends is a HEAD request whose
    headers have no [Authorization] entry: the object holding it was passed
    where [head] expects the headers themselves, and ends up as the value of
    an entry named [headers]. *)
Theorem createBlob_probe_headers :
  exists rest,
    requests (Index.createBlob fetch c path) = (url, probe) :: rest
    /\ method probe = Some "HEAD"
    /\ headers probe !! "Authorization" = None
    /\ headers probe !! "headers"
       = Some (HObj {["Authorization" := bearer (config c)]}).
Proof.
  destruct createBlob_probe_first as [rest Hr]. exists rest.
  split; [assumption|]. split; [reflexivity|].
  unfold probe, Index.probe_request, Utils.with_headers, nested_authorization,
    Utils.defaultHeaders. cbn.
  split; by simplify_map_eq.
Qed.

End BlobFacts.

Lemma createBlob_upload_body_witness :
  (fun call => (method call.2, body call.2))
    <$> requests (Index.createBlob Sample.fetch (Sample.client "http://127.0.0.1:11434")
                                   "/models/model.bin")
  = [(Some "HEAD", BUndefined); (Some "POST", BText "{}")].
Proof.
  destruct (createBlob_upload_body (H := Sample.platform) Sample.fetch (Sample.client "http://127.0.0.1:11434")
              "/models/model.bin" Sample.model_bin eq_refl eq_refl
              (Sample.reply 404 "Not Found" None) eq_refl eq_refl eq_refl eq_refl)
    as (Hr & _).
  rewrite Hr. reflexivity.
Defined.

Lemma createBlob_uploads_on_message_witness :
  (fun call => method call.2)
    <$> requests (Index.createBlob Sample.offline (Sample.client "http://127.0.0.1:4040")
                                   "/models/model.bin")
  = [Some "HEAD"; Some "POST"].
Proof.
  destruct (createBlob_uploads_on_message (H := Sample.platform) Sample.offline (Sample.client "http://127.0.0.1:4040")
              "/models/model.bin" Sample.model_bin eq_refl eq_refl
              (JsErr "FetchError"
                 ("request to "
                  +:+ Index.blob_url (Sample.client "http://127.0.0.1:4040")
                        (Index.blob_digest Sample.model_bin)
                  +:+ " failed, reason: connect ECONNREFUSED 127.0.0.1:4040") None)
              eq_refl eq_refl eq_refl)
    as (Hr & _).
  rewrite Hr. reflexivity.
Defined.

Lemma createBlob_probe_headers_witness :
  exists rest,
    requests (Index.createBlob Sample.fetch (Sample.client "http://127.0.0.1:11434")
                               "/models/model.bin")
    = (Index.blob_url (Sample.client "http://127.0.0.1:11434")
         (Index.blob_digest Sample.model_bin),
       Index.probe_request (Sample.client "http://127.0.0.1:11434")) :: rest
    /\ headers (Index.probe_request (Sample.client "http://127.0.0.1:11434")) !! "Authorization"
       = None.
Proof.
  destruct (createBlob_probe_headers (H := Sample.platform) Sample.fetch (Sample.client "http://127.0.0.1:11434")
              "/models/model.bin" Sample.model_bin eq_refl eq_refl)
    as (rest & Hr & _ & Ha & _).
  exists rest. split; assumption.
Defined.

(** ** Calls that carry the token (claim C9) and calls that report success (claim C10) *)

Section ClientFacts.
Context {V : Type} `{Host}.
Variables (fetch : Fetch V) (c : Ollama).

(** Where the caller's headers are [{ Authorization: ... }] itself, the
    request carries the token beside the default headers. *)
Lemma with_headers_authorization method body signal :
  headers (Utils.with_headers method body signal (Some (authorization (config c))))
    !! "Authorization" = Some (HStr (bearer (config c)))
  /\ headers (Utils.with_headers method body signal (Some (authorization (config c))))
       !! "Accept" = Some (HStr "application/json").
Proof.
  unfold Utils.with_headers, authorization, Utils.defaultHeaders. cbn.
  split; by simplify_map_eq.
Qed.

(** The upload of [createBlob] carries the token too. *)
Lemma upload_request_authorization :
  headers (Index.upload_request c) !! "Authorization" = Some (HStr (bearer (config c))).
Proof.
  unfold Index.upload_request, Utils.with_headers, authorization, Utils.defaultHeaders. cbn.
  by simplify_map_eq.
Qed.

(** C10.  When the request [delete] (or [copy]) sends is answered with a
    status of the 2xx range, the call returns the record [{ status:
    'success' }], whatever else the response holds. *)
Theorem delete_and_copy_report_success
    (model : string) (request : list (string * string)) (r : Response V) :
  ok r = true ->
  (fetch (host (config c) +:+ "/api/delete") (Browser.delete_request c model) = Normal r ->
   Browser.delete fetch c model
   = ([(host (config c) +:+ "/api/delete", Browser.delete_request c model)],
      Normal {| status_field := "success" |}))
  /\ (fetch (host (config c) +:+ "/api/copy") (Browser.copy_request c request) = Normal r ->
      Browser.copy fetch c request
      = ([(host (config c) +:+ "/api/copy", Browser.copy_request c request)],
         Normal {| status_field := "success" |})).
Proof.
  intros Hok. split; intros Hf.
  - unfold Browser.delete, Utils.del, Utils.fetchWithHeaders, Browser.delete_request in *. cbn.
    rewrite Hf. cbn. unfold Utils.checkOk. rewrite Hok. reflexivity.
  - unfold Browser.copy, Utils.post, Utils.fetchWithHeaders, Browser.copy_request in *. cbn.
    rewrite Hf. cbn. unfold Utils.checkOk. rewrite Hok. reflexivity.
Qed.

(** A response of another status makes both calls throw. *)
Lemma delete_failure (model : string) (r : Response V) :
  ok r = false ->
  fetch (host (config c) +:+ "/api/delete") (Browser.delete_request c model) = Normal r ->
  exists message, result (Browser.delete fetch c model)
                  = Throw (ResponseError message (status r)).
Proof.
  intros Hok Hf.
  unfold Browser.delete, Utils.del, Utils.fetchWithHeaders, Browser.delete_request in *. cbn.
  rewrite Hf. cbn. unfold Utils.checkOk. rewrite Hok. cbn. eauto.
Qed.

End ClientFacts.

Lemma delete_and_copy_report_success_witness :
  result (Browser.delete Sample.fetch (Sample.client "http://127.0.0.1:11434") "llama2")
  = Normal {| status_field := "success" |}
  /\ result (Browser.copy Sample.fetch (Sample.client "http://127.0.0.1:11434")
               [("source", "llama2"); ("destination", "llama2-backup")])
     = Normal {| status_field := "success" |}.
Proof.
  destruct (delete_and_copy_report_success (H := Sample.platform) Sample.fetch (Sample.client "http://127.0.0.1:11434")
              "llama2" [("source", "llama2"); ("destination", "llama2-backup")]
              (Sample.reply 200 "OK" None) eq_refl) as [Hd Hc].
  rewrite Hd, Hc by reflexivity. split; reflexivity.
Defined.

(** ** Strings as lists of characters *)


Section StringFacts.
Implicit Types (s t : string) (cs : list ascii).

Lemma chars_of_chars cs : Str.chars (Str.of_chars cs) = cs.
Proof. apply list_ascii_of_string_of_list_ascii. Qed.

Lemma of_chars_chars s : Str.of_chars (Str.chars s) = s.
Proof. apply string_of_list_ascii_of_string. Qed.

Lemma chars_app s t : Str.chars (s +:+ t) = Str.chars s ++ Str.chars t.
Proof.
  unfold Str.chars. induction s as [|a s IH]; [reflexivity|].
  change (String a s +:+ t) with (String a (s +:+ t)). cbn. f_equal. apply IH.
Qed.

Lemma append_assoc s t (u : string) : (s +:+ t) +:+ u = s +:+ t +:+ u.
Proof.
  induction s as [|a s IH]; [reflexivity|].
  change (String a ((s +:+ t) +:+ u) = String a (s +:+ t +:+ u)). by rewrite IH.
Qed.

Lemma of_chars_app cs cs' : Str.of_chars (cs ++ cs') = Str.of_chars cs +:+ Str.of_chars cs'.
Proof.
  unfold Str.of_chars. induction cs as [|a cs IH]; [reflexivity|].
  cbn [app string_of_list_ascii]. rewrite IH. reflexivity.
Qed.

(** The first piece of a split is what stands before the first separator. *)
Lemma split_chars_first (sep : ascii) cs cs' :
  sep ∉ cs -> Str.split_chars sep (cs ++ sep :: cs') = cs :: Str.split_chars sep cs'.
Proof.
  induction cs as [|a cs IH]; intros Hn; cbn.
  - destruct (decide (sep = sep)); [reflexivity | congruence].
  - apply not_elem_of_cons in Hn as [Ha Hn].
    destruct (decide (a = sep)); [congruence|]. rewrite IH by assumption. reflexivity.
Qed.

(** Joining the pieces of a split with the separator gives the string back. *)
Lemma join_split_chars (sep : ascii) cs :
  Str.join (String sep EmptyString) (Str.of_chars <$> Str.split_chars sep cs) = Str.of_chars cs.
Proof.
  induction cs as [|a cs IH]; [reflexivity|]. cbn [Str.split_chars].
  pose proof (split_chars_nonempty sep cs) as Hne.
  destruct (decide (a = sep)) as [->|Ha].
  - destruct (Str.split_chars sep cs) as [|seg segs]; [congruence|].
    unfold Str.of_chars in *. cbn [string_of_list_ascii]. rewrite <- IH. reflexivity.
  - destruct (Str.split_chars sep cs) as [|seg [|seg' segs]]; [congruence|..];
      unfold Str.of_chars in *; cbn [string_of_list_ascii]; rewrite <- IH; reflexivity.
Qed.

Lemma join_split (sep : ascii) s :
  Str.join (String sep EmptyString) (Str.split sep s) = s.
Proof. unfold Str.split. rewrite join_split_chars. apply of_chars_chars. Qed.

End StringFacts.

(** ** The Modelfile rewriter (claim C6) *)

Section ModelfileFacts.
Context {V : Type} `{Host}.
Variables (fetch : Fetch V) (c : Ollama) (mfDir : string).
Implicit Types (command arg rest line : string).

(** The two names destructured from [line.split(' ', 2)] when the line has
    three pieces or more: whatever follows the second piece is not among
    them. *)
Lemma split_limit_three command arg rest :
  Index.space ∉ Str.chars command -> Index.space ∉ Str.chars arg ->
  Str.split_limit Index.space 2 (command +:+ " " +:+ arg +:+ " " +:+ rest) = [command; arg].
Proof.
  intros Hc Ha. unfold Str.split_limit, Str.split.
  rewrite !chars_app. cbn [Str.chars list_ascii_of_string app].
  change " "%char with Index.space.
  rewrite split_chars_first, split_chars_first by assumption.
  pose proof (split_chars_nonempty Index.space (list_ascii_of_string rest)) as Hne.
  cbn. rewrite !of_chars_chars. reflexivity.
Qed.

Lemma split_limit_two command arg :
  Index.space ∉ Str.chars command -> Index.space ∉ Str.chars arg ->
  Str.split_limit Index.space 2 (command +:+ " " +:+ arg) = [command; arg].
Proof.
  intros Hc Ha. unfold Str.split_limit, Str.split.
  rewrite !chars_app. cbn [Str.chars list_ascii_of_string app].
  change " "%char with Index.space.
  rewrite split_chars_first, split_chars_no_sep by assumption.
  cbn. rewrite !of_chars_chars. reflexivity.
Qed.

Lemma split_limit_one line :
  Index.space ∉ Str.chars line -> Str.split_limit Index.space 2 line = [line].
Proof.
  intros Hl. unfold Str.split_limit, Str.split.
  rewrite split_chars_no_sep by assumption. cbn. by rewrite of_chars_chars.
Qed.

(** A line that is no directive is pushed as it is. *)
Lemma rewrite_line_other line :
  Index.is_directive (List.nth 0 (Str.split_limit Index.space 2 line) "") = false ->
  Index.rewrite_line fetch c mfDir line = mret line.
Proof. intros Hd. unfold Index.rewrite_line. rewrite Hd. reflexivity. Qed.

(** A directive with one argument that names no file is pushed as it is. *)
Lemma rewrite_line_missing command arg :
  Index.space ∉ Str.chars command -> Index.space ∉ Str.chars arg ->
  Index.is_directive command = true ->
  Index.fileExists (Index.resolvePath (Str.trim arg) mfDir) = false ->
  Index.rewrite_line fetch c mfDir (command +:+ " " +:+ arg) = mret (command +:+ " " +:+ arg).
Proof.
  intros Hc Ha Hd He. unfold Index.rewrite_line.
  rewrite split_limit_two by assumption. cbn. rewrite Hd, He. reflexivity.
Qed.

(** A directive with one argument that names a file is pushed with the
    digest [createBlob] returns in place of the argument. *)
Lemma rewrite_line_present command arg :
  Index.space ∉ Str.chars command -> Index.space ∉ Str.chars arg ->
  Index.is_directive command = true ->
  Index.fileExists (Index.resolvePath (Str.trim arg) mfDir) = true ->
  Index.rewrite_line fetch c mfDir (command +:+ " " +:+ arg)
  = (digest ← Index.createBlob fetch c (Index.resolvePath (Str.trim arg) mfDir);
     mret (command +:+ " @" +:+ digest)).
Proof.
  intros Hc Ha Hd He. unfold Index.rewrite_line.
  rewrite split_limit_two by assumption. cbn. rewrite Hd, He. reflexivity.
Qed.

(** A directive without an argument makes the rewriter throw. *)
Lemma rewrite_line_no_argument command :
  Index.space ∉ Str.chars command ->
  Index.is_directive command = true ->
  exists e, Index.rewrite_line fetch c mfDir command = ([], Throw e).
Proof.
  intros Hc Hd. unfold Index.rewrite_line.
  rewrite split_limit_one by assumption. cbn. rewrite Hd. eauto.
Qed.

Lemma rewrite_lines_other (lines : list string) :
  Forall (fun line =>
    Index.is_directive (List.nth 0 (Str.split_limit Index.space 2 line) "") = false) lines ->
  Index.rewrite_lines fetch c mfDir lines = mret lines.
Proof.
  induction 1 as [|line lines Hl _ IH]; [reflexivity|].
  cbn. rewrite rewrite_line_other by assumption. cbn.
  rewrite IH. reflexivity.
Qed.

(** X22.  A Modelfile without directives comes back as it is, line by
    line, blank lines included, and nothing is sent. *)
Lemma parseModelfile_no_directive (modelfile : string) :
  Forall (fun line =>
    Index.is_directive (List.nth 0 (Str.split_limit Index.space 2 line) "") = false)
    (Str.split Index.newline modelfile) ->
  Index.parseModelfile fetch c modelfile mfDir = mret modelfile.
Proof.
  intros Hl. unfold Index.parseModelfile.
  rewrite rewrite_lines_other by assumption. cbn. rewrite join_split. reflexivity.
Qed.

(** C6, on the code.  A directive line with more than one space after the
    keyword loses everything behind its second piece: with an argument that
    names no file, what is pushed is the keyword and that piece, not the
    line. *)
Theorem parseModelfile_truncates_directive command arg rest :
  Index.space ∉ Str.chars command -> Index.space ∉ Str.chars arg ->
  Index.newline ∉ Str.chars (command +:+ " " +:+ arg +:+ " " +:+ rest) ->
  Index.is_directive command = true ->
  Index.fileExists (Index.resolvePath (Str.trim arg) mfDir) = false ->
  Index.parseModelfile fetch c (command +:+ " " +:+ arg +:+ " " +:+ rest) mfDir
  = mret (command +:+ " " +:+ arg).
Proof.
  intros Hc Ha Hn Hd He. unfold Index.parseModelfile, Str.split.
  rewrite split_chars_no_sep by assumption. cbn [fmap list_fmap].
  rewrite of_chars_chars. cbn [Index.rewrite_lines]. unfold Index.rewrite_line.
  rewrite split_limit_three by assumption. cbn. rewrite Hd, He. reflexivity.
Qed.

End ModelfileFacts.

Lemma parseModelfile_truncates_directive_witness :
  Index.parseModelfile Sample.fetch (Sample.client "http://127.0.0.1:11434")
    "FROM ./my model.bin" "/models"
  = mret "FROM ./my".
Proof.
  apply (parseModelfile_truncates_directive (H := Sample.platform) Sample.fetch
           (Sample.client "http://127.0.0.1:11434") "/models" "FROM" "./my" "model.bin");
    first [reflexivity | absent].
Defined.

(** ** Host normalisation (claim C8) *)

Section SlashFacts.
Implicit Types (s : string) (cs : list ascii).

Lemma endsWith_slash s :
  Str.endsWith "/" s = match rev (Str.chars s) with
                       | a :: _ => Ascii.eqb Utils.slash a
                       | [] => false
                       end.
Proof.
  unfold Str.endsWith. destruct (rev (Str.chars s)) as [|a l]; [reflexivity|].
  change ((if Ascii.eqb Utils.slash a then true else false) = Ascii.eqb Utils.slash a).
  destruct (Ascii.eqb Utils.slash a); reflexivity.
Qed.

Lemma endsWith_two_slashes s :
  Str.endsWith "//" s = match rev (Str.chars s) with
                        | a :: b :: _ => Ascii.eqb Utils.slash a && Ascii.eqb Utils.slash b
                        | _ => false
                        end.
Proof.
  unfold Str.endsWith. destruct (rev (Str.chars s)) as [|a [|b l]]; [reflexivity|..].
  - change ((if Ascii.eqb Utils.slash a then false else false) = false).
    destruct (Ascii.eqb Utils.slash a); reflexivity.
  - change ((if Ascii.eqb Utils.slash a then if Ascii.eqb Utils.slash b then true else false else false)
            = Ascii.eqb Utils.slash a && Ascii.eqb Utils.slash b).
    destruct (Ascii.eqb Utils.slash a), (Ascii.eqb Utils.slash b); reflexivity.
Qed.

Lemma rev_removelast cs : rev (removelast cs) = tail (rev cs).
Proof.
  destruct cs as [|a cs] using rev_ind; [reflexivity|].
  rewrite removelast_last, rev_unit. reflexivity.
Qed.

(** After [drop_slash], a text made of a head, a port without slash and a
    path ends in a slash only if the path ends in two. *)
Lemma drop_slash_template (head port path : string) :
  port <> "" -> Utils.slash ∉ Str.chars port ->
  Str.endsWith "//" path = false ->
  Str.endsWith "/" (Utils.drop_slash (head +:+ port +:+ path)) = false.
Proof.
  intros Hp Hs Hpath. unfold Utils.drop_slash.
  rewrite endsWith_two_slashes in Hpath.
  assert (Hrp : exists d l, rev (Str.chars port) = d :: l /\ Ascii.eqb Utils.slash d = false).
  { destruct (rev (Str.chars port)) as [|d l] eqn:E.
    - apply (f_equal (@rev ascii)) in E. rewrite rev_involutive in E. cbn in E.
      apply (f_equal Str.of_chars) in E. rewrite of_chars_chars in E. contradiction.
    - exists d, l. split; [reflexivity|]. apply Ascii.eqb_neq. intros <-.
      apply Hs. apply list_elem_of_In, in_rev. rewrite E. by left. }
  destruct Hrp as (d & l & Hd & Hds).
  assert (Hrev : rev (Str.chars (head +:+ port +:+ path))
                 = rev (Str.chars path) ++ d :: l ++ rev (Str.chars head)).
  { rewrite !chars_app, !rev_app_distr, Hd. cbn. by rewrite <- app_assoc. }
  destruct (Str.endsWith "/" (head +:+ port +:+ path)) eqn:E.
  - rewrite endsWith_slash in E |- *. unfold Str.slice0m1.
    rewrite chars_of_chars, rev_removelast. rewrite Hrev in E |- *.
    destruct (rev (Str.chars path)) as [|a [|b p]]; cbn in *.
    + congruence.
    + assumption.
    + rewrite E in Hpath. assumption.
  - assumption.
Qed.

End SlashFacts.

Section FormatHostFacts.
Context `{Host}.

Lemma formatHost_bare_port host url :
  Str.startsWith ":" host = true ->
  URL_new ("http://127.0.0.1" +:+ host) = Normal url ->
  Utils.formatHost host
  = Normal (Utils.drop_slash (Utils.template url (Utils.port_or (Utils.scheme_port url) url))).
Proof.
  intros Hs Hu. unfold Utils.formatHost.
  destruct host as [|a host]; [discriminate|]. cbn [String.eqb]. rewrite Hs.
  cbn [negb]. rewrite Hu. reflexivity.
Qed.

Lemma formatHost_explicit host url :
  host <> "" -> Str.startsWith ":" host = false -> Str.includes "://" host = true ->
  URL_new host = Normal url ->
  Utils.formatHost host
  = Normal (Utils.drop_slash (Utils.template url (Utils.port_or (Utils.scheme_port url) url))).
Proof.
  intros Hh%String.eqb_neq Hs Hi Hu. unfold Utils.formatHost.
  rewrite Hh, Hs, Hi. cbn [negb]. rewrite Hu. reflexivity.
Qed.

Lemma formatHost_implicit host url :
  host <> "" -> Str.startsWith ":" host = false -> Str.includes "://" host = false ->
  URL_new ("http://" +:+ host) = Normal url ->
  Utils.formatHost host
  = Normal (Utils.drop_slash (Utils.template url (Utils.port_or "11434" url))).
Proof.
  intros Hh%String.eqb_neq Hs Hi Hu. unfold Utils.formatHost.
  rewrite Hh, Hs, Hi. cbn [negb]. rewrite Hu. reflexivity.
Qed.

Lemma formatHost_throws host e :
  host <> "" ->
  URL_new (if Str.startsWith ":" host then "http://127.0.0.1" +:+ host
           else if Str.includes "://" host then host else "http://" +:+ host)
  = Throw e ->
  Utils.formatHost host = Throw e.
Proof.
  intros Hh%String.eqb_neq Hu. unfold Utils.formatHost. rewrite Hh.
  destruct (Str.startsWith ":" host); cbn [negb].
  - rewrite Hu. reflexivity.
  - destruct (Str.includes "://" host); cbn [negb]; rewrite Hu; reflexivity.
Qed.

Lemma template_no_slash url port :
  port <> "" -> Utils.slash ∉ Str.chars port ->
  Str.endsWith "//" (pathname url) = false ->
  Str.endsWith "/" (Utils.drop_slash (Utils.template url port)) = false.
Proof.
  intros Hp Hs Hpath. unfold Utils.template.
  apply (drop_slash_template (protocol url +:+ "//" +:+ hostname url +:+ ":") port
           (pathname url) Hp Hs) in Hpath.
  rewrite !append_assoc in Hpath. exact Hpath.
Qed.

Lemma port_or_no_slash fallback url :
  fallback <> "" -> Utils.slash ∉ Str.chars fallback ->
  Utils.slash ∉ Str.chars (port url) ->
  Utils.port_or fallback url <> "" /\ Utils.slash ∉ Str.chars (Utils.port_or fallback url).
Proof.
  intros Hf Hs Hp. unfold Utils.port_or.
  destruct (String.eqb (port url) "") eqn:E; [auto|].
  apply String.eqb_neq in E. auto.
Qed.

Lemma scheme_port_no_slash url :
  Utils.scheme_port url <> "" /\ Utils.slash ∉ Str.chars (Utils.scheme_port url).
Proof.
  unfold Utils.scheme_port. destruct (String.eqb (protocol url) "https:");
    (split; [discriminate | absent]).
Qed.

Lemma formatHost_no_slash host url :
  host <> "" ->
  URL_new (if Str.startsWith ":" host then "http://127.0.0.1" +:+ host
           else if Str.includes "://" host then host else "http://" +:+ host)
  = Normal url ->
  Utils.slash ∉ Str.chars (port url) ->
  Str.endsWith "//" (pathname url) = false ->
  exists formatted,
    Utils.formatHost host = Normal formatted /\ Str.endsWith "/" formatted = false.
Proof.
  intros Hh Hu Hp Hpath.
  destruct (scheme_port_no_slash url) as [Hs1 Hs2].
  destruct (Str.startsWith ":" host) eqn:Hs; [|destruct (Str.includes "://" host) eqn:Hi].
  - eexists. split; [by apply formatHost_bare_port|].
    by apply template_no_slash; [apply port_or_no_slash..|].
  - eexists. split; [by apply formatHost_explicit|].
    by apply template_no_slash; [apply port_or_no_slash..|].
  - eexists. split; [by apply formatHost_implicit|].
    apply template_no_slash; [apply port_or_no_slash; first [discriminate|absent|assumption]..
                             |assumption].
Qed.

(** C8, as the code has it.  The empty string gives [http://127.0.0.1:1646].
    Any other string is completed to an address ([:port] with the loopback
    address, a host without [://] with the scheme [http]) and handed to the
    [URL] constructor; when that throws, so does [formatHost]; otherwise the
    result is scheme, [//], host name, [:], port and path with one slash
    dropped at the end, the port being the URL's own, or else 11434 when no
    scheme was given and 443 or 80 by scheme when one was.  The result ends
    in a slash only when the path ends in two (a port, made of digits, has
    no slash). *)
Theorem formatHost_normalises :
  Utils.formatHost "" = Normal "http://127.0.0.1:1646"
  /\ (forall host url, Str.startsWith ":" host = true ->
      URL_new ("http://127.0.0.1" +:+ host) = Normal url ->
      Utils.formatHost host
      = Normal (Utils.drop_slash (Utils.template url (Utils.port_or (Utils.scheme_port url) url))))
  /\ (forall host url, host <> "" -> Str.startsWith ":" host = false ->
      Str.includes "://" host = true ->
      URL_new host = Normal url ->
      Utils.formatHost host
      = Normal (Utils.drop_slash (Utils.template url (Utils.port_or (Utils.scheme_port url) url))))
  /\ (forall host url, host <> "" -> Str.startsWith ":" host = false ->
      Str.includes "://" host = false ->
      URL_new ("http://" +:+ host) = Normal url ->
      Utils.formatHost host
      = Normal (Utils.drop_slash (Utils.template url (Utils.port_or "11434" url))))
  /\ (forall host e, host <> "" ->
      URL_new (if Str.startsWith ":" host then "http://127.0.0.1" +:+ host
               else if Str.includes "://" host then host else "http://" +:+ host)
      = Throw e ->
      Utils.formatHost host = Throw e)
  /\ (forall host url, host <> "" ->
      URL_new (if Str.startsWith ":" host then "http://127.0.0.1" +:+ host
               else if Str.includes "://" host then host else "http://" +:+ host)
      = Normal url ->
      Utils.slash ∉ Str.chars (port url) ->
      Str.endsWith "//" (pathname url) = false ->
      exists formatted,
        Utils.formatHost host = Normal formatted /\ Str.endsWith "/" formatted = false)
  /\ (URL_new "http://127.0.0.1:9999"
      = Normal {| protocol := "http:"; hostname := "127.0.0.1"; port := "9999";
                  pathname := "/" |} ->
      Utils.formatHost ":9999" = Normal "http://127.0.0.1:9999")
  /\ (URL_new "https://example.com"
      = Normal {| protocol := "https:"; hostname := "example.com"; port := "";
                  pathname := "/" |} ->
      Utils.formatHost "https://example.com" = Normal "https://example.com:443").
Proof.
  split; [reflexivity|].
  split; [exact formatHost_bare_port|].
  split; [exact formatHost_explicit|].
  split; [exact formatHost_implicit|].
  split; [exact formatHost_throws|].
  split; [exact formatHost_no_slash|].
  split; intros Hu.
  - exact (formatHost_bare_port ":9999" _ eq_refl Hu).
  - exact (formatHost_explicit "https://example.com" _ ltac:(discriminate) eq_refl eq_refl Hu).
Qed.

End FormatHostFacts.

Lemma formatHost_normalises_witness :
  Utils.formatHost ":9999" = Normal "http://127.0.0.1:9999"
  /\ Utils.formatHost "https://example.com" = Normal "https://example.com:443"
  /\ Utils.formatHost "example.com/api/" = Normal "http://example.com:11434/api"
  /\ Str.endsWith "/" "http://example.com:11434/api" = false.
Proof.
  destruct (formatHost_normalises (H := Sample.platform))
    as (_ & _ & _ & Himplicit & _ & Hslash & Hport & Hscheme).
  split; [apply Hport; reflexivity|].
  split; [apply Hscheme; reflexivity|].
  split.
  - apply (Himplicit "example.com/api/"
             {| protocol := "http:"; hostname := "example.com"; port := "";
                pathname := "/api/" |}); first [reflexivity | discriminate].
  - destruct (Hslash "example.com/api/"
                {| protocol := "http:"; hostname := "example.com"; port := "";
                   pathname := "/api/" |}
                ltac:(discriminate) eq_refl ltac:(absent) eq_refl)
      as (formatted & Hf & Hs).
    vm_compute in Hf. injection Hf as <-. exact Hs.
Defined.

(** C8, as stated, fails: the address [http://a//] is a URL whose path is two
    slashes; one is dropped and the result ends in the other.  And a string
    the [URL] constructor rejects, such as a scheme without a host, makes
    [formatHost] throw instead of returning. *)
Lemma formatHost_trailing_slash :
  URL_new "http://a//"
  = Normal {| protocol := "http:"; hostname := "a"; port := ""; pathname := "//" |}
  /\ Utils.formatHost "http://a//" = Normal "http://a:80/"
  /\ Str.endsWith "/" "http://a:80/" = true
  /\ Utils.formatHost "http://" = Throw (TypeError "Invalid URL")
  /\ ~ (forall host, exists formatted,
          Utils.formatHost host = Normal formatted /\ Str.endsWith "/" formatted = false).
Proof.
  repeat (split; [reflexivity|]).
  intros Hall. destruct (Hall "http://a//") as (formatted & Hf & Hs).
  vm_compute in Hf. injection Hf as <-. discriminate Hs.
Qed.

(* ===================================================================== *)
(** * Part III: further properties of the three files                      *)
(* ===================================================================== *)

(** ** utils.ts: more on the decoder *)

Section DecoderMore.
Context {V : Type} `{Json V}.

Lemma last_line_open (whole : text) (c : Z) :
  last whole = Some c -> c <> NL -> List.last (lines whole) [] <> [].
Proof.
  intros Hl Hc. destruct (last_Some whole c) as [[front ->] _]; [assumption|].
  unfold lines. rewrite split_chars_app, last_app_nonempty by apply split_chars_nonempty.
  rewrite split_chars_no_sep.
  - cbn. intros E. by apply app_eq_nil in E as [_ E].
  - intros [Hin|Hin]%elem_of_app.
    + by apply (last_split_chars_no_sep NL front).
    + apply list_elem_of_singleton in Hin. congruence.
Qed.

Lemma parseJSON_loop_failing (chunks : list chunk) (e : Thrown) (buffer : text) :
  NL ∉ buffer ->
  parseJSON_loop buffer (stream_then chunks (Errored e))
  = (try_parse <$> removelast (lines (buffer ++ concat (Utf8.decode <$> chunks))), Threw e).
Proof.
  revert buffer. induction chunks as [|c chunks IH]; intros buffer Hb; cbn.
  - rewrite app_nil_r. unfold lines. rewrite split_chars_no_sep by assumption. reflexivity.
  - unfold pop. rewrite IH by apply last_split_chars_no_sep.
    rewrite (app_assoc buffer). unfold lines.
    rewrite (split_chars_app NL (buffer ++ Utf8.decode c)).
    rewrite removelast_app by apply split_chars_nonempty.
    rewrite fmap_app. reflexivity.
Qed.

End DecoderMore.

(** X1.  What [parseJSON] produces depends on the chunks only through the
    text they decode to: two ways of cutting a stream whose decoded chunks,
    put end to end, are the same text give the same yields, the same
    warnings and the same ending. *)
Theorem parseJSON_rechunking {V : Type} `{Json V} (chunks chunks' : list chunk) :
  concat (Utf8.decode <$> chunks) = concat (Utf8.decode <$> chunks') ->
  parseJSON (stream_of chunks) = parseJSON (stream_of chunks').
Proof.
  intros E. rewrite !parseJSON_chunk_boundaries. cbn zeta. rewrite E. reflexivity.
Qed.

Lemma parseJSON_rechunking_witness :
  parseJSON (V := Sample.JsonValue)
    (stream_of [Sample.js "{'status':'pulling'}" ++ [10] ++ Sample.js "{'do";
                Sample.js "ne':true}" ++ [10]])
  = parseJSON
      (stream_of [Sample.js "{'status':'pulling'}"; [10]; Sample.js "{'done':true}" ++ [10]]).
Proof.
  apply (parseJSON_rechunking (V := Sample.JsonValue)). vm_compute. reflexivity.
Defined.

(** X3.  A stream whose text does not end in a newline loses nothing: when
    the reader reports the end, the line left open in the buffer is handed
    to [JSON.parse] like the lines before it, so the candidates are exactly
    the lines of the decoded text. *)
Theorem parseJSON_open_last_line {V : Type} `{Json V} (chunks : list chunk) (c : Z) :
  last (concat (Utf8.decode <$> chunks)) = Some c ->
  c <> NL ->
  parseJSON (stream_of chunks)
  = (try_parse <$> lines (concat (Utf8.decode <$> chunks)), Returned).
Proof.
  intros Hl Hc. rewrite parseJSON_chunk_boundaries. cbn zeta.
  unfold residue. pose proof (last_line_open _ c Hl Hc) as Hopen.
  destruct (List.last (lines (concat (Utf8.decode <$> chunks))) []) as [|x l] eqn:E;
    [congruence|].
  cbn. case_decide; [|done].
  rewrite <- E, <- app_removelast_last by apply split_chars_nonempty. reflexivity.
Qed.

Lemma parseJSON_open_last_line_witness :
  yields (fst (parseJSON (V := Sample.JsonValue)
    (stream_of [Sample.js "{'status':'pulling'}" ++ [10] ++ Sample.js "{'do";
                Sample.js "ne':true}"])))
  = [Sample.JObject [(Sample.codes "status", Sample.SString (Sample.codes "pulling"))];
     Sample.JObject [(Sample.codes "done", Sample.SBool true)]].
Proof.
  rewrite (parseJSON_open_last_line (V := Sample.JsonValue)
             [Sample.js "{'status':'pulling'}" ++ [10] ++ Sample.js "{'do";
              Sample.js "ne':true}"] 125 eq_refl ltac:(discriminate)).
  vm_compute. reflexivity.
Defined.

(** X4.  When the reader fails after delivering [chunks], the generator has
    emitted the lines of the text so far that a newline closes, in order,
    and then throws the reader's error; the line standing open in the buffer
    is never parsed. *)
Theorem parseJSON_reader_failure {V : Type} `{Json V} (chunks : list chunk) (e : Thrown) :
  parseJSON (stream_then chunks (Errored e))
  = (try_parse <$> removelast (lines (concat (Utf8.decode <$> chunks))), Threw e).
Proof.
  unfold parseJSON. rewrite parseJSON_loop_failing by apply not_elem_of_nil. reflexivity.
Qed.

(** ** utils.ts: more on the iterator *)

Section IteratorMore.
Context {V : Type} `{Json V}.

(** A line that [JSON.parse] rejects leaves no mark on a run. *)
Lemma iterate_loop_yields (emits : list (Emit V)) (ending : Ending) :
  iterate_loop emits ending = iterate_loop (Yielded <$> yields emits) ending.
Proof.
  induction emits as [|[message|part] emits IH]; cbn; [reflexivity| |exact IH].
  destruct (error_in message) as [[|]|]; try reflexivity.
  destruct (done_or_success message); [reflexivity|]. unfold yields in IH. by rewrite IH.
Qed.

Lemma yielded_prefix (emits : list (Emit V)) (ending : Ending) :
  yielded (iterate_loop emits ending) `prefix_of` yields emits.
Proof.
  induction emits as [|[message|part] emits IH]; cbn.
  - destruct ending; apply prefix_nil.
  - destruct (error_in message) as [[|]|]; cbn; try apply prefix_nil.
    destruct (done_or_success message); cbn; [apply prefix_cons, prefix_nil|].
    apply prefix_cons, IH.
  - apply IH.
Qed.

Lemma yielded_sound (emits : list (Emit V)) (ending : Ending) :
  Forall (fun m => error_in m = Some false) (yielded (iterate_loop emits ending))
  /\ Forall (fun m => done_or_success m = false)
            (removelast (yielded (iterate_loop emits ending))).
Proof.
  induction emits as [|[message|part] emits [IHe IHd]]; cbn.
  - destruct ending; cbn; auto.
  - destruct (error_in message) as [[|]|] eqn:He; cbn; auto.
    destruct (done_or_success message) eqn:Hd; cbn; [auto|].
    split; [by constructor|].
    destruct (yielded (iterate_loop emits ending)); [constructor|].
    constructor; assumption.
  - auto.
Qed.

End IteratorMore.

(** X5.  What a consumer gets out of any run of the iterator: the messages
    yielded are an initial stretch of what the decoder yields, none of them
    has an [error] field, none but the last carries the completion signal,
    and the removal callback runs once when the loop ends normally and not at
    all otherwise. *)
Theorem iterate_yields_sound {V : Type} `{Json V} (itr : Trace V) :
  let r := iterate itr in
  yielded r `prefix_of` yields (fst itr)
  /\ Forall (fun m => error_in m = Some false) (yielded r)
  /\ Forall (fun m => done_or_success m = false) (removelast (yielded r))
  /\ callbacks r = match outcome r with Completed => 1%nat | Raised _ => 0%nat end.
Proof.
  cbn zeta. unfold iterate. split; [apply yielded_prefix|].
  split; [apply yielded_sound|]. split; [apply yielded_sound|]. apply callbacks_outcome.
Qed.

(** Where a run over a stream of messages stops: at the first message that
    is not yielded, or that carries the completion signal. *)
Lemma iterate_messages {V : Type} `{Json V} (ms : list V) :
  let r := iterate (Yielded <$> ms, Returned) in
  match list_find (fun m => error_in m <> Some false \/ done_or_success m = true) ms with
  | None => yielded r = ms /\ outcome r = Raised no_completion /\ callbacks r = 0%nat
  | Some (i, m) =>
    match error_in m with
    | Some false =>
      yielded r = take (S i) ms /\ outcome r = Completed /\ callbacks r = 1%nat
    | Some true =>
      yielded r = take i ms /\ outcome r = Raised (Error (error_message m))
      /\ callbacks r = 0%nat
    | None =>
      yielded r = take i ms /\ outcome r = Raised (in_operator_error m)
      /\ callbacks r = 0%nat
    end
  end.
Proof.
  cbn zeta. unfold iterate. cbn [fst snd].
  induction ms as [|m ms IH]; cbn; [auto|].
  case_decide as Hstop.
  - cbn. destruct (error_in m) as [[|]|] eqn:He; cbn; auto.
    destruct Hstop as [Hne|Hd]; [done|]. rewrite Hd. cbn. rewrite take_0. auto.
  - assert (He : error_in m = Some false).
    { destruct (error_in m) as [[|]|]; try reflexivity; destruct Hstop; left; discriminate. }
    assert (Hd : done_or_success m = false).
    { destruct (done_or_success m); [destruct Hstop; by right|reflexivity]. }
    rewrite He, Hd.
    destruct (list_find _ ms) as [[i m']|]; cbn in *.
    + destruct (error_in m') as [[|]|]; destruct IH as (Hy & Ho & Hc); rewrite Hy; auto.
    + destruct IH as (Hy & Ho & Hc). rewrite Hy. auto.
Qed.

(** X6.  Decoder and iterator together.  When the body of a streamed
    response decodes to lines closed by newlines, the consumer receives the
    parsed lines, lines that do not parse passed over, up to the first one
    that ends the run.  A line with the completion signal (and no [error]
    field) is handed out as well, and the loop ends normally, the removal
    callback called once.  A line with an [error] field is not handed out:
    the loop raises its text.  A line that parses to something that is no
    object is not handed out either: the loop raises the [TypeError] of the
    [in] operator.  And when no line ends the run, the consumer receives
    them all and then the error of a stream without completion. *)
Theorem streamed_body_delivery {V : Type} `{Json V} (chunks : list chunk) (body : text) :
  concat (Utf8.decode <$> chunks) = body ++ [NL] ->
  let messages := omap JSON_parse (lines body) in
  let r := iterate (parseJSON (stream_of chunks)) in
  match list_find (fun m => error_in m <> Some false \/ done_or_success m = true) messages with
  | None =>
    yielded r = messages /\ outcome r = Raised no_completion /\ callbacks r = 0%nat
  | Some (i, m) =>
    match error_in m with
    | Some false =>
      yielded r = take (S i) messages /\ outcome r = Completed /\ callbacks r = 1%nat
    | Some true =>
      yielded r = take i messages /\ outcome r = Raised (Error (error_message m))
      /\ callbacks r = 0%nat
    | None =>
      yielded r = take i messages /\ outcome r = Raised (in_operator_error m)
      /\ callbacks r = 0%nat
    end
  end.
Proof.
  intros Hw. cbn zeta.
  destruct (parseJSON_terminated_lines chunks body Hw) as (Hy & _ & He).
  unfold iterate. rewrite iterate_loop_yields, Hy, He.
  exact (iterate_messages _).
Qed.

Lemma streamed_body_delivery_witness :
  yielded (iterate (V := Sample.JsonValue) (parseJSON (stream_of
    [Sample.js "{'status':'pulling'}" ++ [10] ++ Sample.js "oops" ++ [10]
     ++ Sample.js "{'status':'suc";
     Sample.js "cess'}" ++ [10] ++ Sample.js "{'status':'late'}" ++ [10]])))
  = [Sample.JObject [(Sample.codes "status", Sample.SString (Sample.codes "pulling"))];
     Sample.JObject [(Sample.codes "status", Sample.SString (Sample.codes "success"))]]
  /\ outcome (iterate (V := Sample.JsonValue) (parseJSON (stream_of
       [Sample.js "{'status':'pulling'}" ++ [10] ++ Sample.js "null" ++ [10]
        ++ Sample.js "{'status':'success'}" ++ [10]])))
     = Raised (TypeError "Cannot use 'in' operator to search for 'error'").
Proof.
  split.
  - pose proof (streamed_body_delivery (V := Sample.JsonValue)
      [Sample.js "{'status':'pulling'}" ++ [10] ++ Sample.js "oops" ++ [10]
       ++ Sample.js "{'status':'suc";
       Sample.js "cess'}" ++ [10] ++ Sample.js "{'status':'late'}" ++ [10]]
      (Sample.js "{'status':'pulling'}" ++ [10] ++ Sample.js "oops" ++ [10]
       ++ Sample.js "{'status':'success'}" ++ [10] ++ Sample.js "{'status':'late'}")
      eq_refl) as Hrun.
    cbn zeta in Hrun.
    change (list_find _ _) with
      (Some (1%nat, Sample.JObject [(Sample.codes "status",
                                     Sample.SString (Sample.codes "success"))])) in Hrun.
    cbn [error_in Sample.json_fragment] in Hrun.
    change (bool_decide _) with false in Hrun.
    destruct Hrun as (Hy & _). rewrite Hy. vm_compute. reflexivity.
  - pose proof (streamed_body_delivery (V := Sample.JsonValue)
      [Sample.js "{'status':'pulling'}" ++ [10] ++ Sample.js "null" ++ [10]
       ++ Sample.js "{'status':'success'}" ++ [10]]
      (Sample.js "{'status':'pulling'}" ++ [10] ++ Sample.js "null" ++ [10]
       ++ Sample.js "{'status':'success'}")
      eq_refl) as Hrun.
    cbn zeta in Hrun.
    change (list_find _ _) with (Some (1%nat, Sample.JScalar Sample.SNull)) in Hrun.
    cbn [error_in Sample.json_fragment] in Hrun.
    destruct Hrun as (_ & Ho & _). rewrite Ho. reflexivity.
Defined.

(** ** utils.ts: requests *)

Section RequestFacts.
Context {V : Type} `{Host}.

Lemma get_checked (fetch : Fetch V) url caller :
  Utils.get fetch url caller
  = Utils.checked fetch url (Utils.with_headers None BUndefined None caller).
Proof.
  unfold Utils.get, Utils.fetchWithHeaders, Utils.checked. cbn.
  destruct (fetch _ _) as [r|e]; [|reflexivity]. cbn.
  destruct (Utils.checkOk r); reflexivity.
Qed.

Lemma head_checked (fetch : Fetch V) url caller :
  Utils.head fetch url caller
  = Utils.checked fetch url (Utils.with_headers (Some "HEAD") BUndefined None caller).
Proof.
  unfold Utils.head, Utils.fetchWithHeaders, Utils.checked. cbn.
  destruct (fetch _ _) as [r|e]; [|reflexivity]. cbn.
  destruct (Utils.checkOk r); reflexivity.
Qed.

Lemma post_checked (fetch : Fetch V) url data signal caller :
  Utils.post fetch url data signal caller
  = Utils.checked fetch url
      (Utils.with_headers (Some "POST") (Utils.formattedData data) signal caller).
Proof.
  unfold Utils.post, Utils.fetchWithHeaders, Utils.checked. cbn.
  destruct (fetch _ _) as [r|e]; [|reflexivity]. cbn.
  destruct (Utils.checkOk r); reflexivity.
Qed.

Lemma del_checked (fetch : Fetch V) url data caller :
  Utils.del fetch url data caller
  = Utils.checked fetch url
      (Utils.with_headers (Some "DELETE") (BText (JSON_stringify data)) None caller).
Proof.
  unfold Utils.del, Utils.fetchWithHeaders, Utils.checked. cbn.
  destruct (fetch _ _) as [r|e]; [|reflexivity]. cbn.
  destruct (Utils.checkOk r); reflexivity.
Qed.

Lemma with_headers_spread method body signal caller key :
  headers (Utils.with_headers method body signal caller) !! key = Utils.spread caller key.
Proof.
  unfold Utils.with_headers, Utils.spread. cbn [headers].
  rewrite lookup_union. destruct (default ∅ caller !! key) as [v|].
  - by destruct (Utils.defaultHeaders !! key).
  - by destruct (Utils.defaultHeaders !! key).
Qed.




Lemma checkOk_json (response : Response V) (ct message : string) :
  ok response = false ->
  content_type response = Some ct ->
  Str.includes "application/json" ct = true ->
  json_error response = Normal (Some message) ->
  Utils.checkOk response = Throw (ResponseError message (status response)).
Proof.
  intros Hok Hct Hin Hj. unfold Utils.checkOk. rewrite Hok, Hct, Hin, Hj. reflexivity.
Qed.

End RequestFacts.



(** X8.  Each of [get], [head], [post] and [del] calls [fetch] once, with
    its method (none for [get]), at the address it was given, and never a
    second time.  In the headers that go out, an entry of the caller stands
    where the caller gives one, and the default ([Content-Type], [Accept],
    [User-Agent]) where it gives none.  A failure of the transport is passed
    on as it is, and a response with a 2xx status is returned as it is. *)
Theorem verbs_call_fetch_once {V : Type} `{Host} (fetch : Fetch V) (url : string)
    (data : PostData) (fields : list (string * string)) (signal : option nat)
    (caller : option (gmap string HeaderValue)) :
  let sent (io : IO (Response V)) (verb : option string) :=
    exists options,
      requests io = [(url, options)]
      /\ method options = verb
      /\ (forall key, headers options !! key = Utils.spread caller key)
      /\ (forall e, fetch url options = Throw e -> result io = Throw e)
      /\ (forall response, fetch url options = Normal response -> ok response = true ->
          result io = Normal response) in
  sent (Utils.get fetch url caller) None
  /\ sent (Utils.head fetch url caller) (Some "HEAD")
  /\ sent (Utils.post fetch url data signal caller) (Some "POST")
  /\ sent (Utils.del fetch url fields caller) (Some "DELETE").
Proof.
  cbn zeta.
  assert (Hchecked : forall options,
    (forall e, fetch url options = Throw e ->
               result (Utils.checked fetch url options) = Throw e)
    /\ (forall response, fetch url options = Normal response -> ok response = true ->
        result (Utils.checked fetch url options) = Normal response)).
  { intros options. unfold Utils.checked, result. cbn [snd]. split.
    - intros e ->. reflexivity.
    - intros response -> Hok. unfold Utils.checkOk. rewrite Hok. reflexivity. }
  rewrite get_checked, head_checked, post_checked, del_checked.
  repeat split; eexists; (split; [reflexivity|]); (split; [reflexivity|]);
    (split; [intros key; apply with_headers_spread|]); apply Hchecked.
Qed.

Lemma verbs_call_fetch_once_witness :
  result (Utils.get Sample.fetch "http://127.0.0.1:11434/api/tags" None)
  = Normal (Sample.reply 200 "OK" None)
  /\ length (requests (Utils.get Sample.fetch "http://127.0.0.1:11434/api/tags" None)) = 1%nat.
Proof.
  destruct (verbs_call_fetch_once (H := Sample.platform) Sample.fetch
              "http://127.0.0.1:11434/api/tags" DUndefined [] None None)
    as ((options & Hq & _ & _ & _ & Hok) & _).
  split; [apply Hok; reflexivity|]. rewrite Hq. reflexivity.
Defined.

(** ** browser.ts: the operations of the client *)

Section FacadeFacts.
Context {V : Type} `{Json V} `{Host}.
Variables (fetch : Fetch V) (c : Ollama).

Lemma processStreamableRequest_requests endpoint stream fields :
  requests (Browser.processStreamableRequest fetch c endpoint stream fields)
  = [(host (config c) +:+ "/api/" +:+ endpoint, Browser.streamable_request c stream fields)].
Proof.
  unfold Browser.processStreamableRequest, Browser.streamable_request.
  destruct (default false stream); rewrite post_checked; unfold Utils.checked; cbn.
  - destruct (fetch _ _) as [r|e]; [|reflexivity].
    destruct (Utils.checkOk r); [|reflexivity]. cbn.
    destruct (stream_body r); reflexivity.
  - destruct (fetch _ _) as [r|e]; [|reflexivity].
    destruct (Utils.checkOk r); [|reflexivity]. cbn.
    destruct (json r); reflexivity.
Qed.

Lemma processStreamableRequest_throws endpoint stream fields (r : Response V) e :
  (forall url options, fetch url options = Normal r) ->
  Utils.checkOk r = Throw e ->
  result (Browser.processStreamableRequest fetch c endpoint stream fields) = Throw e.
Proof.
  intros Hf He. unfold Browser.processStreamableRequest.
  destruct (default false stream); rewrite post_checked; unfold Utils.checked; cbn;
    rewrite Hf, He; reflexivity.
Qed.

End FacadeFacts.

(** X9.  Every operation of the client that talks to the server sends one
    request, to its own endpoint under the configured host, with the method
    of the endpoint ([list] and [ps] leave the method to [fetch]), and with
    the header [Authorization: Bearer <apiKey>]; the operations that may
    stream do so whether or not they are asked to stream. *)
Theorem operations_send_authorized_request {V : Type} `{Json V} `{Host}
    (fetch : Fetch V) (c : Ollama) (model : string) (request : list (string * string))
    (stream insecure : option bool) (modelfile quantize : option string) :
  let sent {A : Type} (io : IO A) (verb : option string) (endpoint : string) :=
    exists options,
      requests io = [(host (config c) +:+ "/api/" +:+ endpoint, options)]
      /\ method options = verb
      /\ headers options !! "Authorization" = Some (HStr (bearer (config c))) in
  sent (Browser.list_models fetch c) None "tags"
  /\ sent (Browser.ps fetch c) None "ps"
  /\ sent (Browser.show fetch c request) (Some "POST") "show"
  /\ sent (Browser.embed fetch c request) (Some "POST") "embed"
  /\ sent (Browser.embeddings fetch c request) (Some "POST") "embeddings"
  /\ sent (Browser.copy fetch c request) (Some "POST") "copy"
  /\ sent (Browser.delete fetch c model) (Some "DELETE") "delete"
  /\ sent (Browser.create fetch c model stream modelfile quantize) (Some "POST") "create"
  /\ sent (Browser.pull fetch c model stream insecure) (Some "POST") "pull"
  /\ sent (Browser.push fetch c model stream insecure) (Some "POST") "push".
Proof.
  cbn zeta.
  unfold Browser.list_models, Browser.ps, Browser.show, Browser.embed, Browser.embeddings,
    Browser.copy, Browser.delete, Browser.create, Browser.pull, Browser.push.
  rewrite !processStreamableRequest_requests, !get_checked, !post_checked, !del_checked.
  unfold Utils.checked, lift. cbn.
  repeat split; eexists;
    (split;
      [first [reflexivity
             |destruct (fetch _ _) as [r|e]; [|reflexivity];
              destruct (Utils.checkOk r); [|reflexivity]; cbn;
              try destruct (json r); reflexivity]
      |split; [reflexivity|apply with_headers_authorization]]).
Qed.

(** X10.  A server that answers with a status outside 2xx and a JSON body
    whose [error] field is a non-empty text makes every operation throw a
    [ResponseError] with that text and that status; nothing is returned, and
    a streaming operation hands out no iterator. *)
Theorem operations_surface_server_error {V : Type} `{Json V} `{Host}
    (fetch : Fetch V) (c : Ollama) (r : Response V) (ct message : string)
    (model : string) (request : list (string * string))
    (stream insecure : option bool) (modelfile quantize : option string) :
  (forall url options, fetch url options = Normal r) ->
  ok r = false ->
  content_type r = Some ct ->
  Str.includes "application/json" ct = true ->
  json_error r = Normal (Some message) ->
  message <> "" ->
  result (Browser.list_models fetch c) = Throw (ResponseError message (status r))
  /\ result (Browser.ps fetch c) = Throw (ResponseError message (status r))
  /\ result (Browser.show fetch c request) = Throw (ResponseError message (status r))
  /\ result (Browser.embed fetch c request) = Throw (ResponseError message (status r))
  /\ result (Browser.embeddings fetch c request) = Throw (ResponseError message (status r))
  /\ result (Browser.copy fetch c request) = Throw (ResponseError message (status r))
  /\ result (Browser.delete fetch c model) = Throw (ResponseError message (status r))
  /\ result (Browser.create fetch c model stream modelfile quantize)
     = Throw (ResponseError message (status r))
  /\ result (Browser.pull fetch c model stream insecure)
     = Throw (ResponseError message (status r))
  /\ result (Browser.push fetch c model stream insecure)
     = Throw (ResponseError message (status r)).
Proof.
  intros Hf Hok Hct Hin Hj Hm.
  pose proof (checkOk_json r ct message Hok Hct Hin Hj) as He.
  unfold Browser.list_models, Browser.ps, Browser.show, Browser.embed, Browser.embeddings,
    Browser.copy, Browser.delete, Browser.create, Browser.pull, Browser.push.
  rewrite !(processStreamableRequest_throws fetch c _ _ _ r _ Hf He).
  rewrite !get_checked, !post_checked, !del_checked.
  unfold Utils.checked. cbn. rewrite !Hf, !He. cbn. repeat split; reflexivity.
Qed.

Lemma operations_surface_server_error_witness :
  result (Browser.show Sample.unknown_model (Sample.client "http://127.0.0.1:11434")
            [("name", "llama2")])
  = Throw (ResponseError "model 'llama2' not found" 404)
  /\ result (Browser.pull Sample.unknown_model (Sample.client "http://127.0.0.1:11434")
               "llama2" (Some true) None)
     = Throw (ResponseError "model 'llama2' not found" 404).
Proof.
  pose proof (operations_surface_server_error (V := Sample.JsonValue)
    Sample.unknown_model (Sample.client "http://127.0.0.1:11434") Sample.not_found
    "application/json; charset=utf-8" "model 'llama2' not found" "llama2"
    [("name", "llama2")] (Some true) None None None
    (fun _ _ => eq_refl) eq_refl eq_refl eq_refl eq_refl ltac:(discriminate))
    as (_ & _ & Hshow & _ & _ & _ & _ & _ & Hpull & _).
  split; [exact Hshow|exact Hpull].
Defined.

(** ** browser.ts: the registry of streamed requests *)

Section RegistryMore.
Context {V : Type} `{Json V} `{Host}.

Lemma consume_is_Some self c it :
  heap c !! self = Some it ->
  exists (r : Run V) c', Browser.consume self c = Some (r, c')
    /\ r = iterate (Decoder_trace (itr it))
    /\ heap c' !! self = Some {| aborted := aborted it; itr := Finished |}.
Proof.
  intros Hit. unfold Browser.consume. rewrite Hit. cbn.
  eexists _, _. split; [reflexivity|]. split; [reflexivity|]. cbn.
  apply lookup_insert_eq.
Qed.

Lemma abort_heap_lookup c i :
  heap (Browser.abort c) !! i
  = if decide (i ∈ ongoingStreamedRequests c)
    then Browser.Iterator_abort <$> heap c !! i else heap c !! i.
Proof. unfold Browser.abort. cbn [heap]. apply abort_loop_lookup. Qed.

End RegistryMore.

(** X11.  What a streamable request leaves behind when it succeeds.  It has
    sent its one request and got a response with a 2xx status.  Asked to
    stream, it hands out a new iterator: an object that did not exist
    before, put last in the registry, not aborted, which reads the body of
    that response from its start and is bound to the request by the signal
    that went to [fetch]; every other iterator is as it was.  Not asked to
    stream, it hands out what the body of that response parses to, sends no
    signal and leaves the client as it was.  Either way the registry stays
    well formed. *)
Theorem processStreamableRequest_outcome {V : Type} `{Json V} `{Host}
    (fetch : Fetch V) (c : Ollama) (endpoint : string) (stream : option bool)
    (fields : list (string * option string)) (c' : Ollama) (s : Browser.Streamable) :
  Browser.registry_ok c ->
  result (Browser.processStreamableRequest fetch c endpoint stream fields) = Normal (c', s) ->
  Browser.registry_ok c'
  /\ requests (Browser.processStreamableRequest fetch c endpoint stream fields)
     = [(host (config c) +:+ "/api/" +:+ endpoint, Browser.streamable_request c stream fields)]
  /\ exists response,
       fetch (host (config c) +:+ "/api/" +:+ endpoint)
             (Browser.streamable_request c stream fields) = Normal response
       /\ ok response = true
       /\ if default false stream then
            exists i body,
              s = Browser.Streamed i
              /\ stream_body response = Some body
              /\ signal (Browser.streamable_request c stream fields) = Some i
              /\ ongoingStreamedRequests c' = ongoingStreamedRequests c ++ [i]
              /\ heap c !! i = None
              /\ heap c' !! i = Some {| aborted := false; itr := Reading [] [] body |}
              /\ (forall j, j <> i -> heap c' !! j = heap c !! j)
          else
            exists v,
              s = Browser.Buffered v
              /\ json response = Normal v
              /\ signal (Browser.streamable_request c stream fields) = None
              /\ c' = c.
Proof.
  intros Hok Hres. split; [|split; [apply processStreamableRequest_requests|]].
  - revert Hres. unfold Browser.processStreamableRequest. rewrite !post_checked.
    unfold Utils.checked. cbn.
    destruct (default false stream).
    + destruct (fetch _ _) as [r|e]; [|discriminate].
      destruct (Utils.checkOk r); [|discriminate]. cbn.
      destruct (stream_body r) as [body|]; [|discriminate]. cbn. intros [= <- _].
      assert (Hfresh : heap c !! fresh (dom (heap c)) = None)
        by (apply not_elem_of_dom, is_fresh).
      destruct Hok as [Hnd Hreg]. split; cbn [heap ongoingStreamedRequests].
      * apply NoDup_app. split; [assumption|]. split; [|apply NoDup_singleton].
        intros x Hx ->%list_elem_of_singleton. destruct (Hreg _ Hx) as [it Hit]. congruence.
      * intros x [Hx| ->%list_elem_of_singleton]%elem_of_app.
        -- destruct (decide (x = fresh (dom (heap c)))) as [->|Hne].
           ++ rewrite lookup_insert_eq. eauto.
           ++ rewrite lookup_insert_ne by congruence. by apply Hreg.
        -- rewrite lookup_insert_eq. eauto.
    + destruct (fetch _ _) as [r|e]; [|discriminate].
      destruct (Utils.checkOk r); [|discriminate]. cbn.
      destruct (json r); [|discriminate]. cbn. by intros [= <- _].
  - revert Hres. unfold Browser.processStreamableRequest, Browser.streamable_request.
    rewrite !post_checked. unfold Utils.checked, Utils.checkOk. cbn.
    destruct (default false stream).
    + destruct (fetch _ _) as [r|e] eqn:Ef; [|discriminate].
      destruct (ok r) eqn:Hr; [|discriminate]. cbn.
      destruct (stream_body r) as [body|] eqn:Eb; [|discriminate]. cbn. intros [= <- <-].
      exists r. split; [reflexivity|]. split; [exact Hr|].
      exists (fresh (dom (heap c))), body. cbn.
      split; [reflexivity|]. split; [exact Eb|]. split; [reflexivity|].
      split; [reflexivity|]. split; [apply not_elem_of_dom, is_fresh|].
      split; [apply lookup_insert_eq|]. intros j Hj. by rewrite lookup_insert_ne.
    + destruct (fetch _ _) as [r|e] eqn:Ef; [|discriminate].
      destruct (ok r) eqn:Hr; [|discriminate]. cbn.
      destruct (json r) as [v|] eqn:Ej; [|discriminate]. cbn. intros [= <- <-].
      exists r. split; [reflexivity|]. split; [exact Hr|].
      exists v. auto.
Qed.

Lemma busy_registry_ok : Browser.registry_ok Sample.busy.
Proof.
  split.
  - cbn. repeat constructor; absent.
  - intros request Hin. cbn in Hin.
    repeat (apply elem_of_cons in Hin as [->|Hin]; [vm_compute; eauto|]).
    by apply elem_of_nil in Hin.
Qed.

Lemma processStreamableRequest_outcome_witness :
  exists c',
    result (Browser.processStreamableRequest Sample.fetch Sample.busy "pull" (Some true)
              [("name", Some "llama2")])
    = Normal (c', Browser.Streamed 2%nat)
    /\ ongoingStreamedRequests c' = [0%nat; 1%nat; 2%nat]
    /\ heap c' !! 2%nat
       = Some {| aborted := false; itr := Reading [] [] Sample.pull_stream |}
    /\ (fun call => signal call.2)
         <$> requests (Browser.processStreamableRequest Sample.fetch Sample.busy "pull"
                         (Some true) [("name", Some "llama2")])
       = [Some 2%nat].
Proof.
  destruct (result (Browser.processStreamableRequest Sample.fetch Sample.busy "pull"
                      (Some true) [("name", Some "llama2")]))
    as [[c' s]|e] eqn:E; [|vm_compute in E; discriminate E].
  destruct (processStreamableRequest_outcome (V := Sample.JsonValue) (H0 := Sample.platform)
              Sample.fetch Sample.busy "pull" (Some true) [("name", Some "llama2")] c' s
              busy_registry_ok E)
    as (_ & Hq & response & Hf & _ & i & body & -> & Hb & Hsig & Hreg & _ & Hheap & _).
  assert (Hi : i = 2%nat).
  { vm_compute in Hsig. by injection Hsig as <-. }
  subst i. exists c'. split; [reflexivity|]. split; [exact Hreg|].
  assert (Hbody : body = Sample.pull_stream).
  { vm_compute in Hf. injection Hf as <-. vm_compute in Hb. by injection Hb as <-. }
  split; [by rewrite Hheap, Hbody|].
  rewrite Hq. cbn [fmap list_fmap snd]. by rewrite Hsig.
Defined.

Lemma doneCallback_iter_heap (self n : nat) (c : Ollama) :
  heap (Nat.iter n (Browser.doneCallback self) c) = heap c.
Proof.
  induction n as [|n IH]; [reflexivity|]. cbn. unfold Browser.doneCallback at 1.
  destruct (Browser.indexOf _ _); exact IH.
Qed.

(** X12.  The life of one streamed request.  After a streaming request
    succeeded and its iterator was consumed to the end, the run is the one
    of the iterator over [parseJSON] of the body of the response the request
    got.  The registry is what it was before the request when the loop ended
    normally, and still holds the iterator when the loop ended with an error
    (an [error] message, a stream without completion signal, a failing
    reader): only the completion signal takes an iterator out.  The registry
    stays well formed. *)
Theorem streamed_request_lifecycle {V : Type} `{Json V} `{Host}
    (fetch : Fetch V) (c c1 : Ollama) (endpoint : string)
    (fields : list (string * option string)) (i : nat) :
  Browser.registry_ok c ->
  result (Browser.processStreamableRequest fetch c endpoint (Some true) fields)
  = Normal (c1, Browser.Streamed i) ->
  exists (r : Run V) (c2 : Ollama) (response : Response V) (body : ReadableStream),
    fetch (host (config c) +:+ "/api/" +:+ endpoint)
          (Browser.streamable_request c (Some true) fields) = Normal response
    /\ stream_body response = Some body
    /\ Browser.consume i c1 = Some (r, c2)
    /\ r = iterate (parseJSON body)
    /\ ongoingStreamedRequests c2
       = match outcome r with
         | Completed => ongoingStreamedRequests c
         | Raised _ => ongoingStreamedRequests c ++ [i]
         end
    /\ heap c2 !! i = Some {| aborted := false; itr := Finished |}
    /\ Browser.registry_ok c2.
Proof.
  intros Hok Hres.
  destruct (processStreamableRequest_registers fetch c endpoint fields c1 i Hok Hres)
    as (Hok1 & Hreg & Hnew & (response & body & Hf & _ & Hb & _ & Hbody) & Hothers).
  destruct (consume_is_Some i c1 _ Hbody) as (r & c2 & Hc & Hr & Hheap).
  exists r, c2, response, body. split; [exact Hf|]. split; [exact Hb|]. split; [exact Hc|].
  assert (Hrun : r = iterate (parseJSON body)).
  { rewrite Hr. cbn. unfold parseJSON.
    destruct (parseJSON_loop [] body) as [emits ending]. reflexivity. }
  split; [exact Hrun|].
  assert (Hi : i ∉ ongoingStreamedRequests c).
  { intros Hin. destruct Hok as [_ Hsome]. destruct (Hsome _ Hin) as [it Hit]. congruence. }
  assert (Hregistry : ongoingStreamedRequests c2
     = match outcome r with
       | Completed => ongoingStreamedRequests c
       | Raised _ => ongoingStreamedRequests c ++ [i]
       end).
  { rewrite (consume_registry i c1 r c2 (proj1 Hok1) Hc), Hreg.
    destruct (outcome r); [|reflexivity].
    rewrite filter_app, filter_others by assumption.
    rewrite filter_cons. destruct (decide (i <> i)); [done|]. apply app_nil_r. }
  split; [exact Hregistry|]. split; [exact Hheap|].
  revert Hc. unfold Browser.consume. rewrite Hbody. cbn. intros [= Hr' Hc2].
  split.
  - rewrite Hregistry. destruct (outcome r); [apply Hok|rewrite <- Hreg; apply Hok1].
  - intros request Hin. rewrite <- Hc2. cbn [heap].
    destruct (decide (request = i)) as [->|Hne]; [rewrite lookup_insert_eq; eauto|].
    rewrite lookup_insert_ne by congruence.
    assert (Hin1 : request ∈ ongoingStreamedRequests c1).
    { rewrite Hregistry in Hin. rewrite Hreg.
      destruct (outcome r); [apply elem_of_app; by left|exact Hin]. }
    assert (Hheap1 : is_Some (heap c1 !! request)) by (by apply Hok1).
    by rewrite doneCallback_iter_heap.
Qed.

Lemma streamed_request_lifecycle_witness :
  exists (r : Run Sample.JsonValue) (c1 c2 : Ollama),
    result (Browser.processStreamableRequest Sample.fetch
              (Sample.client "http://127.0.0.1:11434") "pull" (Some true)
              [("name", Some "llama2")])
    = Normal (c1, Browser.Streamed 0%nat)
    /\ ongoingStreamedRequests c1 = [0%nat]
    /\ Browser.consume 0%nat c1 = Some (r, c2)
    /\ r = iterate (parseJSON Sample.pull_stream)
    /\ outcome r = Completed
    /\ ongoingStreamedRequests c2 = [].
Proof.
  set (c := Sample.client "http://127.0.0.1:11434").
  set (c1 := {| config := config c;
                ongoingStreamedRequests := [0%nat];
                heap := {[ 0%nat := {| aborted := false;
                                       itr := Reading [] [] Sample.pull_stream |} ]} |}).
  assert (E : result (Browser.processStreamableRequest Sample.fetch c "pull" (Some true)
                        [("name", Some "llama2")])
              = Normal (c1, Browser.Streamed 0%nat)) by (vm_compute; reflexivity).
  destruct (streamed_request_lifecycle (V := Sample.JsonValue) (H0 := Sample.platform)
              Sample.fetch c c1 "pull" [("name", Some "llama2")] 0%nat
              (registry_ok_new (config c)) E)
    as (r & c2 & response & body & Hf & Hb & Hc & Hr & Hreg & _).
  assert (Hbody : body = Sample.pull_stream).
  { vm_compute in Hf. injection Hf as <-. vm_compute in Hb. by injection Hb as <-. }
  subst body.
  exists r, c1, c2. split; [exact E|]. split; [reflexivity|]. split; [exact Hc|].
  split; [exact Hr|].
  assert (Ho : outcome r = Completed) by (rewrite Hr; vm_compute; reflexivity).
  split; [exact Ho|]. rewrite Hreg, Ho. reflexivity.
Defined.

(** X13.  [abort()] reaches the iterators in the registry and no others: an
    iterator that is not registered, because its stream has completed, is
    left as it is, and so is the configuration. *)
Theorem abort_spares_unregistered (c : Ollama) (i : nat) :
  i ∉ ongoingStreamedRequests c ->
  heap (Browser.abort c) !! i = heap c !! i
  /\ config (Browser.abort c) = config c.
Proof.
  intros Hi. split; [|reflexivity]. rewrite abort_heap_lookup.
  destruct (decide (i ∈ ongoingStreamedRequests c)); [done|reflexivity].
Qed.

Lemma abort_spares_unregistered_witness :
  heap (Browser.abort (Browser.doneCallback 0%nat Sample.busy)) !! 0%nat
  = heap Sample.busy !! 0%nat.
Proof.
  apply (abort_spares_unregistered
           (Browser.doneCallback 0%nat Sample.busy) 0%nat ltac:(absent)).
Defined.

(** X14.  Cancelling one stream through its iterator touches that iterator
    only: the other iterators and the registry are as before, the iterator
    stays registered, a later [abort()] of the client comes to the same as
    if the single cancellation had not happened, and cancelling the same
    iterator again changes nothing. *)
Theorem abort_iterator_isolated (c : Ollama) (self : nat) :
  self ∈ ongoingStreamedRequests c ->
  ongoingStreamedRequests (Browser.abort_iterator self c) = ongoingStreamedRequests c
  /\ heap (Browser.abort_iterator self c) !! self = Browser.Iterator_abort <$> heap c !! self
  /\ (forall j, j <> self -> heap (Browser.abort_iterator self c) !! j = heap c !! j)
  /\ Browser.abort (Browser.abort_iterator self c) = Browser.abort c
  /\ Browser.abort_iterator self (Browser.abort_iterator self c)
     = Browser.abort_iterator self c.
Proof.
  intros Hin. split; [reflexivity|]. split; [apply lookup_alter_eq|].
  split; [intros j Hj; by apply lookup_alter_ne|].
  split; cycle 1.
  { unfold Browser.abort_iterator. cbn [config ongoingStreamedRequests heap]. f_equal.
    apply map_eq. intros j. destruct (decide (j = self)) as [->|Hne].
    - rewrite !lookup_alter_eq. destruct (heap c !! self) as [it|]; cbn; [|reflexivity].
      by rewrite Iterator_abort_idempotent.
    - by rewrite !lookup_alter_ne. }
  unfold Browser.abort. cbn [config ongoingStreamedRequests Browser.abort_iterator heap].
  f_equal. apply map_eq. intros j. rewrite !abort_loop_lookup.
  destruct (decide (j ∈ ongoingStreamedRequests c)) as [Hj|Hj].
  - destruct (decide (j = self)) as [->|Hne].
    + rewrite lookup_alter_eq. destruct (heap c !! self) as [it|]; cbn; [|reflexivity].
      by rewrite Iterator_abort_idempotent.
    + by rewrite lookup_alter_ne.
  - rewrite lookup_alter_ne; [reflexivity|]. intros ->. done.
Qed.

Lemma abort_iterator_isolated_witness :
  ongoingStreamedRequests (Browser.abort_iterator 1%nat Sample.busy) = [0%nat; 1%nat]
  /\ (aborted <$> heap (Browser.abort_iterator 1%nat Sample.busy) !! 1%nat) = Some true
  /\ (aborted <$> heap (Browser.abort_iterator 1%nat Sample.busy) !! 0%nat) = Some false.
Proof.
  destruct (abort_iterator_isolated Sample.busy 1%nat
              ltac:(cbn; apply elem_of_cons; right; apply elem_of_cons; by left))
    as (Hreg & Hself & Hothers & _ & _).
  split; [exact Hreg|]. rewrite Hself, (Hothers 0%nat ltac:(discriminate)).
  split; reflexivity.
Defined.

(** X15.  The removal callback takes its own iterator out of a registry
    that holds each iterator once, and nothing else: the other iterators
    stay, in their order, no iterator object changes, and a second call
    finds nothing to remove. *)
Theorem doneCallback_removes_only_self (c : Ollama) (self : nat) :
  NoDup (ongoingStreamedRequests c) ->
  ongoingStreamedRequests (Browser.doneCallback self c)
  = filter (fun request => request <> self) (ongoingStreamedRequests c)
  /\ heap (Browser.doneCallback self c) = heap c
  /\ Browser.doneCallback self (Browser.doneCallback self c) = Browser.doneCallback self c.
Proof.
  intros Hn. pose proof (doneCallback_removes self c Hn) as Hr.
  split; [exact Hr|]. split.
  - unfold Browser.doneCallback. destruct (Browser.indexOf _ _); reflexivity.
  - assert (Hout : Browser.indexOf self (ongoingStreamedRequests (Browser.doneCallback self c))
                   = None).
    { rewrite Hr. clear. induction (ongoingStreamedRequests c) as [|y l IH]; [reflexivity|].
      rewrite filter_cons. destruct (decide (y <> self)) as [Hy|Hy]; [|exact IH].
      cbn. destruct (decide (y = self)); [done|]. by rewrite IH. }
    unfold Browser.doneCallback at 1. by rewrite Hout.
Qed.

Lemma doneCallback_removes_only_self_witness :
  ongoingStreamedRequests (Browser.doneCallback 0%nat Sample.busy) = [1%nat]
  /\ Browser.doneCallback 0%nat (Browser.doneCallback 0%nat Sample.busy)
     = Browser.doneCallback 0%nat Sample.busy.
Proof.
  destruct (doneCallback_removes_only_self Sample.busy 0%nat
              (proj1 busy_registry_ok)) as (Hreg & _ & Hagain).
  split; [rewrite Hreg; reflexivity|exact Hagain].
Defined.

(** ** browser.ts and index.ts: images *)

Section Base64Facts.
Import Base64.

Lemma digit_value (n : Z) : 0 <= n < 64 -> value (digit n) = Some n /\ digit n <> pad.
Proof.
  intros Hn.
  assert (Hall : forallb (fun k => bool_decide (value (digit (Z.of_nat k)) = Some (Z.of_nat k))
                                   && bool_decide (digit (Z.of_nat k) <> pad))
                         (seq 0 64) = true) by (vm_compute; reflexivity).
  rewrite forallb_forall in Hall.
  specialize (Hall (Z.to_nat n)). rewrite Z2Nat.id in Hall by lia.
  assert (Hin : In (Z.to_nat n) (seq 0 64)) by (apply in_seq; lia).
  apply Hall in Hin. apply andb_true_iff in Hin as [Hv Hd].
  split; [by apply bool_decide_eq_true in Hv | by apply bool_decide_eq_true in Hd].
Qed.

#[local] Arguments value : simpl never.

(** Names the digit of [n], keeping what [digit_value] says of it. *)
Ltac name_digit n :=
  let Hv := fresh "Hv" in
  let Hp := fresh "Hp" in
  let d := fresh "d" in
  destruct (digit_value n) as [Hv Hp];
  [Z.div_mod_to_equations; lia|];
  set (d := digit n) in *; clearbody d.

Lemma decode_encode (bytes : list Z) :
  Forall (fun b => 0 <= b < 256) bytes -> decode (encode bytes) = Some bytes.
Proof.
  assert (Hind : forall (n : nat) bytes, (length bytes <= n)%nat ->
            Forall (fun b => 0 <= b < 256) bytes -> decode (encode bytes) = Some bytes).
  { clear bytes. induction n as [|n IH].
    { intros [|a bytes] Hlen _; [reflexivity|cbn in Hlen; lia]. }
    intros [|a [|b [|c rest]]] Hlen Hb; [reflexivity|..].
    - apply Forall_cons in Hb as [Ha _]. cbn [encode].
      name_digit (a / 4). name_digit (a mod 4 * 16).
      cbn [decode]. rewrite Hv, Hv0. cbn.
      rewrite decide_True by reflexivity. rewrite decide_True by done.
      f_equal. f_equal. Z.div_mod_to_equations; lia.
    - apply Forall_cons in Hb as [Ha Hb]. apply Forall_cons in Hb as [Hb _]. cbn [encode].
      name_digit (a / 4). name_digit (a mod 4 * 16 + b / 16). name_digit (b mod 16 * 4).
      cbn [decode]. rewrite Hv, Hv0. cbn.
      rewrite decide_False by assumption. rewrite Hv1. cbn.
      rewrite decide_True by reflexivity. rewrite decide_True by done.
      f_equal. f_equal; [|f_equal]; Z.div_mod_to_equations; lia.
    - apply Forall_cons in Hb as [Ha Hb]. apply Forall_cons in Hb as [Hb Hc].
      apply Forall_cons in Hc as [Hc Hrest]. cbn [encode].
      name_digit (a / 4). name_digit (a mod 4 * 16 + b / 16).
      name_digit (b mod 16 * 4 + c / 64). name_digit (c mod 64).
      cbn [decode]. rewrite Hv, Hv0. cbn.
      rewrite decide_False by assumption. rewrite Hv1. cbn.
      rewrite decide_False by assumption. rewrite Hv2. cbn.
      rewrite IH by (cbn in Hlen; (lia || assumption)). cbn.
      f_equal. f_equal; [|f_equal; [|f_equal]]; Z.div_mod_to_equations; lia. }
  intros Hb. by apply (Hind (length bytes)).
Qed.

Lemma length_encode (bytes : list Z) :
  length (encode bytes) = (4 * ((length bytes + 2) / 3))%nat.
Proof.
  assert (Hind : forall (n : nat) bytes, (length bytes <= n)%nat ->
            length (encode bytes) = (4 * ((length bytes + 2) / 3))%nat).
  { clear bytes. induction n as [|n IH].
    { intros [|a bytes] Hlen; [reflexivity|cbn in Hlen; lia]. }
    intros [|a [|b [|c rest]]] Hlen; try reflexivity.
    cbn [encode length]. rewrite IH by (cbn in Hlen; lia).
    replace (S (S (S (length rest))) + 2)%nat with (length rest + 2 + 1 * 3)%nat by lia.
    rewrite Nat.div_add by lia. lia. }
  by apply (Hind (length bytes)).
Qed.

End Base64Facts.

(** X16.  [encodeImage] of [browser.ts] loses nothing: the text it makes of
    the bytes of an image reads back, as Base64, to the same bytes; it has
    four characters for every three bytes, the last group filled up; and an
    image given as a string is passed on as it is. *)
Theorem encodeImage_round_trip (bytes : list Z) (s : string) :
  Forall (fun b => 0 <= b < 256) bytes ->
  Base64.atob (Browser.encodeImage (ImageBytes bytes)) = Some bytes
  /\ String.length (Browser.encodeImage (ImageBytes bytes))
     = (4 * ((length bytes + 2) / 3))%nat
  /\ Browser.encodeImage (ImageString s) = s.
Proof.
  intros Hb. unfold Base64.atob, Browser.encodeImage, Base64.btoa.
  rewrite chars_of_chars. split; [by apply decode_encode|]. split; [|reflexivity].
  rewrite <- length_encode. generalize (Base64.encode bytes). clear.
  intros l. induction l as [|x l IH]; [reflexivity|]. cbn. by rewrite <- IH.
Qed.

Lemma encodeImage_round_trip_witness :
  Browser.encodeImage (ImageBytes [77; 97; 110; 255]) = "TWFu/w=="
  /\ Base64.atob "TWFu/w==" = Some [77; 97; 110; 255].
Proof.
  destruct (encodeImage_round_trip [77; 97; 110; 255] "x"
              ltac:(repeat constructor; lia)) as (Hback & _ & _).
  assert (E : Browser.encodeImage (ImageBytes [77; 97; 110; 255]) = "TWFu/w==")
    by reflexivity.
  split; [exact E|]. rewrite <- E. exact Hback.
Defined.

(** X18.  [encodeImage] of [index.ts] never throws.  Bytes are encoded as in
    the browser; a string that names an existing, readable file stands for
    the bytes of that file; any other string, one that names a file that
    cannot be read included, is passed on as it is. *)
Theorem encodeImage_never_throws `{Index.NodeFs} (image : Image) :
  exists s,
    Index.encodeImage image = Normal s
    /\ match image with
       | ImageBytes bytes => s = Browser.encodeImage (ImageBytes bytes)
       | ImageString name =>
         match Index.fs_readFile (Index.resolve name) with
         | Normal fileBuffer =>
           s = if Index.fs_existsSync name then Base64.btoa fileBuffer else name
         | Throw _ => s = name
         end
       end.
Proof.
  destruct image as [bytes|name]; cbn; [eauto|].
  destruct (Index.fs_existsSync name), (Index.fs_readFile (Index.resolve name)); eauto.
Qed.

(** ** browser.ts: the constructor *)

(** X17.  What [new Ollama(config)] comes to.  When it returns, the client
    has an empty, well-formed registry and the API key of [config]; behind a
    proxy its host is the one of [config] untouched (the empty string when
    there is none), otherwise it is what [formatHost] makes of the host of
    [config], or of [http://127.0.0.1:11434] when [config] names no host;
    and its transport is the [fetch] of [config] when there is one, whatever
    the platform offers, otherwise the one [getFetch] finds.  When it
    throws, either the host was to be formatted and [formatHost] threw, or
    no transport was given and the platform has none: no [window.fetch], no
    [global.fetch], and [require('node-fetch')] failed. *)
Theorem new_outcome {V : Type} `{Host} `{Browser.Globals V}
    (given : option (Browser.PartialConfig V)) :
  let proxy := from_option Browser.given_proxy false given in
  let address := default "http://127.0.0.1:11434" (given ≫= Browser.given_host) in
  match Browser.new given with
  | Normal (c, fetch) =>
    Browser.registry_ok c
    /\ ongoingStreamedRequests c = []
    /\ heap c = ∅
    /\ apiKey (config c) = given ≫= Browser.given_apiKey
    /\ (if proxy then host (config c) = default "" (given ≫= Browser.given_host)
        else Utils.formatHost address = Normal (host (config c)))
    /\ match given ≫= Browser.given_fetch with
       | Some configured => fetch = configured
       | None => Browser.getFetch = Normal fetch
       end
  | Throw e =>
    (proxy = false /\ Utils.formatHost address = Throw e)
    \/ (given ≫= Browser.given_fetch = None
        /\ Browser.window_fetch = None
        /\ Browser.global_fetch = None
        /\ (exists reason, Browser.require_node_fetch = Throw reason)
        /\ e = Error "Fetch is not available. Please provide a fetch implementation in the config.")
  end.
Proof.
  cbn zeta. unfold Browser.new.
  destruct (from_option Browser.given_proxy false given); cbn [negb].
  - cbn. destruct (given ≫= Browser.given_fetch) as [configured|] eqn:Ef; cbn.
    + repeat split; try reflexivity; try apply registry_ok_new.
    + unfold Browser.getFetch.
      destruct Browser.window_fetch as [f|] eqn:Ew; cbn;
        [repeat split; try reflexivity; apply registry_ok_new|].
      destruct Browser.global_fetch as [f|] eqn:Eg; cbn;
        [repeat split; try reflexivity; apply registry_ok_new|].
      destruct Browser.require_node_fetch as [f|e] eqn:Er; cbn;
        [repeat split; try reflexivity; apply registry_ok_new|].
      right. eauto 10.
  - destruct (Utils.formatHost _) as [formatted|e] eqn:Eh; cbn; [|left; auto].
    destruct (given ≫= Browser.given_fetch) as [configured|] eqn:Ef; cbn.
    + repeat split; try reflexivity; try apply registry_ok_new.
    + unfold Browser.getFetch.
      destruct Browser.window_fetch as [f|] eqn:Ew; cbn;
        [repeat split; try reflexivity; apply registry_ok_new|].
      destruct Browser.global_fetch as [f|] eqn:Eg; cbn;
        [repeat split; try reflexivity; apply registry_ok_new|].
      destruct Browser.require_node_fetch as [f|e] eqn:Er; cbn;
        [repeat split; try reflexivity; apply registry_ok_new|].
      right. eauto 10.
Qed.

(** ** index.ts: more on the blob upload *)

Section BlobMore.
Context {V : Type} `{Host}.
Variables (fetch : Fetch V) (c : Ollama) (path : string).

Lemma on_probe_failure_requests (digest : string) (e : Thrown) :
  requests (Index.on_probe_failure fetch c digest Ended e) = []
  \/ requests (Index.on_probe_failure fetch c digest Ended e)
     = [(Index.blob_url c digest, Index.upload_request c)].
Proof.
  unfold Index.on_probe_failure.
  destruct (instanceof_Error e && Str.includes "404" (message_of e)); [right|by left].
  rewrite post_checked. unfold Utils.checked. cbn.
  destruct (fetch _ _) as [r|e']; [|reflexivity].
  destruct (Utils.checkOk r); reflexivity.
Qed.

End BlobMore.

(** X19.  A blob the server already holds is not sent again: when the probe
    is answered with a 2xx status, [createBlob] returns the digest of the
    file after that one request. *)
Theorem createBlob_skips_known_blob {V : Type} `{Host} (fetch : Fetch V) (c : Ollama)
    (path : string) (chunks : list chunk) (r : Response V) :
  has_ReadableStream = true ->
  fs_read path = Normal chunks ->
  fetch (Index.blob_url c (Index.blob_digest chunks)) (Index.probe_request c) = Normal r ->
  ok r = true ->
  Index.createBlob fetch c path
  = ([(Index.blob_url c (Index.blob_digest chunks), Index.probe_request c)],
     Normal (Index.blob_digest chunks)).
Proof.
  intros Hs Hr Hf Hok. rewrite (createBlob_after_probe fetch c path chunks Hs Hr).
  cbn zeta. rewrite Hf. unfold Utils.checkOk. rewrite Hok. reflexivity.
Qed.

Lemma createBlob_skips_known_blob_witness :
  (fun call => method call.2)
    <$> requests (Index.createBlob Sample.stocked (Sample.client "http://127.0.0.1:11434")
                                   "/models/model.bin")
  = [Some "HEAD"].
Proof.
  rewrite (createBlob_skips_known_blob (H := Sample.platform) Sample.stocked
             (Sample.client "http://127.0.0.1:11434") "/models/model.bin" Sample.model_bin
             (Sample.reply 200 "OK" None) eq_refl eq_refl eq_refl eq_refl).
  reflexivity.
Defined.

(** X20.  [createBlob] never sends more than two requests, and sends them
    in one order to one address: the probe of the blob named by the digest
    of the file, then at most one upload.  Where [ReadableStream] is missing
    or the file cannot be read it sends nothing and throws. *)
Theorem createBlob_requests {V : Type} `{Host} (fetch : Fetch V) (c : Ollama)
    (path : string) :
  if has_ReadableStream then
    match fs_read path with
    | Normal chunks =>
      let url := Index.blob_url c (Index.blob_digest chunks) in
      requests (Index.createBlob fetch c path) = [(url, Index.probe_request c)]
      \/ requests (Index.createBlob fetch c path)
         = [(url, Index.probe_request c); (url, Index.upload_request c)]
    | Throw e => Index.createBlob fetch c path = ([], Throw e)
    end
  else
    Index.createBlob fetch c path
    = ([], Throw (Error "Streaming uploads are not supported in this environment.")).
Proof.
  destruct has_ReadableStream eqn:Hs.
  - destruct (fs_read path) as [chunks|e] eqn:Hr.
    + rewrite (createBlob_after_probe fetch c path chunks Hs Hr). cbn zeta.
      destruct (fetch _ _) as [r|e].
      * destruct (Utils.checkOk r) as [[]|e]; [by left|].
        destruct (on_probe_failure_requests fetch c (Index.blob_digest chunks) e) as [Hq|Hq];
          unfold Index.blob_digest in *;
          destruct (Index.on_probe_failure _ _ _ _ _) as [calls r'];
          cbn in Hq; subst calls; [by left|by right].
      * destruct (on_probe_failure_requests fetch c (Index.blob_digest chunks) e) as [Hq|Hq];
          unfold Index.blob_digest in *;
          destruct (Index.on_probe_failure _ _ _ _ _) as [calls r'];
          cbn in Hq; subst calls; [by left|by right].
    + unfold Index.createBlob. rewrite Hs, Hr. reflexivity.
  - unfold Index.createBlob. rewrite Hs. reflexivity.
Qed.

(** X21.  A probe that fails for a reason whose message does not contain
    [404], be it a response outside 2xx or a failure of the transport, ends
    [createBlob]: the failure is the caller's, as it was raised, and no
    upload is tried. *)
Theorem createBlob_passes_on_probe_failure {V : Type} `{Host} (fetch : Fetch V)
    (c : Ollama) (path : string) (chunks : list chunk) (e : Thrown) :
  has_ReadableStream = true ->
  fs_read path = Normal chunks ->
  result (Utils.head fetch (Index.blob_url c (Index.blob_digest chunks))
            (Some (nested_authorization (config c)))) = Throw e ->
  instanceof_Error e && Str.includes "404" (message_of e) = false ->
  Index.createBlob fetch c path
  = ([(Index.blob_url c (Index.blob_digest chunks), Index.probe_request c)], Throw e).
Proof.
  intros Hs Hr Hh Hm. rewrite (createBlob_after_probe fetch c path chunks Hs Hr).
  cbn zeta. revert Hh. rewrite head_checked. unfold Utils.checked, result. cbn [snd].
  fold (Index.probe_request c).
  destruct (fetch _ _) as [r|e'].
  - destruct (Utils.checkOk r) as [[]|e']; [discriminate|]. intros [= ->].
    unfold Index.on_probe_failure. rewrite Hm. reflexivity.
  - intros [= ->]. unfold Index.on_probe_failure. rewrite Hm. reflexivity.
Qed.

Lemma createBlob_passes_on_probe_failure_witness :
  Index.createBlob Sample.broken (Sample.client "http://127.0.0.1:11434") "/models/model.bin"
  = ([(Index.blob_url (Sample.client "http://127.0.0.1:11434")
         (Index.blob_digest Sample.model_bin),
       Index.probe_request (Sample.client "http://127.0.0.1:11434"))],
     Throw (ResponseError "Error 500: Internal Server Error" 500)).
Proof.
  apply (createBlob_passes_on_probe_failure (H := Sample.platform) Sample.broken
           (Sample.client "http://127.0.0.1:11434") "/models/model.bin" Sample.model_bin
           (ResponseError "Error 500: Internal Server Error" 500)
           eq_refl eq_refl eq_refl eq_refl).
Defined.

(** ** index.ts: more on the Modelfile rewriter *)

Section ModelfileMore.
Context {V : Type} `{Host}.
Variables (fetch : Fetch V) (c : Ollama) (mfDir : string).

Lemma rewrite_lines_cons line rest :
  Index.rewrite_lines fetch c mfDir (line :: rest)
  = match Index.rewrite_line fetch c mfDir line with
    | (calls, Normal o) =>
      match Index.rewrite_lines fetch c mfDir rest with
      | (calls', Normal out) => (calls ++ calls', Normal (o :: out))
      | (calls', Throw e) => (calls ++ calls', Throw e)
      end
    | (calls, Throw e) => (calls, Throw e)
    end.
Proof.
  cbn [Index.rewrite_lines]. destruct (Index.rewrite_line fetch c mfDir line) as [calls [o|e]];
    [|reflexivity].
  cbn. destruct (Index.rewrite_lines fetch c mfDir rest) as [calls' [out|e]]; cbn;
    [rewrite app_nil_r|]; reflexivity.
Qed.

Lemma rewrite_line_plain line o :
  Index.is_directive (List.nth 0 (Str.split_limit Index.space 2 line) "") = false ->
  result (Index.rewrite_line fetch c mfDir line) = Normal o -> o = line.
Proof. intros Hd. rewrite rewrite_line_other by assumption. by intros [= <-]. Qed.

Lemma rewrite_lines_in_place lines out :
  result (Index.rewrite_lines fetch c mfDir lines) = Normal out ->
  length out = length lines
  /\ forall (i : nat) line,
       lines !! i = Some line ->
       Index.is_directive (List.nth 0 (Str.split_limit Index.space 2 line) "") = false ->
       out !! i = Some line.
Proof.
  revert out. induction lines as [|l lines IH]; intros out.
  - intros [= <-]. split; [reflexivity|]. intros i line Hi. discriminate Hi.
  - rewrite rewrite_lines_cons.
    destruct (Index.rewrite_line fetch c mfDir l) as [calls [o|e]] eqn:El; [|discriminate].
    destruct (Index.rewrite_lines fetch c mfDir lines) as [calls' [out'|e]]; [|discriminate].
    intros [= <-]. destruct (IH out' eq_refl) as [Hlen Hkeep]. split; [cbn; by rewrite Hlen|].
    intros [|i] line Hi Hd; cbn in *.
    + injection Hi as ->. f_equal. apply (rewrite_line_plain line o Hd).
      by rewrite El.
    + by apply Hkeep.
Qed.

Lemma rewrite_lines_failure before line after out e :
  result (Index.rewrite_lines fetch c mfDir before) = Normal out ->
  result (Index.rewrite_line fetch c mfDir line) = Throw e ->
  Index.rewrite_lines fetch c mfDir (before ++ line :: after)
  = (requests (Index.rewrite_lines fetch c mfDir before)
     ++ requests (Index.rewrite_line fetch c mfDir line), Throw e).
Proof.
  revert out. induction before as [|l before IH]; intros out Hb Hl.
  - cbn [app]. rewrite rewrite_lines_cons.
    destruct (Index.rewrite_line fetch c mfDir line) as [calls [o|e']]; [discriminate|].
    cbn in Hl. injection Hl as ->. reflexivity.
  - revert Hb. cbn [app]. rewrite !rewrite_lines_cons.
    destruct (Index.rewrite_line fetch c mfDir l) as [calls [o|e']]; [|discriminate].
    destruct (Index.rewrite_lines fetch c mfDir before) as [calls' [out'|e']] eqn:Eb;
      [|discriminate].
    intros _. rewrite (IH out' eq_refl Hl). cbn. by rewrite app_assoc.
Qed.

End ModelfileMore.

(** X23.  [parseModelfile] rewrites a Modelfile in place: when it returns,
    its result has as many lines as the Modelfile, and every line that does
    not open with [FROM] or [ADAPTER] stands where it stood, unchanged. *)
Theorem parseModelfile_in_place {V : Type} `{Host} (fetch : Fetch V) (c : Ollama)
    (modelfile mfDir rewritten : string) :
  result (Index.parseModelfile fetch c modelfile mfDir) = Normal rewritten ->
  exists out,
    rewritten = Str.join (String Index.newline EmptyString) out
    /\ length out = length (Str.split Index.newline modelfile)
    /\ forall (i : nat) line,
         Str.split Index.newline modelfile !! i = Some line ->
         Index.is_directive (List.nth 0 (Str.split_limit Index.space 2 line) "") = false ->
         out !! i = Some line.
Proof.
  unfold Index.parseModelfile.
  destruct (Index.rewrite_lines fetch c mfDir (Str.split Index.newline modelfile))
    as [calls [out|e]] eqn:E; [|discriminate].
  cbn. intros [= <-]. exists out. split; [reflexivity|].
  apply (rewrite_lines_in_place fetch c mfDir). by rewrite E.
Qed.

(** X24.  The rewriter stops at the first line that fails: when the lines
    before it went through and the line itself throws, [parseModelfile]
    throws the same, having sent the requests of those lines and none for
    the lines behind. *)
Theorem parseModelfile_stops_at_failure {V : Type} `{Host} (fetch : Fetch V) (c : Ollama)
    (modelfile mfDir : string) (before after : list string) (line : string)
    (out : list string) (e : Thrown) :
  Str.split Index.newline modelfile = before ++ line :: after ->
  result (Index.rewrite_lines fetch c mfDir before) = Normal out ->
  result (Index.rewrite_line fetch c mfDir line) = Throw e ->
  Index.parseModelfile fetch c modelfile mfDir
  = (requests (Index.rewrite_lines fetch c mfDir before)
     ++ requests (Index.rewrite_line fetch c mfDir line), Throw e).
Proof.
  intros Hs Hb Hl. unfold Index.parseModelfile.
  rewrite Hs, (rewrite_lines_failure fetch c mfDir before line after out e Hb Hl).
  reflexivity.
Qed.

Lemma parseModelfile_in_place_witness :
  exists rewritten out,
    result (Index.parseModelfile Sample.stocked (Sample.client "http://127.0.0.1:11434")
              Sample.modelfile "/models") = Normal rewritten
    /\ rewritten = Str.join Sample.nl out
    /\ length out = 3%nat
    /\ out !! 0%nat = Some "# base"
    /\ out !! 2%nat = Some "PARAMETER temperature 1".
Proof.
  destruct (result (Index.parseModelfile Sample.stocked
                      (Sample.client "http://127.0.0.1:11434") Sample.modelfile "/models"))
    as [rewritten|e] eqn:E; [|vm_compute in E; discriminate E].
  destruct (parseModelfile_in_place (H := Sample.platform) Sample.stocked
              (Sample.client "http://127.0.0.1:11434") Sample.modelfile "/models" rewritten E)
    as (out & Hj & Hlen & Hkeep).
  exists rewritten, out. split; [reflexivity|]. split; [exact Hj|]. split; [exact Hlen|].
  split; [exact (Hkeep 0%nat "# base" eq_refl eq_refl)
         |exact (Hkeep 2%nat "PARAMETER temperature 1" eq_refl eq_refl)].
Defined.

Lemma parseModelfile_stops_at_failure_witness :
  (fun call => method call.2)
    <$> requests (Index.parseModelfile Sample.fetch (Sample.client "http://127.0.0.1:11434")
                    Sample.faulty_modelfile "/models")
  = [Some "HEAD"; Some "POST"]
  /\ result (Index.parseModelfile Sample.fetch (Sample.client "http://127.0.0.1:11434")
               Sample.faulty_modelfile "/models")
     = Throw (TypeError "Cannot read properties of undefined (reading 'trim')").
Proof.
  destruct (result (Index.rewrite_lines Sample.fetch (Sample.client "http://127.0.0.1:11434")
                      "/models" ["FROM ./model.bin"]))
    as [out|e] eqn:Hb; [|vm_compute in Hb; discriminate Hb].
  rewrite (parseModelfile_stops_at_failure (H := Sample.platform) Sample.fetch
             (Sample.client "http://127.0.0.1:11434") Sample.faulty_modelfile "/models"
             ["FROM ./model.bin"] ["FROM ./model.bin"] "ADAPTER" out
             (TypeError "Cannot read properties of undefined (reading 'trim')")
             eq_refl Hb eq_refl).
  split; reflexivity.
Defined.

(** ** index.ts: creating a model *)

(** X25.  [create] of [index.ts] needs a source.  A request with neither
    [path] nor [modelfile], an empty string counting as none, throws before
    anything is read or sent.  And a [path] that is given wins: the
    [modelfile] of the same request is not looked at. *)
Theorem create_source {V : Type} `{Json V} `{Host} `{Index.NodeFs}
    (fetch : Fetch V) (c : Ollama) (request : Index.CreateRequest) :
  (Index.given (Index.path request) = None ->
   Index.given (Index.modelfile request) = None ->
   Index.create fetch c request
   = ([], Throw (Error "Must provide either path or modelfile to create a model")))
  /\ (forall (path : string) (other : option string),
        Index.given (Index.path request) = Some path ->
        Index.create fetch c request
        = Index.create fetch c
            {| Index.model := Index.model request; Index.path := Index.path request;
               Index.modelfile := other; Index.quantize := Index.quantize request;
               Index.stream := Index.stream request |}).
Proof.
  unfold Index.create. cbn [Index.path Index.modelfile Index.model Index.quantize Index.stream].
  split.
  - intros -> ->. reflexivity.
  - intros path other ->. reflexivity.
Qed.

Lemma create_source_witness :
  Index.create Sample.fetch (Sample.client "http://127.0.0.1:11434")
    {| Index.model := "mario"; Index.path := Some ""; Index.modelfile := Some "";
       Index.quantize := None; Index.stream := None |}
  = ([], Throw (Error "Must provide either path or modelfile to create a model"))
  /\ Index.create Sample.fetch (Sample.client "http://127.0.0.1:11434")
       {| Index.model := "mario"; Index.path := Some "/models/Modelfile";
          Index.modelfile := Some "FROM llama2";
          Index.quantize := None; Index.stream := None |}
     = Index.create Sample.fetch (Sample.client "http://127.0.0.1:11434")
         {| Index.model := "mario"; Index.path := Some "/models/Modelfile";
            Index.modelfile := None;
            Index.quantize := None; Index.stream := None |}.
Proof.
  split.
  - apply (create_source (V := Sample.JsonValue) (H0 := Sample.platform)
             (H1 := Sample.files)); reflexivity.
  - apply (proj2 (create_source (V := Sample.JsonValue) (H0 := Sample.platform)
                    (H1 := Sample.files) Sample.fetch
                    (Sample.client "http://127.0.0.1:11434")
                    {| Index.model := "mario"; Index.path := Some "/models/Modelfile";
                       Index.modelfile := Some "FROM llama2";
                       Index.quantize := None; Index.stream := None |})
             "/models/Modelfile" None eq_refl).
Defined.

(** X26.  [create] of [index.ts] sends the blobs first.  With the Modelfile
    taken from [path] (and its directory as the base of relative names) or
    from [modelfile] (and the working directory), the requests of
    [parseModelfile] go out before the one request to [/api/create], which
    is the request of [create] of [browser.ts] for the rewritten Modelfile;
    and when the rewriting throws, [create] throws the same and
    [/api/create] is never called. *)
Theorem create_uploads_then_creates {V : Type} `{Json V} `{Host} `{Index.NodeFs}
    (fetch : Fetch V) (c : Ollama) (request : Index.CreateRequest) (text mfDir : string) :
  (Index.given (Index.path request) = None
   /\ Index.given (Index.modelfile request) = Some text
   /\ mfDir = Index.process_cwd)
  \/ (exists path, Index.given (Index.path request) = Some path
                   /\ Index.fs_readFile_utf8 path = Normal text
                   /\ mfDir = Index.dirname path) ->
  match result (Index.parseModelfile fetch c text mfDir) with
  | Normal rewritten =>
    requests (Index.create fetch c request)
    = requests (Index.parseModelfile fetch c text mfDir)
      ++ requests (Browser.create fetch c (Index.model request) (Index.stream request)
                     (Some rewritten) (Index.quantize request))
    /\ (fun call => (method call.2, call.1))
         <$> requests (Browser.create fetch c (Index.model request) (Index.stream request)
                         (Some rewritten) (Index.quantize request))
       = [(Some "POST", host (config c) +:+ "/api/create")]
    /\ result (Index.create fetch c request)
       = result (Browser.create fetch c (Index.model request) (Index.stream request)
                   (Some rewritten) (Index.quantize request))
  | Throw e =>
    Index.create fetch c request
    = (requests (Index.parseModelfile fetch c text mfDir), Throw e)
  end.
Proof.
  intros Hsource.
  assert (Hc : Index.create fetch c request
    = (Index.parseModelfile fetch c text mfDir ≫= fun modelfileContent =>
         Browser.create fetch c (Index.model request) (Index.stream request)
           (Some modelfileContent) (Index.quantize request))).
  { unfold Index.create.
    destruct Hsource as [(Hp & Hm & ->)|(path & Hp & Hr & ->)]; rewrite Hp.
    - rewrite Hm. reflexivity.
    - rewrite Hr. cbn.
      destruct (Index.parseModelfile fetch c text (Index.dirname path)) as [calls [o|e]];
        reflexivity. }
  rewrite Hc.
  destruct (Index.parseModelfile fetch c text mfDir) as [calls [rewritten|e]];
    cbn [result requests fst snd]; [|reflexivity].
  pose proof (processStreamableRequest_requests fetch c "create" (Index.stream request)
                [("name", Some (Index.model request));
                 ("stream", Browser.of_bool <$> Index.stream request);
                 ("modelfile", Some rewritten); ("quantize", Index.quantize request)]) as Hq.
  fold (Browser.create fetch c (Index.model request) (Index.stream request) (Some rewritten)
          (Index.quantize request)) in Hq.
  destruct (Browser.create fetch c (Index.model request) (Index.stream request)
              (Some rewritten) (Index.quantize request)) as [calls' r] eqn:Ec.
  cbn in Hq. subst calls'. cbn. rewrite Ec. repeat split; reflexivity.
Qed.

Lemma create_uploads_then_creates_witness :
  (fun call => (method call.2, call.1))
    <$> requests (Index.create Sample.fetch (Sample.client "http://127.0.0.1:11434")
                    {| Index.model := "mario"; Index.path := Some "/models/Modelfile";
                       Index.modelfile := None; Index.quantize := None;
                       Index.stream := None |})
  = [(Some "HEAD", Index.blob_url (Sample.client "http://127.0.0.1:11434")
                     (Index.blob_digest Sample.model_bin));
     (Some "POST", Index.blob_url (Sample.client "http://127.0.0.1:11434")
                     (Index.blob_digest Sample.model_bin));
     (Some "POST", "http://127.0.0.1:11434/api/create")].
Proof.
  pose proof (create_uploads_then_creates (V := Sample.JsonValue) (H0 := Sample.platform)
                (H1 := Sample.files) Sample.fetch (Sample.client "http://127.0.0.1:11434")
                {| Index.model := "mario"; Index.path := Some "/models/Modelfile";
                   Index.modelfile := None; Index.quantize := None; Index.stream := None |}
                "FROM ./model.bin" "/models"
                (or_intror (ex_intro _ "/models/Modelfile"
                              (conj eq_refl (conj eq_refl eq_refl))))) as Hc.
  destruct (result (Index.parseModelfile Sample.fetch (Sample.client "http://127.0.0.1:11434")
                      "FROM ./model.bin" "/models"))
    as [rewritten|e] eqn:E; [|vm_compute in E; discriminate E].
  destruct Hc as (Hq & _ & _). rewrite Hq. vm_compute. reflexivity.
Defined.

(** ** index.ts: a Modelfile without directives *)

Lemma parseModelfile_no_directive_witness :
  Index.parseModelfile Sample.offline (Sample.client "http://127.0.0.1:4040")
    Sample.plain_modelfile "/models"
  = mret Sample.plain_modelfile.
Proof.
  apply (parseModelfile_no_directive (H := Sample.platform)).
  vm_compute. repeat constructor.
Defined.

(** ** utils.ts: streams of ASCII *)

Section AsciiFacts.
Import Utf8.

Lemma ascii_run (c : chunk) :
  Forall (fun b => 0 <= b <= 0x7F) c -> run Start c = c /\ state_after Start c = Start.
Proof.
  induction 1 as [|b c Hb _ [IHr IHs]]; [split; reflexivity|].
  assert (Hlead : lead b = (Start, [b])).
  { unfold lead. destruct (Z.leb_spec b 0x7F); [reflexivity|lia]. }
  cbn. rewrite Hlead. cbn. rewrite IHr. split; [reflexivity|exact IHs].
Qed.

Lemma ascii_no_bom (c : chunk) : Forall (fun b => 0 <= b <= 0x7F) c -> strip_bom c = c.
Proof.
  intros Hc. destruct c as [|x [|y [|z c]]]; try reflexivity.
  apply Forall_cons in Hc as [Hx _]. cbn.
  destruct (Z.eqb_spec x 0xEF); [lia|reflexivity].
Qed.

Lemma ascii_decode (c : chunk) : Forall (fun b => 0 <= b <= 0x7F) c -> decode c = c.
Proof.
  intros Hc. unfold decode. rewrite ascii_no_bom by assumption. by apply ascii_run.
Qed.

End AsciiFacts.

(** X27.  On a body of ASCII the decoder is exact, however the body is cut
    into chunks: when every byte is below 128 and the bytes are lines each
    closed by a newline, [parseJSON] yields the parse of every line that
    parses, in order, warns of the others, and returns. *)
Theorem parseJSON_ascii {V : Type} `{Json V} (chunks : list chunk) (body : text) :
  Forall (Forall (fun b => 0 <= b <= 0x7F)) chunks ->
  concat chunks = body ++ [NL] ->
  parseJSON (stream_of chunks)
  = (try_parse <$> lines body, Returned).
Proof.
  intros Hc Hw.
  assert (Hd : Utf8.decode <$> chunks = chunks).
  { clear Hw. induction Hc as [|c chunks Hc _ IH]; [reflexivity|].
    cbn. rewrite ascii_decode by assumption. by rewrite IH. }
  rewrite parseJSON_chunk_boundaries. cbn zeta. rewrite Hd, Hw.
  unfold residue, lines. rewrite split_chars_terminated.
  rewrite removelast_last, last_last. cbn. by rewrite app_nil_r.
Qed.

Lemma parseJSON_ascii_witness :
  yields (fst (parseJSON (V := Sample.JsonValue)
    (stream_of [Sample.js "{'status':'pu"; Sample.js "lling'}" ++ [10] ++ Sample.js "{'done':t";
                Sample.js "rue}" ++ [10]])))
  = [Sample.JObject [(Sample.codes "status", Sample.SString (Sample.codes "pulling"))];
     Sample.JObject [(Sample.codes "done", Sample.SBool true)]].
Proof.
  rewrite (parseJSON_ascii (V := Sample.JsonValue)
             [Sample.js "{'status':'pu"; Sample.js "lling'}" ++ [10] ++ Sample.js "{'done':t";
              Sample.js "rue}" ++ [10]]
             (Sample.js "{'status':'pulling'}" ++ [10] ++ Sample.js "{'done':true}")
             ltac:(vm_compute;
                    repeat first [apply List.Forall_nil | apply List.Forall_cons | split
                                 | discriminate])
             eq_refl).
  vm_compute. reflexivity.
Defined.
